(** * Web-Scraper: the search-and-scrape cascade

    A shallow embedding of the decision logic of the Playwright web search
    tool: URL normalisation and blocking ([web_search_tool.py]), the content
    quality gate, the batched scraper ([content_scraper.py]), request
    validation ([lambda_handler.py]) and the provider cascade of
    [WebSearchToolPlaywright.search_and_scrape]; further the provider
    searches ([search_engine.py]), the configuration class ([config.py])
    and the image uploader with its retry loops ([s3_uploader.py]).

    Python [str] values are modelled as [string]; a character is a code
    point below 256, classified as CPython classifies the Latin-1 range.
    Python [int] values are [Z], list indices and lengths are [nat].
    Anything the code obtains from the outside (provider result pages,
    browser tabs, the memory and deadline probes) is a field of a [World]
    record that the embedded functions read. *)

From Stdlib Require Import ZArith Ascii String List Bool Lia DecimalString.
From stdpp Require Import base gmap strings list.

Import ListNotations.
Local Open Scope string_scope.
Local Open Scope list_scope.
Local Open Scope Z_scope.

(** ** Python string primitives *)

Module PyStr.

(** Code point of a character. *)
Definition ord (c : ascii) : N := N_of_ascii c.

Definition in_range (lo hi : N) (c : ascii) : bool :=
  (N.leb lo (ord c) && N.leb (ord c) hi)%bool.

(** [str.isspace] on one character: TAB..CR, FS..US, SPACE, NEL, NBSP. *)
Definition isspace (c : ascii) : bool :=
  (in_range 9 13 c || in_range 28 32 c
   || N.eqb (ord c) 133 || N.eqb (ord c) 160)%bool.

(** [str.isalnum] on one character: decimal digits, ASCII letters, and the
    Latin-1 letters and numeric characters. *)
Definition isalnum (c : ascii) : bool :=
  (in_range 48 57 c || in_range 65 90 c || in_range 97 122 c
   || N.eqb (ord c) 170 || in_range 178 179 c || N.eqb (ord c) 181
   || in_range 185 186 c || in_range 188 190 c
   || in_range 192 214 c || in_range 216 246 c || in_range 248 255 c)%bool.

(** Lower-casing of one character: A..Z and the Latin-1 capitals. *)
Definition lower_char (c : ascii) : ascii :=
  if (in_range 65 90 c || in_range 192 214 c || in_range 216 222 c)%bool
  then ascii_of_N (ord c + 32) else c.

(** [s.lower()] *)
Fixpoint lower (s : string) : string :=
  match s with
  | EmptyString => EmptyString
  | String c s' => String (lower_char c) (lower s')
  end.

(** [s.startswith(p)] *)
Fixpoint startswith (p s : string) : bool :=
  match p, s with
  | EmptyString, _ => true
  | String _ _, EmptyString => false
  | String a p', String b s' => (Ascii.eqb a b && startswith p' s')%bool
  end.

(** [sub in s] *)
Fixpoint contains (sub s : string) : bool :=
  (startswith sub s ||
   match s with
   | EmptyString => false
   | String _ s' => contains sub s'
   end)%bool.

(** [s.rstrip(chars)], with the character set given as a predicate. *)
Fixpoint rstrip_by (strip : ascii -> bool) (s : string) : string :=
  match s with
  | EmptyString => EmptyString
  | String c s' =>
      match rstrip_by strip s' with
      | EmptyString => if strip c then EmptyString else String c EmptyString
      | String d r => String c (String d r)
      end
  end.

(** [s.lstrip(chars)] *)
Fixpoint lstrip_by (strip : ascii -> bool) (s : string) : string :=
  match s with
  | EmptyString => EmptyString
  | String c s' => if strip c then lstrip_by strip s' else s
  end.

(** [s.strip()]: whitespace removed at both ends. *)
Definition strip (s : string) : string :=
  rstrip_by isspace (lstrip_by isspace s).

(** [s.split(sep)[0]] for a one-character separator: the text before the
    first occurrence of [sep], the whole string when there is none. *)
Fixpoint split_head (sep : ascii) (s : string) : string :=
  match s with
  | EmptyString => EmptyString
  | String c s' => if Ascii.eqb c sep then EmptyString
                   else String c (split_head sep s')
  end.

(** [len(s.split())]: the number of maximal runs of non-whitespace. *)
Fixpoint count_words (in_word : bool) (s : string) : nat :=
  match s with
  | EmptyString => 0%nat
  | String c s' =>
      if isspace c then count_words false s'
      else if in_word then count_words true s'
           else S (count_words true s')
  end.

(** [' '.join(s.split())]: leading and trailing whitespace dropped, inner
    runs of whitespace collapsed to one space. [pending] records that a
    word has been emitted and whitespace seen since. *)
Fixpoint collapse (started pending : bool) (s : string) : string :=
  match s with
  | EmptyString => EmptyString
  | String c s' =>
      if isspace c then collapse started started s'
      else if pending then String " " (String c (collapse true false s'))
           else String c (collapse true false s')
  end.

Definition join_split (s : string) : string := collapse false false s.
Definition word_count (s : string) : nat := count_words false s.

(** [s[n:]] *)
Fixpoint drop (n : nat) (s : string) : string :=
  match n, s with
  | O, _ => s
  | S _, EmptyString => EmptyString
  | S n', String _ s' => drop n' s'
  end.

(** [s.endswith(p)] *)
Fixpoint endswith (p s : string) : bool :=
  (String.eqb p s ||
   match s with
   | EmptyString => false
   | String _ s' => endswith p s'
   end)%bool.

End PyStr.

(** ** URL normalisation and blocking (closures of [search_and_scrape]) *)

(** [normalize_url], web_search_tool.py lines 185-193. *)
Definition normalize_url (url : string) : string :=
  let url := PyStr.rstrip_by (Ascii.eqb "/") url in
  let url := if PyStr.contains "#" url then PyStr.split_head "#" url else url in
  let url := if PyStr.contains "?" url then PyStr.lower url else url in
  url.

(** The list literal of [is_blocked_url], lines 198-208. *)
Definition blocked_domains : list string :=
  [ "reddit.com"; "facebook.com"; "twitter.com"; "x.com"; "instagram.com";
    "tiktok.com"; "pinterest.com"; "youtube.com"; "mastodon.social/@" ].

(** [is_blocked_url], lines 196-210:
    [any(blocked in url_lower for blocked in blocked_domains)]. *)
Definition is_blocked_url (url : string) : bool :=
  let url_lower := PyStr.lower url in
  existsb (fun blocked => PyStr.contains blocked url_lower) blocked_domains.

(** ** Scraped pages and the content quality gate *)

(** [ScrapedContent]: the fields of the class (web_search_tool.py 26-34). *)
Record ScrapedContent := {
  url : string;
  title : string;
  content : string;
  word_count : Z;
  success : bool;
  error : option string;
  images : list string
}.

(** [sum(1 for c in text if c.isalnum() or c.isspace())] *)
Fixpoint alphanumeric_count (text : string) : nat :=
  match text with
  | EmptyString => 0%nat
  | String c rest =>
      ((if (PyStr.isalnum c || PyStr.isspace c)%bool then 1 else 0)
       + alphanumeric_count rest)%nat
  end.

(** [is_llm_readable], lines 64-78. The source compares the float quotient
    [alphanumeric_count / total_count] with the float [0.7]; both are
    correctly rounded, and for texts shorter than 2^50 characters the
    comparison holds exactly when [7 * total_count <= 10 * alphanumeric_count],
    which is what is written here. *)
Definition is_llm_readable (text : string) : bool :=
  if (String.eqb text "" || Nat.ltb (String.length text) 10)%bool then false
  else
    let alphanumeric_count := Z.of_nat (alphanumeric_count text) in
    let total_count := Z.of_nat (String.length text) in
    7 * total_count <=? 10 * alphanumeric_count.

(** The condition guarding [valid_results.append(content)], lines 256-261
    (repeated verbatim for every provider). *)
Definition is_valid_result (c : ScrapedContent) : bool :=
  ((success c && (50 <=? word_count c))
   && (negb (PyStr.contains "403" (title c))
       && negb (PyStr.contains "Forbidden" (title c))
       && negb (PyStr.contains "404" (title c))
       && negb (PyStr.contains "Not Found" (title c))
       && is_llm_readable (content c)))%bool.

(** ** The scraper (content_scraper.py) *)

(** What the browser does with one page: [page.goto] or [page.evaluate]
    raises an exception (timeout, navigation error) with text [msg], or the
    page script returns the title and the inner text. *)
Inductive PageLoad :=
| GotoRaises (msg : string)
| Loaded (page_title page_text : string).

(** What happens when a tab is asked for: [context.new_page()] raises, or a
    page is handed out and then loads as described. *)
Inductive TabOutcome :=
| NewPageRaises (msg : string)
| TabOpened (load : PageLoad).

(** [scrape_url_playwright], lines 27-82. *)
Definition scrape_url_playwright (u : string) (page : PageLoad) : ScrapedContent :=
  match page with
  | Loaded page_title page_text =>
      let content := PyStr.join_split page_text in
      let word_count := Z.of_nat (PyStr.word_count content) in
      {| url := u; title := page_title; content := content;
         word_count := word_count; success := true; error := None;
         images := [] |}
  | GotoRaises msg =>
      let error_msg := ("Playwright scraping error: " ++ msg)%string in
      {| url := u; title := ""; content := ""; word_count := 0;
         success := false; error := Some error_msg; images := [] |}
  end.

(** [scrape_in_new_tab], lines 105-129. The [finally] clause closes the
    page and swallows what closing raises; it does not change the value
    returned. *)
Definition scrape_in_new_tab (tab : nat -> string -> TabOutcome)
    (u : string) (index : nat) : nat * ScrapedContent :=
  match tab index u with
  | TabOpened new_page => (index, scrape_url_playwright u new_page)
  | NewPageRaises msg =>
      (index,
       {| url := u; title := ""; content := ""; word_count := 0;
          success := false; error := Some ("Scraping failed: " ++ msg)%string;
          images := [] |})
  end.

(** Exceptions that leave a function. *)
Inductive Raised :=
| ValueError (msg : string)
| AttributeError (msg : string)
| WebSearchError (msg : string).

Definition Result (A : Type) : Type := Raised + A.

Definition bind {A B : Type} (m : Result A) (f : A -> Result B) : Result B :=
  match m with
  | inl e => inl e
  | inr a => f a
  end.

Notation "'do' x <- m ; f" := (bind m (fun x => f))
  (at level 10, x name, m at level 100, f at level 200).
Notation "'do' ' pat <- m ; f" := (bind m (fun x => match x with pat => f end))
  (at level 10, pat pattern, m at level 100, f at level 200).

(** The values [range(0, stop, step)] runs through when [0 < step], at most
    [fuel] of them; [stop] of fuel is always enough. *)
Fixpoint range_from (fuel i stop step : nat) : list nat :=
  match fuel with
  | O => []
  | S fuel' =>
      if Nat.ltb i stop then i :: range_from fuel' (i + step) stop step else []
  end.

(** [urls[batch_start:batch_end]] for [0 <= batch_start]. *)
Definition slice {A : Type} (l : list A) (lo hi : nat) : list A :=
  take (hi - lo) (drop lo l).

(** The body of the loop storing a batch (lines 146-152): an item that is a
    tuple is stored at its index, anything else is only logged. The index
    is always within [results], where Python and [<[_:=_]>] agree. *)
Definition store_batch (results : list (option ScrapedContent))
    (batch_results : list (Raised + nat * ScrapedContent))
  : list (option ScrapedContent) :=
  foldl (fun results item =>
           match item with
           | inr (index, result) => <[index := Some result]> results
           | inl _ => results
           end) results batch_results.

(** One turn of the loop over batches (lines 135-152); [asyncio.gather]
    returns the values of the tasks in the order of the tasks. *)
Definition scrape_batch (tab : nat -> string -> TabOutcome)
    (urls : list string) (max_parallel : nat)
    (results : list (option ScrapedContent)) (batch_start : nat)
  : list (option ScrapedContent) :=
  let batch_end := Nat.min (batch_start + max_parallel) (length urls) in
  let batch_urls := slice urls batch_start batch_end in
  let tasks := imap (fun i u => scrape_in_new_tab tab u (batch_start + i)) batch_urls in
  let batch_results := map (fun t => inr t) tasks in
  store_batch results batch_results.

(** [scrape_parallel_playwright], lines 85-158. [range(0, len(urls), step)]
    raises [ValueError] for a zero step and is empty for a negative one; the
    slots of URLs no batch covered keep their initial [None]. *)
Definition scrape_parallel_playwright (tab : nat -> string -> TabOutcome)
    (urls : list string) (max_parallel : Z)
  : Result (list (option ScrapedContent)) :=
  match urls with
  | [] => inr []
  | _ :: _ =>
      let results := replicate (length urls) None in
      match max_parallel with
      | Z0 => inl (ValueError "range() arg 3 must not be zero")
      | Zneg _ => inr results
      | Zpos step =>
          let max_parallel := Pos.to_nat step in
          inr (foldl (scrape_batch tab urls max_parallel) results
                 (range_from (length urls) 0 (length urls) max_parallel))
      end
  end.

(** ** The provider cascade (web_search_tool.py) *)

Inductive Provider := Brave | Startpage | Yahoo | Yandex.

Definition provider_name (p : Provider) : string :=
  match p with
  | Brave => "brave"
  | Startpage => "startpage"
  | Yahoo => "yahoo"
  | Yandex => "yandex"
  end.

(** Everything [search_and_scrape] takes from its surroundings. *)
Record World := {
  (** [self.resource_monitor] is set *)
  has_resource_monitor : bool;
  (** [lambda_context] is set *)
  has_lambda_context : bool;
  (** [resource_monitor.should_reduce_parallelism()] *)
  should_reduce_parallelism : bool;
  (** the answer of the n-th call of
      [resource_monitor.should_return_partial_results(lambda_context)] *)
  should_return_partial_results : nat -> bool;
  (** what starting the browser raises, if anything *)
  browser_start_error : option string;
  (** the URLs a provider's search function returns for a query and a
      wanted count; [None] when the search (or opening its page) raises *)
  search_urls : Provider -> string -> Z -> option (list string);
  (** [search_images_brave_playwright], which never raises *)
  search_images : string -> Z -> list string;
  (** the tabs opened while scraping a provider's batch *)
  open_tab : Provider -> nat -> string -> TabOutcome
}.

(** [len(l)] *)
Definition len {A : Type} (l : list A) : Z := Z.of_nat (length l).

(** [l[:k]] *)
Definition slice_to {A : Type} (l : list A) (k : Z) : list A :=
  if 0 <=? k then take (Z.to_nat k) l else take (Z.to_nat (len l + k)) l.

(** [sep.join(l)] *)
Fixpoint py_join (sep : string) (l : list string) : string :=
  match l with
  | [] => ""
  | [x] => x
  | x :: rest => (x ++ sep ++ py_join sep rest)%string
  end.

(** The request size for a need of [n] results (lines 177-182, and again
    lines 306-311, 375-380, 444-449). *)
Definition with_buffer (n : Z) : Z :=
  if n <=? 5 then n + 3 else if n <=? 10 then n + 4 else n + 5.

(** The loop removing blocked and duplicate URLs (lines 225-232, and
    again for each fallback provider); [unique] is the list appended to. *)
Fixpoint dedupe (urls : list string) (seen_normalized : gset string)
    (unique : list string) : gset string * list string :=
  match urls with
  | [] => (seen_normalized, unique)
  | u :: rest =>
      if is_blocked_url u then dedupe rest seen_normalized unique
      else
        let normalized := normalize_url u in
        if decide (normalized ∈ seen_normalized)
        then dedupe rest seen_normalized unique
        else dedupe rest ({[normalized]} ∪ seen_normalized) (unique ++ [u])
  end.

(** The variables of [search_and_scrape] that live across providers, the
    number of deadline probes made so far, and a record of the calls of
    [scrape_parallel_playwright] (provider and URL list), which the code
    does not keep but the properties below speak about. *)
Record Cascade := {
  valid_results : list ScrapedContent;
  seen_normalized : gset string;
  engines_used : list string;
  polls : nat;
  scrape_log : list (Provider * list string)
}.

(** The loop over a scraped batch (lines 255-270, and again for each
    fallback provider). [check] is [self.resource_monitor and
    lambda_context]; the unmonitored Brave loop (lines 276-285) is the same
    loop without the probe. Reading [.success] of a [None] slot raises. *)
Fixpoint evaluate (w : World) (check : bool) (k : Z)
    (scraped : list (option ScrapedContent))
    (valid_results : list ScrapedContent) (polls : nat)
  : Result (list ScrapedContent * nat) :=
  match scraped with
  | [] => inr (valid_results, polls)
  | None :: _ =>
      inl (AttributeError "'NoneType' object has no attribute 'success'")
  | Some content :: rest =>
      let accepted := is_valid_result content in
      let valid_results :=
        if accepted then valid_results ++ [content] else valid_results in
      if (accepted && (k <=? len valid_results))%bool
      then inr (valid_results, polls)
      else if check
      then if should_return_partial_results w polls
           then inr (valid_results, S polls)
           else evaluate w check k rest valid_results (S polls)
      else evaluate w check k rest valid_results polls
  end.

Definition deadline_checked (w : World) : bool :=
  (has_resource_monitor w && has_lambda_context w)%bool.

(** Scraping one provider's URLs and filtering what came back. Returns the
    new state and the number of scraped items. *)
Definition scrape_and_filter (w : World) (p : Provider) (k max_parallel : Z)
    (urls : list string) (st : Cascade) : Result (Cascade * Z) :=
  do all_scraped <- scrape_parallel_playwright (open_tab w p) urls max_parallel;
  do '(valid, polls') <-
       evaluate w (deadline_checked w) k all_scraped (valid_results st) (polls st);
  inr ({| valid_results := valid;
          seen_normalized := seen_normalized st;
          engines_used := engines_used st;
          polls := polls';
          scrape_log := scrape_log st ++ [(p, urls)] |},
       len all_scraped).

Definition set_polls (st : Cascade) (n : nat) : Cascade :=
  {| valid_results := valid_results st;
     seen_normalized := seen_normalized st;
     engines_used := engines_used st;
     polls := n;
     scrape_log := scrape_log st |}.

Definition set_seen (st : Cascade) (seen : gset string) : Cascade :=
  {| valid_results := valid_results st;
     seen_normalized := seen;
     engines_used := engines_used st;
     polls := polls st;
     scrape_log := scrape_log st |}.

Definition set_engines (st : Cascade) (engines : list string) : Cascade :=
  {| valid_results := valid_results st;
     seen_normalized := seen_normalized st;
     engines_used := engines;
     polls := polls st;
     scrape_log := scrape_log st |}.

(** A failed provider search counts as an empty answer (lines 215-219,
    318-324). *)
Definition urls_or_empty (answer : option (list string)) : list string :=
  match answer with
  | Some urls => urls
  | None => []
  end.

(** The Brave block, lines 213-290 and 300. Returns the state and
    [brave_failed]. *)
Definition brave_stage (w : World) (query : string) (k search_k max_parallel : Z)
  : Result (Cascade * bool) :=
  let brave_urls := urls_or_empty (search_urls w Brave query search_k) in
  let '(seen, unique_brave_urls) := dedupe brave_urls ∅ [] in
  let st0 := {| valid_results := []; seen_normalized := seen;
                engines_used := []; polls := 0%nat; scrape_log := [] |} in
  do st <-
    match unique_brave_urls with
    | [] => inr st0
    | _ :: _ =>
        if deadline_checked w then
          if should_return_partial_results w 0%nat
          then inr (set_polls st0 1%nat)
          else
            do '(st, _) <- scrape_and_filter w Brave k max_parallel
                             unique_brave_urls (set_polls st0 1%nat);
            inr st
        else
          do '(st, _) <- scrape_and_filter w Brave k max_parallel
                           unique_brave_urls st0;
          inr st
    end;
  let engines := if 0 <? len (valid_results st) then ["brave"] else [] in
  let brave_failed := len unique_brave_urls =? 0 in
  inr (set_engines st engines, brave_failed).

(** A fallback block (Startpage lines 299-365, Yahoo 368-434, Yandex
    437-503); the three differ in the provider and in [failed], which is
    [brave_failed], [both_failed] and [all_failed] in turn. *)
Definition fallback_stage (w : World) (p : Provider) (query : string)
    (k search_k max_parallel acceptable_shortage : Z) (failed : bool)
    (st : Cascade) : Result Cascade :=
  let needed := k - len (valid_results st) in
  if ((0 <? needed) && (failed || (acceptable_shortage <? needed)))%bool then
    let provider_search_k := if failed then search_k else with_buffer needed in
    let provider_urls := urls_or_empty (search_urls w p query provider_search_k) in
    let '(seen, unique_urls) := dedupe provider_urls (seen_normalized st) [] in
    let st := set_seen st seen in
    match unique_urls with
    | [] => inr st
    | _ :: _ =>
        if deadline_checked w then
          if should_return_partial_results w (polls st)
          then inr (set_polls st (S (polls st)))
          else
            do '(st, scraped) <- scrape_and_filter w p k max_parallel
                                   unique_urls (set_polls st (S (polls st)));
            inr (if 0 <? scraped
                 then set_engines st (engines_used st ++ [provider_name p])
                 else st)
        else
          do '(st, scraped) <- scrape_and_filter w p k max_parallel
                                 unique_urls st;
          inr (if 0 <? scraped
               then set_engines st (engines_used st ++ [provider_name p])
               else st)
    end
  else inr st.

(** The content branch up to the last fallback, lines 167-503. *)
Definition cascade (w : World) (query : string) (k : Z) : Result Cascade :=
  let max_parallel :=
    if (has_resource_monitor w && should_reduce_parallelism w)%bool
    then 5 else 11 in
  let search_k := with_buffer k in
  do '(st, brave_failed) <- brave_stage w query k search_k max_parallel;
  let acceptable_shortage := if k <=? 10 then 2 else 4 in
  do st <- fallback_stage w Startpage query k search_k max_parallel
             acceptable_shortage brave_failed st;
  let both_failed := (brave_failed && (len (valid_results st) =? 0))%bool in
  do st <- fallback_stage w Yahoo query k search_k max_parallel
             acceptable_shortage both_failed st;
  let all_failed := (brave_failed && (len (valid_results st) =? 0))%bool in
  fallback_stage w Yandex query k search_k max_parallel
    acceptable_shortage all_failed st.

(** [SearchAndScrapeResult], without the elapsed time. *)
Record SearchAndScrapeResult := {
  query : string;
  engine : string;
  results : list ScrapedContent
}.

(** Lines 505-511. *)
Definition actual_engine (engines_used : list string) : string :=
  match engines_used with
  | [] => "none"
  | [e] => e
  | _ => py_join "+" engines_used
  end.

(** The content branch, lines 167-515. *)
Definition content_search (w : World) (q : string) (k : Z)
  : Result SearchAndScrapeResult :=
  do st <- cascade w q k;
  inr {| query := q;
         engine := actual_engine (engines_used st);
         results := slice_to (valid_results st) k |}.

(** The images branch, lines 148-165. *)
Definition image_search (w : World) (q : string) (k : Z) : SearchAndScrapeResult :=
  let image_urls := search_images w q k in
  {| query := q;
     engine := "bing";
     results := map (fun img_url =>
                       {| url := img_url; title := ""; content := "";
                          word_count := 0; success := true; error := None;
                          images := [img_url] |}) image_urls |}.

(** [WebSearchToolPlaywright.search_and_scrape], lines 101-548: a
    [ValueError] is re-raised, any other exception becomes a
    [WebSearchError]. *)
Definition search_and_scrape (w : World) (q : string) (k : Z)
    (engine_arg : string) (include_images : bool) : Result SearchAndScrapeResult :=
  if negb (String.eqb engine_arg "brave") then
    inl (ValueError ("Unsupported search engine: " ++ engine_arg
                     ++ ". Only 'brave' is supported.")%string)
  else
    match browser_start_error w with
    | Some msg =>
        inl (WebSearchError ("Unexpected error in search_and_scrape: " ++ msg)%string)
    | None =>
        if include_images then inr (image_search w q k)
        else
          match content_search w q k with
          | inl (AttributeError msg) =>
              inl (WebSearchError ("Unexpected error in search_and_scrape: " ++ msg)%string)
          | other => other
          end
    end.

(** ** Request validation and the handler (lambda_handler.py) *)

(** [not self.query or len(self.query.strip()) == 0]; the query is [None]
    when the request body has no ["query"] key. *)
Definition query_is_empty (q : option string) : bool :=
  match q with
  | None => true
  | Some s => (String.eqb s "" || Nat.eqb (String.length (PyStr.strip s)) 0)%bool
  end.

(** [len(self.query) > 500] *)
Definition query_too_long (q : option string) : bool :=
  match q with
  | None => false
  | Some s => Nat.ltb 500 (String.length s)
  end.

Module ContentSearchRequest.

Record t := { query : option string; k : Z; engine : string }.

(** The list literal of line 95. *)
Definition engines : list string := ["brave"; "startpage"; "yahoo"; "yandex"].

(** [ContentSearchRequest.validate], lines 87-96. *)
Definition validate (self : t) : Result unit :=
  if query_is_empty (query self) then
    inl (ValueError "Query cannot be empty")
  else if query_too_long (query self) then
    inl (ValueError "Query must be 1-500 characters")
  else if ((k self <? 1) || (20 <? k self))%bool then
    inl (ValueError "k must be between 1 and 20")
  else if negb (existsb (String.eqb (engine self)) engines) then
    inl (ValueError
           "Unsupported engine. Must be one of: brave, startpage, yahoo, yandex")
  else inr tt.

End ContentSearchRequest.

Module ImageSearchRequest.

Record t := { query : option string; k : Z; include_images : bool }.

(** [ImageSearchRequest.validate], lines 106-113. *)
Definition validate (self : t) : Result unit :=
  if query_is_empty (query self) then
    inl (ValueError "Query cannot be empty")
  else if query_too_long (query self) then
    inl (ValueError "Query must be 1-500 characters")
  else if ((k self <? 1) || (20 <? k self))%bool then
    inl (ValueError "k must be between 1 and 20")
  else inr tt.

End ImageSearchRequest.

(** The parsed JSON body: each key may be absent. *)
Record RequestBody := {
  body_query : option string;
  body_k : option Z;
  body_engine : option string;
  body_include_images : option bool
}.

(** The API Gateway event as the handler looks at it: a CORS preflight, a
    body that [parse_request_body] refuses with a message, or a parsed body. *)
Inductive Event :=
| OptionsRequest
| BadBody (msg : string)
| Post (body : RequestBody).

Inductive ResponseBody :=
| OkMessage
| ErrorResponse (error_type message : string)
| ResultBody (result : SearchAndScrapeResult).

Record LambdaResponse := { status_code : Z; body : ResponseBody }.

(** One call of [tool.search_and_scrape] made by the handler. *)
Record SearchCall := {
  call_query : string;
  call_k : Z;
  call_engine : string;
  call_include_images : bool
}.

(** [str(e)] *)
Definition message_of (e : Raised) : string :=
  match e with
  | ValueError msg | AttributeError msg | WebSearchError msg => msg
  end.

(** [lambda_handler], lines 214-399, with the calls of
    [search_and_scrape] it made. *)
Definition lambda_handler (w : World) (event : Event)
  : LambdaResponse * list SearchCall :=
  match event with
  | OptionsRequest => ({| status_code := 200; body := OkMessage |}, [])
  | BadBody msg =>
      ({| status_code := 400; body := ErrorResponse "InvalidRequest" msg |}, [])
  | Post b =>
      let q := body_query b in
      let k := default 5 (body_k b) in
      let engine_arg := default "brave" (body_engine b) in
      let include_images := default false (body_include_images b) in
      let validated :=
        if include_images
        then ImageSearchRequest.validate
               {| ImageSearchRequest.query := q; ImageSearchRequest.k := k;
                  ImageSearchRequest.include_images := include_images |}
        else ContentSearchRequest.validate
               {| ContentSearchRequest.query := q; ContentSearchRequest.k := k;
                  ContentSearchRequest.engine := engine_arg |} in
      match validated with
      | inl e =>
          ({| status_code := 400;
              body := ErrorResponse "InvalidParameter" (message_of e) |}, [])
      | inr _ =>
          let q := default "" q in
          let call := {| call_query := q; call_k := k;
                         call_engine := engine_arg;
                         call_include_images := include_images |} in
          match search_and_scrape w q k engine_arg include_images with
          | inr result =>
              ({| status_code := 200; body := ResultBody result |}, [call])
          | inl e =>
              ({| status_code := 500;
                  body := ErrorResponse "InternalError"
                            ("Internal server error: " ++ message_of e)%string |},
               [call])
          end
      end
  end.

(** ** Registrable domains *)

(** The text after the first ["://"], if any. *)
Fixpoint after_scheme (u : string) : option string :=
  if PyStr.startswith "://" u then Some (PyStr.drop 3 u)
  else match u with
       | EmptyString => None
       | String _ u' => after_scheme u'
       end.

(** The longest prefix without a character of the authority's end. *)
Fixpoint host_part (s : string) : string :=
  match s with
  | EmptyString => EmptyString
  | String c s' =>
      if (Ascii.eqb c "/" || Ascii.eqb c "?" || Ascii.eqb c "#" || Ascii.eqb c ":")%bool
      then EmptyString else String c (host_part s')
  end.

(** Modelled from the spec: the registrable domain of a candidate URL, "the
    domain extracted from the host, with leading www. stripped". The Python
    code never computes it (only the page scripts of the providers do, with
    the browser's URL parser); the host is taken here as the lower-cased
    text between ["://"] and the first of [/ ? # :]. *)
Definition registrable_domain (u : string) : string :=
  match after_scheme u with
  | None => ""
  | Some rest =>
      let host := PyStr.lower (host_part rest) in
      if PyStr.startswith "www." host
      then PyStr.drop 4 host
      else host
  end.

(** Modelled from the spec: a domain "matches" the blocklist when one of the
    listed suffixes ends it. *)
Definition domain_on_blocklist (domain : string) : bool :=
  existsb (fun blocked => PyStr.endswith blocked domain) blocked_domains.

(** ** The normal form of the specification *)

(** Modelled from the spec: "strip trailing slash, drop fragment, lower-case
    for comparison purposes". *)
Definition spec_normalize (u : string) : string :=
  PyStr.lower (PyStr.split_head "#" (PyStr.rstrip_by (Ascii.eqb "/") u)).

(** ** Vocabulary of the properties, and two sample worlds *)

(** [x] occurs in [s]. *)
Definition occurs_in (x s : string) : Prop :=
  exists before after, s = (before ++ x ++ after)%string.

(** A failed fetch is blank: nothing was read and an error message is set. *)
Definition blank_failure (c : ScrapedContent) : Prop :=
  word_count c = 0 /\ content c = "" /\ title c = ""
  /\ exists msg, error c = Some msg.

(** The item the scraper owes to the [j]-th URL. *)
Definition expected (tab : nat -> string -> TabOutcome) (urls : list string)
    (j : nat) : option ScrapedContent :=
  (fun u => snd (scrape_in_new_tab tab u j)) <$> urls !! j.

(** The loop invariant: the slots below [s] hold their items, the slots
    from [s] on still hold [None]. *)
Definition filled_below (tab : nat -> string -> TabOutcome) (urls : list string)
    (s : nat) (results : list (option ScrapedContent)) : Prop :=
  length results = length urls
  /\ forall j, (j < length urls)%nat ->
       results !! j = Some (if decide (j < s)%nat then expected tab urls j else None).

(** The request is malformed, in the words of the validation rules. *)
Definition malformed (r : ContentSearchRequest.t) : Prop :=
  (forall s, ContentSearchRequest.query r = Some s -> PyStr.strip s = "")
  \/ (exists s, ContentSearchRequest.query r = Some s
                /\ (500 < String.length s)%nat)
  \/ ContentSearchRequest.k r < 1
  \/ 20 < ContentSearchRequest.k r
  \/ ~ In (ContentSearchRequest.engine r) ContentSearchRequest.engines.

(** What the loop over a scraped batch returns: the accepted items
    appended in order, never beyond [k]. *)
Definition evaluate_post (k : Z) (items valid : list ScrapedContent)
    (r : Result (list ScrapedContent * nat)) : Prop :=
  exists (extra : list ScrapedContent) (polls1 : nat),
    r = inr (valid ++ extra, polls1)
    /\ sublist extra items
    /\ Forall (fun c => is_valid_result c = true) extra
    /\ (len valid < k -> len (valid ++ extra) <= k).

(** The URLs handed to the scraper so far, in the order of the calls. *)
Definition scraped_urls (st : Cascade) : list string :=
  concat (snd <$> scrape_log st).

(** What holds of the state between two provider blocks. *)
Record cascade_inv (k : Z) (st : Cascade) : Prop := {
  inv_bound : 1 <= k -> len (valid_results st) <= k;
  inv_valid : Forall (fun c => is_valid_result c = true) (valid_results st);
  inv_from_log : sublist (url <$> valid_results st) (scraped_urls st);
  inv_nodup : NoDup (normalize_url <$> scraped_urls st);
  inv_seen : forall u, u ∈ scraped_urls st ->
                       normalize_url u ∈ seen_normalized st
}.

(** Every provider but Brave is among the engines used exactly when a
    non-empty batch of its URLs was scraped. *)
Definition listed_iff_scraped (st : Cascade) : Prop :=
  forall p, p <> Brave ->
    (provider_name p ∈ engines_used st
     <-> exists urls, urls <> [] /\ (p, urls) ∈ scrape_log st).

(** A world without monitor in which one provider answers with one URL,
    nobody else answers with any, and every page load times out. *)
Definition timeout_world (answering : Provider) : World :=
  {| has_resource_monitor := false;
     has_lambda_context := false;
     should_reduce_parallelism := false;
     should_return_partial_results := fun _ => false;
     browser_start_error := None;
     search_urls := fun p _ _ =>
       if decide (provider_name p = provider_name answering)
       then Some ["https://example.org/article"] else Some [];
     search_images := fun _ _ => [];
     open_tab := fun _ _ _ => TabOpened (GotoRaises "Timeout 10000ms exceeded") |}.

(** [n] words of filler text. *)
Fixpoint filler (n : nat) : string :=
  match n with
  | O => ""
  | S n' => ("lorem " ++ filler n')%string
  end.

(** A world in which Brave answers with five URLs, one of them a second
    time with a fragment and one on the blocklist, and every page loads
    with sixty words of text. *)
Definition sample_world : World :=
  {| has_resource_monitor := true;
     has_lambda_context := true;
     should_reduce_parallelism := true;
     should_return_partial_results := fun _ => false;
     browser_start_error := None;
     search_urls := fun p _ _ =>
       match p with
       | Brave => Some ["https://doc.rust-lang.org/book/ch04-00.html";
                        "https://example.org/ownership";
                        "https://example.org/ownership#moves";
                        "https://www.reddit.com/r/rust";
                        "https://blog.example.net/borrowing/"]
       | _ => None
       end;
     search_images := fun _ _ => [];
     open_tab := fun _ _ _ => TabOpened (Loaded "Ownership" (filler 60)) |}.

(** The gate in the words of its rules. *)
Definition passed_quality_gate (c : ScrapedContent) : Prop :=
  success c = true
  /\ 50 <= word_count c
  /\ ~ occurs_in "403" (title c)
  /\ ~ occurs_in "Forbidden" (title c)
  /\ ~ occurs_in "404" (title c)
  /\ ~ occurs_in "Not Found" (title c)
  /\ (10 <= String.length (content c))%nat
  /\ 7 * Z.of_nat (String.length (content c))
     <= 10 * Z.of_nat (alphanumeric_count (content c)).

(** ** Vocabulary of the further properties *)

(** The Brave block leaves [st] and [brave_failed] behind: nothing was
    scraped (no admissible URL, or the deadline was near), or Brave's
    admissible URLs were scraped and some of their pages accepted. *)
Definition brave_shape (w : World) (q : string) (search_k : Z)
    (st : Cascade) (brave_failed : bool) : Prop :=
  let filtered := dedupe (urls_or_empty (search_urls w Brave q search_k)) ∅ [] in
  seen_normalized st = fst filtered
  /\ brave_failed = (len (snd filtered) =? 0)
  /\ engines_used st = (if 0 <? len (valid_results st) then ["brave"] else [])
  /\ ((valid_results st = [] /\ scrape_log st = []
       /\ (snd filtered = []
           \/ (deadline_checked w = true
               /\ should_return_partial_results w 0%nat = true)))
      \/ (snd filtered <> []
          /\ (deadline_checked w = false
              \/ should_return_partial_results w 0%nat = false)
          /\ scrape_log st = [(Brave, snd filtered)]
          /\ sublist (url <$> valid_results st) (snd filtered))).

(** A fallback block takes [st] to [st']: it did not run, or it searched
    and scraped nothing (no new admissible URL, or the deadline was near),
    or it scraped its new admissible URLs. *)
Definition fallback_shape (w : World) (p : Provider) (q : string)
    (k search_k shortage : Z) (failed : bool) (st st' : Cascade) : Prop :=
  let needed := k - len (valid_results st) in
  let runs := ((0 <? needed) && (failed || (shortage <? needed)))%bool in
  let wanted := if failed then search_k else with_buffer needed in
  let filtered :=
    dedupe (urls_or_empty (search_urls w p q wanted)) (seen_normalized st) [] in
  (runs = false /\ st' = st)
  \/ (runs = true
      /\ seen_normalized st' = fst filtered
      /\ ((valid_results st' = valid_results st
           /\ engines_used st' = engines_used st
           /\ scrape_log st' = scrape_log st
           /\ (snd filtered = []
               \/ (deadline_checked w = true
                   /\ should_return_partial_results w (polls st) = true)))
          \/ (snd filtered <> []
              /\ (deadline_checked w = false
                  \/ should_return_partial_results w (polls st) = false)
              /\ engines_used st' = engines_used st ++ [provider_name p]
              /\ scrape_log st' = scrape_log st ++ [(p, snd filtered)]
              /\ exists extra,
                   valid_results st' = valid_results st ++ extra
                   /\ sublist (url <$> extra) (snd filtered)))).

(** The four blocks in a row. *)
Definition cascade_shape (w : World) (q : string) (k : Z) (st : Cascade) : Prop :=
  exists st0 brave_failed st1 st2,
    let shortage := if k <=? 10 then 2 else 4 in
    brave_shape w q (with_buffer k) st0 brave_failed
    /\ fallback_shape w Startpage q k (with_buffer k) shortage brave_failed st0 st1
    /\ fallback_shape w Yahoo q k (with_buffer k) shortage
         (brave_failed && (len (valid_results st1) =? 0))%bool st1 st2
    /\ fallback_shape w Yandex q k (with_buffer k) shortage
         (brave_failed && (len (valid_results st2) =? 0))%bool st2 st.

(** The providers in the order the cascade tries them. *)
Definition priority_order : list Provider := [Brave; Startpage; Yahoo; Yandex].

(** [sample_world] without a resource monitor, so without deadline probes. *)
Definition unhurried_world : World :=
  {| has_resource_monitor := false;
     has_lambda_context := true;
     should_reduce_parallelism := false;
     should_return_partial_results := fun _ => true;
     browser_start_error := None;
     search_urls := search_urls sample_world;
     search_images := fun _ _ => [];
     open_tab := open_tab sample_world |}.

(** The URLs of the batch that starts at [batch_start] (lines 136-137). *)
Definition batch_urls_at (urls : list string) (max_parallel batch_start : nat)
  : list string :=
  slice urls batch_start (Nat.min (batch_start + max_parallel) (length urls)).

(** The batches of one call of [scrape_parallel_playwright], in the order
    they are run. *)
Definition waves (urls : list string) (max_parallel : nat) : list (list string) :=
  batch_urls_at urls max_parallel
    <$> range_from (length urls) 0 (length urls) max_parallel.

(** The text fields of an item agree: the word count is the number of words
    of the content, the content is collapsed already, and there is room in
    it for the words and the single spaces between them. *)
Definition text_consistent (c : ScrapedContent) : Prop :=
  word_count c = Z.of_nat (PyStr.word_count (content c))
  /\ PyStr.join_split (content c) = content c
  /\ 2 * word_count c - 1 <= Z.of_nat (String.length (content c)).

(** An image request is malformed, in the words of its validation rules. *)
Definition malformed_image (r : ImageSearchRequest.t) : Prop :=
  (forall s, ImageSearchRequest.query r = Some s -> PyStr.strip s = "")
  \/ (exists s, ImageSearchRequest.query r = Some s
                /\ (500 < String.length s)%nat)
  \/ ImageSearchRequest.k r < 1
  \/ 20 < ImageSearchRequest.k r.


(** ** The provider searches (search_engine.py) *)

(** What a provider's result page does: navigating or running the page
    script raises, or the script returns its list of URLs. *)
Inductive SearchPage :=
| SearchRaises (msg : string)
| Extracted (urls : list string).

Inductive SearchFailure := SearchError (msg : string).

(** [search_brave_playwright], lines 18-128. Saving the debug files of the
    empty case is taken to succeed; if it raises, the function raises a
    [SearchError] all the same, with the other message. *)
Definition search_brave_playwright (page : SearchPage) (q : string) (k : Z)
  : SearchFailure + list string :=
  match page with
  | SearchRaises msg => inl (SearchError ("Brave search failed: " ++ msg)%string)
  | Extracted urls =>
      match urls with
      | [] =>
          inl (SearchError
                 ("No search results found for query: " ++ q
                  ++ ". Debug files saved: debug_search.png, debug_search.html")%string)
      | _ :: _ => inr (slice_to urls k)
      end
  end.

(** The body shared by [search_startpage] (lines 384-458), [search_yahoo]
    (564-642) and [search_yandex] (645-722), and by [search_bing] and
    [search_duckduckgo]. *)
Definition search_fallback (page : SearchPage) (k : Z) : list string :=
  match page with
  | SearchRaises _ => []
  | Extracted urls =>
      match urls with
      | [] => []
      | _ :: _ => slice_to urls k
      end
  end.

(** A visit to a fallback provider as the cascade makes it (lines 318-324):
    [context.new_page()] raises, or the page is searched and then closed,
    which may raise too. *)
Inductive ProviderVisit :=
| CannotOpen (msg : string)
| Visited (page : SearchPage) (close_error : option string).

(** What the cascade takes from a provider: Brave on the session's page
    (lines 215-219), the others on a page of their own; [None] is an
    exception caught by the cascade. *)
Definition provider_answer (brave_page : string -> Z -> SearchPage)
    (visit : Provider -> string -> Z -> ProviderVisit)
    (p : Provider) (q : string) (k : Z) : option (list string) :=
  match p with
  | Brave =>
      match search_brave_playwright (brave_page q k) q k with
      | inr urls => Some urls
      | inl _ => None
      end
  | _ =>
      match visit p q k with
      | CannotOpen _ => None
      | Visited page None => Some (search_fallback page k)
      | Visited page (Some _) => None
      end
  end.

(** What the page script of a provider returned, if the page got that far. *)
Definition extracted_urls (brave_page : string -> Z -> SearchPage)
    (visit : Provider -> string -> Z -> ProviderVisit)
    (p : Provider) (q : string) (k : Z) : list string :=
  match (match p with
         | Brave => Some (brave_page q k)
         | _ => match visit p q k with
                | CannotOpen _ => None
                | Visited page _ => Some page
                end
         end) with
  | Some (Extracted urls) => urls
  | _ => []
  end.

(** A world whose providers answer with the first [n] of seven pages when
    asked for [n], all pages loading with sixty words. *)
Definition obliging_world : World :=
  {| has_resource_monitor := false;
     has_lambda_context := false;
     should_reduce_parallelism := false;
     should_return_partial_results := fun _ => false;
     browser_start_error := None;
     search_urls :=
       provider_answer
         (fun _ _ => Extracted ["https://a.example/1"; "https://a.example/2";
                                "https://a.example/3"; "https://a.example/4";
                                "https://a.example/5"; "https://a.example/6";
                                "https://a.example/7"])
         (fun _ _ _ => CannotOpen "context closed");
     search_images := fun _ _ => [];
     open_tab := fun _ _ _ => TabOpened (Loaded "Page" (filler 60)) |}.

(** ** Configuration ([config.py]) *)

(** [str(n)] for an [int], as the f-strings of the messages print it. *)
Definition str_of_int (n : Z) : string :=
  NilZero.string_of_int (Z.to_int n).

(** [Config]: the class attributes are the state, the class methods read
    and replace it. The process environment is a finite map. Python's
    built-in [int] on a [str] is a parameter [int] of [load]: [None] when it
    raises [ValueError]. *)
Module Config.

Record t := {
  S3_BUCKET_NAME : option string;
  S3_REGION : string;
  MAX_PARALLEL_TABS : Z;
  SCRAPE_TIMEOUT_MS : Z;
  MAX_RESULTS_LIMIT : Z;
  MEMORY_MB : Z;
  TIMEOUT_SECONDS : Z;
  LOG_LEVEL : string
}.

(** The attribute values of the class body. *)
Definition declared : t :=
  {| S3_BUCKET_NAME := None;
     S3_REGION := "us-east-1";
     MAX_PARALLEL_TABS := 20;
     SCRAPE_TIMEOUT_MS := 8000;
     MAX_RESULTS_LIMIT := 20;
     MEMORY_MB := 3072;
     TIMEOUT_SECONDS := 60;
     LOG_LEVEL := "INFO" |}.

Definition _REQUIRED_VARS : list string := ["S3_BUCKET_NAME"].

(** What leaves the class methods: [ValueError] carries the text [int]
    refused, [ConfigurationError] its message. *)
Inductive Raised :=
| ValueError (literal : string)
| ConfigurationError (msg : string).

(** [os.environ.get(name, dflt)] *)
Definition environ_get (environ : gmap string string) (name dflt : string)
  : string :=
  default dflt (environ !! name).

Definition set_S3_BUCKET_NAME (v : option string) (cls : t) : t :=
  {| S3_BUCKET_NAME := v; S3_REGION := S3_REGION cls;
     MAX_PARALLEL_TABS := MAX_PARALLEL_TABS cls;
     SCRAPE_TIMEOUT_MS := SCRAPE_TIMEOUT_MS cls;
     MAX_RESULTS_LIMIT := MAX_RESULTS_LIMIT cls; MEMORY_MB := MEMORY_MB cls;
     TIMEOUT_SECONDS := TIMEOUT_SECONDS cls; LOG_LEVEL := LOG_LEVEL cls |}.

Definition set_S3_REGION (v : string) (cls : t) : t :=
  {| S3_BUCKET_NAME := S3_BUCKET_NAME cls; S3_REGION := v;
     MAX_PARALLEL_TABS := MAX_PARALLEL_TABS cls;
     SCRAPE_TIMEOUT_MS := SCRAPE_TIMEOUT_MS cls;
     MAX_RESULTS_LIMIT := MAX_RESULTS_LIMIT cls; MEMORY_MB := MEMORY_MB cls;
     TIMEOUT_SECONDS := TIMEOUT_SECONDS cls; LOG_LEVEL := LOG_LEVEL cls |}.

Definition set_MAX_PARALLEL_TABS (v : Z) (cls : t) : t :=
  {| S3_BUCKET_NAME := S3_BUCKET_NAME cls; S3_REGION := S3_REGION cls;
     MAX_PARALLEL_TABS := v;
     SCRAPE_TIMEOUT_MS := SCRAPE_TIMEOUT_MS cls;
     MAX_RESULTS_LIMIT := MAX_RESULTS_LIMIT cls; MEMORY_MB := MEMORY_MB cls;
     TIMEOUT_SECONDS := TIMEOUT_SECONDS cls; LOG_LEVEL := LOG_LEVEL cls |}.

Definition set_SCRAPE_TIMEOUT_MS (v : Z) (cls : t) : t :=
  {| S3_BUCKET_NAME := S3_BUCKET_NAME cls; S3_REGION := S3_REGION cls;
     MAX_PARALLEL_TABS := MAX_PARALLEL_TABS cls;
     SCRAPE_TIMEOUT_MS := v;
     MAX_RESULTS_LIMIT := MAX_RESULTS_LIMIT cls; MEMORY_MB := MEMORY_MB cls;
     TIMEOUT_SECONDS := TIMEOUT_SECONDS cls; LOG_LEVEL := LOG_LEVEL cls |}.

Definition set_MAX_RESULTS_LIMIT (v : Z) (cls : t) : t :=
  {| S3_BUCKET_NAME := S3_BUCKET_NAME cls; S3_REGION := S3_REGION cls;
     MAX_PARALLEL_TABS := MAX_PARALLEL_TABS cls;
     SCRAPE_TIMEOUT_MS := SCRAPE_TIMEOUT_MS cls;
     MAX_RESULTS_LIMIT := v; MEMORY_MB := MEMORY_MB cls;
     TIMEOUT_SECONDS := TIMEOUT_SECONDS cls; LOG_LEVEL := LOG_LEVEL cls |}.

Definition set_MEMORY_MB (v : Z) (cls : t) : t :=
  {| S3_BUCKET_NAME := S3_BUCKET_NAME cls; S3_REGION := S3_REGION cls;
     MAX_PARALLEL_TABS := MAX_PARALLEL_TABS cls;
     SCRAPE_TIMEOUT_MS := SCRAPE_TIMEOUT_MS cls;
     MAX_RESULTS_LIMIT := MAX_RESULTS_LIMIT cls; MEMORY_MB := v;
     TIMEOUT_SECONDS := TIMEOUT_SECONDS cls; LOG_LEVEL := LOG_LEVEL cls |}.

Definition set_TIMEOUT_SECONDS (v : Z) (cls : t) : t :=
  {| S3_BUCKET_NAME := S3_BUCKET_NAME cls; S3_REGION := S3_REGION cls;
     MAX_PARALLEL_TABS := MAX_PARALLEL_TABS cls;
     SCRAPE_TIMEOUT_MS := SCRAPE_TIMEOUT_MS cls;
     MAX_RESULTS_LIMIT := MAX_RESULTS_LIMIT cls; MEMORY_MB := MEMORY_MB cls;
     TIMEOUT_SECONDS := v; LOG_LEVEL := LOG_LEVEL cls |}.

Definition set_LOG_LEVEL (v : string) (cls : t) : t :=
  {| S3_BUCKET_NAME := S3_BUCKET_NAME cls; S3_REGION := S3_REGION cls;
     MAX_PARALLEL_TABS := MAX_PARALLEL_TABS cls;
     SCRAPE_TIMEOUT_MS := SCRAPE_TIMEOUT_MS cls;
     MAX_RESULTS_LIMIT := MAX_RESULTS_LIMIT cls; MEMORY_MB := MEMORY_MB cls;
     TIMEOUT_SECONDS := TIMEOUT_SECONDS cls; LOG_LEVEL := v |}.

(** One statement [cls.NAME = int(os.environ.get(name, dflt))] followed by
    the rest of the method: an [int] that raises leaves the class as the
    statements before it made it. *)
Definition assign_int (int : string -> option Z)
    (environ : gmap string string) (name dflt : string)
    (set : Z -> t -> t) (rest : t -> (Raised + unit) * t) (cls : t)
  : (Raised + unit) * t :=
  match int (environ_get environ name dflt) with
  | None => (inl (ValueError (environ_get environ name dflt)), cls)
  | Some v => rest (set v cls)
  end.

(** [Config.load]: the outcome and the class attributes it leaves. *)
Definition load (int : string -> option Z) (environ : gmap string string)
    (cls : t) : (Raised + unit) * t :=
  let cls := set_S3_BUCKET_NAME (environ !! "S3_BUCKET_NAME") cls in
  let cls := set_S3_REGION (environ_get environ "S3_REGION" "us-east-1") cls in
  assign_int int environ "MAX_PARALLEL_TABS" "20" set_MAX_PARALLEL_TABS
    (assign_int int environ "SCRAPE_TIMEOUT_MS" "8000" set_SCRAPE_TIMEOUT_MS
      (assign_int int environ "MAX_RESULTS_LIMIT" "20" set_MAX_RESULTS_LIMIT
        (assign_int int environ "MEMORY_MB" "3072" set_MEMORY_MB
          (assign_int int environ "TIMEOUT_SECONDS" "60" set_TIMEOUT_SECONDS
            (fun cls =>
               (inr tt,
                set_LOG_LEVEL (environ_get environ "LOG_LEVEL" "INFO") cls))))))
    cls.

(** [not value] for the result of [os.environ.get(var)]. *)
Definition unset (value : option string) : bool :=
  match value with
  | Some (String _ _) => false
  | _ => true
  end.

(** [Config.validate] *)
Definition validate (environ : gmap string string) (cls : t) : Raised + unit :=
  let missing_vars :=
    List.filter (fun var => unset (environ !! var)) _REQUIRED_VARS in
  match missing_vars with
  | _ :: _ =>
      inl (ConfigurationError
             ("Missing required environment variable(s): "
              ++ py_join ", " missing_vars ++ ". "
              ++ "Please set these variables before starting the Lambda function.")%string)
  | [] =>
      if MAX_PARALLEL_TABS cls <? 1 then
        inl (ConfigurationError
               ("MAX_PARALLEL_TABS must be at least 1, got "
                ++ str_of_int (MAX_PARALLEL_TABS cls))%string)
      else if SCRAPE_TIMEOUT_MS cls <? 1000 then
        inl (ConfigurationError
               ("SCRAPE_TIMEOUT_MS must be at least 1000ms, got "
                ++ str_of_int (SCRAPE_TIMEOUT_MS cls))%string)
      else if MAX_RESULTS_LIMIT cls <? 1 then
        inl (ConfigurationError
               ("MAX_RESULTS_LIMIT must be at least 1, got "
                ++ str_of_int (MAX_RESULTS_LIMIT cls))%string)
      else if MEMORY_MB cls <? 128 then
        inl (ConfigurationError
               ("MEMORY_MB must be at least 128, got "
                ++ str_of_int (MEMORY_MB cls))%string)
      else inr tt
  end.

(** [Config.initialize]: [load], then [validate] unless [load] raised. *)
Definition initialize (int : string -> option Z)
    (environ : gmap string string) (cls : t) : (Raised + unit) * t :=
  match load int environ cls with
  | (inr tt, cls') => (validate environ cls', cls')
  | (inl e, cls') => (inl e, cls')
  end.

(** [Config.get_adaptive_max_tabs] *)
Definition get_adaptive_max_tabs (cls : t) (current_memory_mb : Z) : Z :=
  let available := MEMORY_MB cls - current_memory_mb in
  if available <? 500 then 5
  else if available <? 1000 then 10
  else Z.min (MAX_PARALLEL_TABS cls) 20.

End Config.

(** A reading of plain decimal numerals, [int]'s value on a string of
    digits with an optional sign; used where a run needs an [int]. *)
Fixpoint decimal_digits (acc : Z) (s : string) : option Z :=
  match s with
  | EmptyString => Some acc
  | String c s' =>
      if PyStr.in_range 48 57 c
      then decimal_digits (10 * acc + (Z.of_N (PyStr.ord c) - 48)) s'
      else None
  end.

Definition decimal (s : string) : option Z :=
  match s with
  | EmptyString => None
  | String "-" (String c s') => Z.opp <$> decimal_digits 0 (String c s')
  | String "+" (String c s') => decimal_digits 0 (String c s')
  | _ => decimal_digits 0 s
  end.

(** An environment that names a bucket and a memory size. *)
Definition sample_environ : gmap string string :=
  <[ "S3_BUCKET_NAME" := "scraped-images" ]>
    (<[ "MEMORY_MB" := "1024" ]> ∅).

(** The attributes a [load] that does not raise leaves, whatever they were
    before. *)
Definition loaded_config (environ : gmap string string)
    (tabs timeout limit memory seconds : Z) : Config.t :=
  {| Config.S3_BUCKET_NAME := environ !! "S3_BUCKET_NAME";
     Config.S3_REGION := Config.environ_get environ "S3_REGION" "us-east-1";
     Config.MAX_PARALLEL_TABS := tabs;
     Config.SCRAPE_TIMEOUT_MS := timeout;
     Config.MAX_RESULTS_LIMIT := limit;
     Config.MEMORY_MB := memory;
     Config.TIMEOUT_SECONDS := seconds;
     Config.LOG_LEVEL := Config.environ_get environ "LOG_LEVEL" "INFO" |}.

(** The numeric variables with the default texts of [load], in the order
    [load] reads them. *)
Definition numeric_vars : list (string * string) :=
  [ ("MAX_PARALLEL_TABS", "20"); ("SCRAPE_TIMEOUT_MS", "8000");
    ("MAX_RESULTS_LIMIT", "20"); ("MEMORY_MB", "3072");
    ("TIMEOUT_SECONDS", "60") ].

(** The texts [load] hands to [int]. *)
Definition numeric_texts (environ : gmap string string) : list string :=
  (fun v => Config.environ_get environ (fst v) (snd v)) <$> numeric_vars.

(** The range checks of [validate]. *)
Definition in_ranges (cls : Config.t) : Prop :=
  1 <= Config.MAX_PARALLEL_TABS cls
  /\ 1000 <= Config.SCRAPE_TIMEOUT_MS cls
  /\ 1 <= Config.MAX_RESULTS_LIMIT cls
  /\ 128 <= Config.MEMORY_MB cls.

(** ** Image upload ([s3_uploader.py]) *)

(** [s.split(sep)] for a separator of one character. *)
Fixpoint str_split (sep : ascii) (s : string) : list string :=
  match s with
  | EmptyString => [EmptyString]
  | String c s' =>
      if Ascii.eqb c sep then EmptyString :: str_split sep s'
      else match str_split sep s' with
           | [] => [String c EmptyString]
           | piece :: pieces => String c piece :: pieces
           end
  end.

(** [''.join(c for c in s if keep(c))] *)
Fixpoint str_filter (keep : ascii -> bool) (s : string) : string :=
  match s with
  | EmptyString => EmptyString
  | String c s' =>
      if keep c then String c (str_filter keep s') else str_filter keep s'
  end.

(** [d.get(key, dflt)] for a dict literal, as an association list. *)
Fixpoint dict_get (d : list (string * string)) (key dflt : string) : string :=
  match d with
  | [] => dflt
  | (k, v) :: d' => if String.eqb k key then v else dict_get d' key dflt
  end.

(** The uploader. What it obtains from outside is a field of [Net]: the
    path [urlparse] finds in a URL ([inl text] when [urlparse] raises
    [ValueError] with that text), the MD5 hex digest, the formatted time of the call, the
    outcome of the GET request of each attempt, whether [boto3.client]
    raises, and the outcome of each [put_object] ([Some text] when it
    raises, with the text of the exception). The requests made and the
    sleeps are recorded in a trace. *)
Module S3.

Inductive Raised :=
| ValueError (msg : string)
| S3UploadError (msg : string)
| ClientUnavailable (msg : string).

Inductive Download :=
| Response (status : Z) (data : list Byte.byte)
| DownloadRaises (text : string).

Inductive Effect :=
| Get (image_url : string) (timeout_seconds : Z)
| Sleep (seconds : Z)
| Put (bucket key : string) (body : list Byte.byte) (content_type : string).

Record Net := {
  urlparse_path : string -> string + string;
  md5_hexdigest : string -> string;
  now : string;
  session_get : string -> Z -> Z -> Download;
  boto3_client : option string;
  put_object : Z -> string -> string -> list Byte.byte -> string
               -> option string
}.

Definition content_types : list (string * string) :=
  [ ("jpg", "image/jpeg"); ("jpeg", "image/jpeg"); ("png", "image/png");
    ("gif", "image/gif"); ("webp", "image/webp"); ("svg", "image/svg+xml");
    ("bmp", "image/bmp"); ("ico", "image/x-icon") ].

(** [_guess_content_type] *)
Definition _guess_content_type (s3_key : string) : string :=
  let extension := PyStr.lower (List.last (str_split "." s3_key) "") in
  dict_get content_types extension "application/octet-stream".

(** The extension [_generate_s3_key] draws from a path. *)
Definition extension_of (path : string) : string :=
  let extension :=
    if PyStr.contains "." path then List.last (str_split "." path) ""
    else "jpg" in
  let extension := substring 0 10 (str_filter PyStr.isalnum extension) in
  match extension with
  | EmptyString => "jpg"
  | _ => extension
  end.

(** [_generate_s3_key] *)
Definition _generate_s3_key (w : Net) (image_url key_prefix : string)
  : Raised + string :=
  match urlparse_path w image_url with
  | inl text => inl (ValueError text)
  | inr path =>
      let extension := extension_of path in
      let url_hash := substring 0 12 (md5_hexdigest w image_url) in
      let timestamp := now w in
      inr (key_prefix ++ "/" ++ timestamp ++ "_" ++ url_hash ++ "."
           ++ extension)%string
  end.

(** The sleep that ends a failed attempt, unless it was the last. *)
Definition backoff (attempt max_retries : Z) : list Effect :=
  if attempt <? max_retries - 1 then [Sleep (2 ^ attempt)] else [].

(** The loop of [_download_image_with_retry] over the attempts left of
    [range(max_retries)]; [last_error] is [str(last_error)]. *)
Fixpoint download_attempts (w : Net) (image_url : string)
    (max_retries timeout_seconds : Z) (attempts : list Z)
    (last_error : string) (trace : list Effect)
  : (Raised + list Byte.byte) * list Effect :=
  match attempts with
  | [] =>
      (inl (S3UploadError
              ("Failed to download image after " ++ str_of_int max_retries
               ++ " attempts: " ++ last_error)%string),
       trace)
  | attempt :: rest =>
      let trace := trace ++ [Get image_url timeout_seconds] in
      let failed text :=
        download_attempts w image_url max_retries timeout_seconds rest text
          (trace ++ backoff attempt max_retries) in
      match session_get w image_url timeout_seconds attempt with
      | Response status data =>
          if status =? 200 then (inr data, trace)
          else failed ("Failed to download image: HTTP "
                       ++ str_of_int status)%string
      | DownloadRaises text => failed text
      end
  end.

Definition _download_image_with_retry (w : Net) (image_url : string)
    (max_retries timeout_seconds : Z) (trace : list Effect)
  : (Raised + list Byte.byte) * list Effect :=
  download_attempts w image_url max_retries timeout_seconds
    (seqZ 0 max_retries) "None" trace.

(** The loop of [_upload_to_s3_with_retry]. *)
Fixpoint upload_attempts (w : Net) (image_data : list Byte.byte)
    (bucket s3_key : string) (max_retries : Z) (attempts : list Z)
    (last_error : string) (trace : list Effect)
  : (Raised + unit) * list Effect :=
  match attempts with
  | [] =>
      (inl (S3UploadError
              ("Failed to upload to S3 after " ++ str_of_int max_retries
               ++ " attempts: " ++ last_error)%string),
       trace)
  | attempt :: rest =>
      let content_type := _guess_content_type s3_key in
      let trace := trace ++ [Put bucket s3_key image_data content_type] in
      match put_object w attempt bucket s3_key image_data content_type with
      | None => (inr tt, trace)
      | Some text =>
          upload_attempts w image_data bucket s3_key max_retries rest text
            (trace ++ backoff attempt max_retries)
      end
  end.

Definition _upload_to_s3_with_retry (w : Net) (image_data : list Byte.byte)
    (bucket s3_key : string) (max_retries : Z) (trace : list Effect)
  : (Raised + unit) * list Effect :=
  match boto3_client w with
  | Some text => (inl (ClientUnavailable text), trace)
  | None =>
      upload_attempts w image_data bucket s3_key max_retries
        (seqZ 0 max_retries) "None" trace
  end.

(** [upload_image_to_s3] *)
Definition upload_image_to_s3 (w : Net) (image_url bucket key_prefix : string)
    (max_retries timeout_seconds : Z) : (Raised + string) * list Effect :=
  match image_url, bucket with
  | EmptyString, _ => (inl (ValueError "image_url cannot be empty"), [])
  | _, EmptyString => (inl (ValueError "bucket cannot be empty"), [])
  | _, _ =>
      match _generate_s3_key w image_url key_prefix with
      | inl e => (inl e, [])
      | inr s3_key =>
          match _download_image_with_retry w image_url max_retries
                  timeout_seconds [] with
          | (inl e, trace) => (inl e, trace)
          | (inr image_data, trace) =>
              match _upload_to_s3_with_retry w image_data bucket s3_key
                      max_retries trace with
              | (inl e, trace) => (inl e, trace)
              | (inr tt, trace) =>
                  (inr ("s3://" ++ bucket ++ "/" ++ s3_key)%string, trace)
              end
          end
      end
  end.

End S3.

(** The requests and sleeps of [n] failed attempts that are each followed
    by another one. *)
Definition failed_rounds (request : S3.Effect) (n : Z) : list S3.Effect :=
  seqZ 0 n ≫= (fun i => [request; S3.Sleep (2 ^ i)]).

(** The trace of a retry loop that fails [n] times and then makes one more
    request. *)
Definition retry_trace (request : S3.Effect) (n : Z) : list S3.Effect :=
  failed_rounds request n ++ [request].

(** The seconds slept in a trace. *)
Definition slept (trace : list S3.Effect) : Z :=
  foldr (fun e acc => match e with S3.Sleep s => s + acc | _ => acc end)
    0 trace.

(** [session.get] did not yield the image at this attempt. *)
Definition download_failed (d : S3.Download) : Prop :=
  match d with
  | S3.Response status _ => status <> 200
  | S3.DownloadRaises _ => True
  end.

(** A network on which the second GET and the first PUT succeed. *)
Definition sample_net : S3.Net :=
  {| S3.urlparse_path := fun _ => inr "/photos/Cat.PNG";
     S3.md5_hexdigest := fun _ => "0123456789abcdef0123456789abcdef";
     S3.now := "20240101_120000";
     S3.session_get := fun _ _ attempt =>
       if attempt =? 1 then S3.Response 200 [Byte.x89; Byte.x50]
       else S3.Response 503 [];
     S3.boto3_client := None;
     S3.put_object := fun _ _ _ _ _ => None |}.

(** * Properties *)

Example normalize_url_ex1 :
  normalize_url "https://Example.com/Docs/" = "https://Example.com/Docs".
Proof. reflexivity. Qed.

Example normalize_url_ex2 :
  normalize_url "https://Example.com/Search?Q=Rust#top"
  = "https://example.com/search?q=rust".
Proof. reflexivity. Qed.

Example is_blocked_url_ex1 : is_blocked_url "https://www.Reddit.com/r/rust" = true.
Proof. reflexivity. Qed.

Example is_blocked_url_ex2 : is_blocked_url "https://doc.rust-lang.org/book/" = false.
Proof. reflexivity. Qed.

Example registrable_domain_ex1 :
  registrable_domain "https://www.Reddit.com/r/rust" = "reddit.com".
Proof. reflexivity. Qed.

Example registrable_domain_ex2 :
  registrable_domain "https://example.com/why-not-reddit.com" = "example.com".
Proof. reflexivity. Qed.

Example join_split_ex : PyStr.join_split "  a  b
 c " = "a b c".
Proof. reflexivity. Qed.

Example word_count_ex : PyStr.word_count "a b c" = 3%nat.
Proof. reflexivity. Qed.

Example strip_ex : PyStr.strip "  a b  " = "a b".
Proof. reflexivity. Qed.

(** ** Strings *)

Section StringFacts.

Local Open Scope string_scope.

Lemma string_app_cons (c : ascii) (a b : string) :
  String c a ++ b = String c (a ++ b).
Proof. reflexivity. Qed.

Lemma string_app_nil_l (s : string) : "" ++ s = s.
Proof. reflexivity. Qed.

Lemma string_app_nil_r (s : string) : s ++ "" = s.
Proof.
  induction s as [|c s IH]; [reflexivity|].
  now rewrite string_app_cons, IH.
Qed.

Lemma string_app_assoc (a b c : string) : (a ++ b) ++ c = a ++ b ++ c.
Proof.
  induction a as [|x a IH]; [reflexivity|].
  now rewrite !string_app_cons, IH.
Qed.

Lemma occurs_in_refl (s : string) : occurs_in s s.
Proof. exists "", "". now rewrite string_app_nil_l, string_app_nil_r. Qed.

Lemma occurs_in_cons (c : ascii) (x s : string) :
  occurs_in x s -> occurs_in x (String c s).
Proof. intros [before [after ->]]. now exists (String c before), after. Qed.

Lemma occurs_in_prefix (p rest : string) : occurs_in p (p ++ rest).
Proof. now exists "", rest. Qed.

Lemma startswith_iff (p s : string) :
  PyStr.startswith p s = true <-> exists rest, s = p ++ rest.
Proof.
  revert s. induction p as [|a p IH]; intros s; simpl.
  - split; [intros _; now exists s | reflexivity].
  - destruct s as [|b s].
    + split; [discriminate | intros [rest H]; discriminate].
    + rewrite andb_true_iff, Ascii.eqb_eq, IH. split.
      * intros [-> [rest ->]]. now exists rest.
      * intros [rest H]. rewrite string_app_cons in H.
        injection H as -> ->. split; [reflexivity | now exists rest].
Qed.

Lemma contains_iff (x s : string) :
  PyStr.contains x s = true <-> occurs_in x s.
Proof.
  induction s as [|c s IH].
  - cbn [PyStr.contains]. rewrite orb_false_r, startswith_iff. split.
    + intros [rest H]. now exists "", rest.
    + intros [before [after H]].
      destruct before; [now exists after | discriminate].
  - cbn [PyStr.contains]. rewrite orb_true_iff, IH, startswith_iff. split.
    + intros [[rest H] | H].
      * now exists "", rest.
      * now apply occurs_in_cons.
    + intros [before [after H]]. destruct before as [|d before].
      * left. now exists after.
      * right. rewrite string_app_cons in H. injection H as _ ->.
        now exists before, after.
Qed.

Lemma occurs_in_trans (x y z : string) :
  occurs_in x y -> occurs_in y z -> occurs_in x z.
Proof.
  intros [b1 [a1 ->]] [b2 [a2 ->]].
  exists (b2 ++ b1), (a1 ++ a2). now rewrite !string_app_assoc.
Qed.

Lemma lower_app (a b : string) :
  PyStr.lower (a ++ b) = PyStr.lower a ++ PyStr.lower b.
Proof.
  induction a as [|c a IH]; [reflexivity|].
  rewrite string_app_cons. cbn [PyStr.lower]. now rewrite IH.
Qed.

Lemma occurs_in_lower (x s : string) :
  occurs_in x s -> occurs_in (PyStr.lower x) (PyStr.lower s).
Proof.
  intros [before [after ->]].
  exists (PyStr.lower before), (PyStr.lower after). now rewrite !lower_app.
Qed.

Lemma endswith_occurs (p s : string) :
  PyStr.endswith p s = true -> occurs_in p s.
Proof.
  induction s as [|c s IH]; cbn [PyStr.endswith]; rewrite orb_true_iff.
  - intros [H | H]; [|discriminate].
    apply String.eqb_eq in H as ->. apply occurs_in_refl.
  - intros [H | H].
    + apply String.eqb_eq in H as ->. apply occurs_in_refl.
    + now apply occurs_in_cons, IH.
Qed.

Lemma drop_occurs (n : nat) (s : string) : occurs_in (PyStr.drop n s) s.
Proof.
  revert s. induction n as [|n IH]; intros s.
  - apply occurs_in_refl.
  - destruct s as [|c s]; cbn [PyStr.drop].
    + apply occurs_in_refl.
    + apply occurs_in_cons, IH.
Qed.

Lemma after_scheme_occurs (u rest : string) :
  after_scheme u = Some rest -> occurs_in rest u.
Proof.
  revert rest. induction u as [|c u IH]; intros rest.
  - simpl. discriminate.
  - change (after_scheme (String c u))
      with (if PyStr.startswith "://" (String c u)
            then Some (PyStr.drop 3 (String c u)) else after_scheme u).
    destruct (PyStr.startswith "://" (String c u)).
    + intros H. replace rest with (PyStr.drop 3 (String c u)) by congruence.
      apply drop_occurs.
    + intros H. now apply occurs_in_cons, IH.
Qed.

Lemma host_part_prefix (s : string) : exists rest, s = host_part s ++ rest.
Proof.
  induction s as [|c s [rest IH]]; cbn [host_part].
  - now exists "".
  - destruct (_ || _)%bool.
    + now exists (String c s).
    + exists rest. now rewrite string_app_cons, <- IH.
Qed.

Lemma host_part_occurs (s : string) : occurs_in (host_part s) s.
Proof.
  destruct (host_part_prefix s) as [rest H].
  rewrite H at 2. apply occurs_in_prefix.
Qed.

End StringFacts.

(** ** URL normalisation *)

Lemma contains_char_cons (d c : ascii) (s : string) :
  PyStr.contains (String d "") (String c s)
  = (Ascii.eqb d c || PyStr.contains (String d "") s)%bool.
Proof.
  change (PyStr.contains (String d "") (String c s))
    with ((Ascii.eqb d c && true) || PyStr.contains (String d "") s)%bool.
  now rewrite andb_true_r.
Qed.

Lemma split_head_absent (d : ascii) (s : string) :
  PyStr.contains (String d "") s = false -> PyStr.split_head d s = s.
Proof.
  induction s as [|c s IH]; [reflexivity|].
  rewrite contains_char_cons, orb_false_iff. intros [Hc Hs].
  cbn [PyStr.split_head]. rewrite Ascii.eqb_sym, Hc. now rewrite IH.
Qed.

Lemma split_head_clean (d : ascii) (s : string) :
  PyStr.contains (String d "") (PyStr.split_head d s) = false.
Proof.
  induction s as [|c s IH]; [reflexivity|].
  cbn [PyStr.split_head]. destruct (Ascii.eqb c d) eqn:E; [reflexivity|].
  now rewrite contains_char_cons, Ascii.eqb_sym, E, IH.
Qed.

(** The fragment test of [normalize_url] changes nothing: splitting at a
    ['#'] that is not there returns the string itself. *)
Lemma normalize_url_unfold (u : string) :
  let stem := PyStr.split_head "#" (PyStr.rstrip_by (Ascii.eqb "/") u) in
  normalize_url u = if PyStr.contains "?" stem then PyStr.lower stem else stem.
Proof.
  unfold normalize_url. cbv zeta.
  destruct (PyStr.contains "#" (PyStr.rstrip_by (Ascii.eqb "/") u)) eqn:E.
  - reflexivity.
  - now rewrite (split_head_absent _ _ E).
Qed.

(** C3, at the failing input: a fragment that follows a slash. The slashes
    are stripped before the fragment is cut off, so the first pass leaves a
    trailing slash that a second pass removes: normalising twice differs
    from normalising once. *)
Theorem normalize_url_twice_differs :
  normalize_url "https://example.com/docs/#intro" = "https://example.com/docs/"
  /\ normalize_url (normalize_url "https://example.com/docs/#intro")
     = "https://example.com/docs"
  /\ normalize_url (normalize_url "https://example.com/docs/#intro")
     <> normalize_url "https://example.com/docs/#intro".
Proof. repeat split. discriminate. Qed.

(** C7, counterexample: a URL without a query string keeps its capitals,
    where the specification's normal form is lower-cased. *)
Lemma normalize_url_keeps_capitals :
  normalize_url "https://Example.com/Docs" = "https://Example.com/Docs"
  /\ normalize_url "https://Example.com/Docs"
     <> spec_normalize "https://Example.com/Docs".
Proof. split; [reflexivity | discriminate]. Qed.

(** ** The duplicate filter *)

(** What one run of the filter loop does to its two accumulators. *)
Lemma dedupe_spec (urls : list string) :
  forall (seen : gset string) (unique : list string),
  exists added : list string,
    dedupe urls seen unique
    = (seen ∪ list_to_set (normalize_url <$> added), unique ++ added)
    /\ sublist added urls
    /\ NoDup (normalize_url <$> added)
    /\ (forall u, u ∈ added ->
                  (normalize_url u ∉ seen) /\ is_blocked_url u = false)
    /\ (forall u, u ∈ urls -> is_blocked_url u = false ->
                  normalize_url u ∈ (seen ∪ list_to_set (normalize_url <$> added))).
Proof.
  induction urls as [|u rest IH]; intros seen unique.
  - exists []. cbn [dedupe]. rewrite app_nil_r.
    split; [f_equal; now rewrite fmap_nil, list_to_set_nil, (right_id_L ∅ (∪))|].
    split; [constructor|]. split; [constructor|].
    split; intros v Hv; inversion Hv.
  - cbn [dedupe]. destruct (is_blocked_url u) eqn:Hb.
    + destruct (IH seen unique) as (added & -> & Hsub & Hnd & Hfresh & Hcov).
      exists added. split; [reflexivity|].
      split; [now apply sublist_cons|]. split; [assumption|].
      split; [assumption|].
      intros v Hv Hvb. apply elem_of_cons in Hv as [-> | Hv]; [congruence|].
      now apply Hcov.
    + destruct (decide (normalize_url u ∈ seen)) as [Hin | Hnin].
      * destruct (IH seen unique) as (added & -> & Hsub & Hnd & Hfresh & Hcov).
        exists added. split; [reflexivity|].
        split; [now apply sublist_cons|]. split; [assumption|].
        split; [assumption|].
        intros v Hv Hvb. apply elem_of_cons in Hv as [-> | Hv].
        -- apply elem_of_union. now left.
        -- now apply Hcov.
      * destruct (IH ({[normalize_url u]} ∪ seen) (unique ++ [u]))
          as (added & -> & Hsub & Hnd & Hfresh & Hcov).
        exists (u :: added).
        split.
        { f_equal; [|now rewrite <- app_assoc].
          rewrite fmap_cons, list_to_set_cons, (assoc_L (∪)).
          now rewrite (comm_L (∪) seen). }
        split; [now apply sublist_skip|].
        split.
        { rewrite fmap_cons. apply NoDup_cons. split; [|assumption].
          intros Hdup. apply list_elem_of_fmap in Hdup as (v & Hv & Hvin).
          destruct (Hfresh v Hvin) as [Hvs _]. apply Hvs.
          apply elem_of_union. left. apply elem_of_singleton. congruence. }
        split.
        { intros v Hv. apply elem_of_cons in Hv as [-> | Hv]; [now split|].
          destruct (Hfresh v Hv) as [Hvs Hvb]. split; [|assumption].
          intros Hc. apply Hvs. apply elem_of_union. now right. }
        intros v Hv Hvb. rewrite fmap_cons, list_to_set_cons.
        apply elem_of_cons in Hv as [-> | Hv].
        -- apply elem_of_union. right. apply elem_of_union. left.
           now apply elem_of_singleton.
        -- specialize (Hcov v Hv Hvb).
           apply elem_of_union in Hcov as [Hcov | Hcov].
           ++ apply elem_of_union in Hcov as [Hcov | Hcov].
              ** apply elem_of_union. right. apply elem_of_union. now left.
              ** apply elem_of_union. now left.
           ++ apply elem_of_union. right. apply elem_of_union. now right.
Qed.

Lemma lower_char_separator (d c : ascii) :
  d = "#"%char \/ d = "?"%char \/ d = "/"%char ->
  Ascii.eqb d (PyStr.lower_char c) = Ascii.eqb d c.
Proof.
  intros [-> | [-> | ->]];
    destruct c as [[] [] [] [] [] [] [] []]; reflexivity.
Qed.

Lemma contains_char_lower (d : ascii) (s : string) :
  d = "#"%char \/ d = "?"%char \/ d = "/"%char ->
  PyStr.contains (String d "") (PyStr.lower s) = PyStr.contains (String d "") s.
Proof.
  intros Hd. induction s as [|c s IH]; [reflexivity|].
  cbn [PyStr.lower]. rewrite !contains_char_cons, IH.
  now rewrite lower_char_separator.
Qed.

Lemma rstrip_by_idempotent (strip : ascii -> bool) (s : string) :
  PyStr.rstrip_by strip (PyStr.rstrip_by strip s) = PyStr.rstrip_by strip s.
Proof.
  induction s as [|c s IH]; [reflexivity|].
  cbn [PyStr.rstrip_by]. destruct (PyStr.rstrip_by strip s) as [|d r] eqn:E.
  - destruct (strip c) eqn:Hc; [reflexivity|].
    cbn [PyStr.rstrip_by]. now rewrite Hc.
  - change (PyStr.rstrip_by strip (String c (String d r)))
      with (match PyStr.rstrip_by strip (String d r) with
            | EmptyString => if strip c then EmptyString else String c EmptyString
            | String d' r' => String c (String d' r')
            end).
    now rewrite IH.
Qed.

Lemma rstrip_slash_lower (s : string) :
  PyStr.rstrip_by (Ascii.eqb "/") (PyStr.lower s)
  = PyStr.lower (PyStr.rstrip_by (Ascii.eqb "/") s).
Proof.
  induction s as [|c s IH]; [reflexivity|].
  cbn [PyStr.lower PyStr.rstrip_by]. rewrite IH.
  destruct (PyStr.rstrip_by (Ascii.eqb "/") s) as [|d r]; cbn [PyStr.lower].
  - rewrite lower_char_separator by (right; now right).
    now destruct (Ascii.eqb "/" c).
  - reflexivity.
Qed.

Lemma rstrip_by_keeps_absent (strip : ascii -> bool) (d : ascii) (s : string) :
  PyStr.contains (String d "") s = false ->
  PyStr.contains (String d "") (PyStr.rstrip_by strip s) = false.
Proof.
  induction s as [|c s IH]; [reflexivity|].
  rewrite contains_char_cons, orb_false_iff. intros [Hc Hs].
  cbn [PyStr.rstrip_by]. specialize (IH Hs).
  destruct (PyStr.rstrip_by strip s) as [|e r].
  - destruct (strip c); [reflexivity|].
    now rewrite contains_char_cons, Hc.
  - now rewrite contains_char_cons, Hc, IH.
Qed.

Lemma lower_char_idempotent (c : ascii) :
  PyStr.lower_char (PyStr.lower_char c) = PyStr.lower_char c.
Proof. destruct c as [[] [] [] [] [] [] [] []]; reflexivity. Qed.

Lemma lower_idempotent (s : string) : PyStr.lower (PyStr.lower s) = PyStr.lower s.
Proof.
  induction s as [|c s IH]; [reflexivity|].
  cbn [PyStr.lower]. now rewrite lower_char_idempotent, IH.
Qed.

(** Away from fragments a second pass changes nothing: the defect shown
    above needs a ['#']. *)
Lemma normalize_url_idempotent_without_fragment (u : string) :
  PyStr.contains "#" u = false ->
  normalize_url (normalize_url u) = normalize_url u.
Proof.
  intros Hu.
  assert (Hr : PyStr.contains "#" (PyStr.rstrip_by (Ascii.eqb "/") u) = false)
    by now apply rstrip_by_keeps_absent.
  assert (Hone : normalize_url u
                 = if PyStr.contains "?" (PyStr.rstrip_by (Ascii.eqb "/") u)
                   then PyStr.lower (PyStr.rstrip_by (Ascii.eqb "/") u)
                   else PyStr.rstrip_by (Ascii.eqb "/") u).
  { unfold normalize_url. cbv zeta. now rewrite Hr. }
  rewrite Hone.
  destruct (PyStr.contains "?" (PyStr.rstrip_by (Ascii.eqb "/") u)) eqn:Hq.
  - unfold normalize_url. cbv zeta.
    rewrite rstrip_slash_lower, rstrip_by_idempotent.
    rewrite contains_char_lower by now left. rewrite Hr.
    rewrite contains_char_lower by (right; now left). rewrite Hq.
    apply lower_idempotent.
  - unfold normalize_url. cbv zeta.
    now rewrite rstrip_by_idempotent, Hr, Hq.
Qed.

(** C7 (amended): the normal form is the URL with its trailing slashes
    stripped and then its fragment dropped, lower-cased exactly when what
    is left contains a ['?']: with a query string it is the lower-cased
    normal form of the specification, without one it keeps the URL's own
    casing. It never contains a ['#'], and the URLs that go on to the
    scraper are the provider's own strings. *)
Theorem normalize_url_lowers_queries_only (u : string) :
  let stem := PyStr.split_head "#" (PyStr.rstrip_by (Ascii.eqb "/") u) in
  (PyStr.contains "?" stem = true -> normalize_url u = spec_normalize u)
  /\ (PyStr.contains "?" stem = false -> normalize_url u = stem)
  /\ PyStr.contains "#" (normalize_url u) = false
  /\ (forall (urls : list string) (seen : gset string) (v : string),
        v ∈ snd (dedupe urls seen []) -> v ∈ urls).
Proof.
  cbv zeta. pose proof (normalize_url_unfold u) as Hn. cbv zeta in Hn.
  split; [|split; [|split]].
  - intros Hq. now rewrite Hn, Hq.
  - intros Hq. now rewrite Hn, Hq.
  - rewrite Hn. destruct (PyStr.contains "?" _).
    + rewrite contains_char_lower by now left. apply split_head_clean.
    + apply split_head_clean.
  - intros urls seen v.
    destruct (dedupe_spec urls seen []) as (added & -> & Hsub & _).
    cbn [snd]. rewrite app_nil_l. intros Hv.
    eapply elem_of_sublist; eassumption.
Qed.

(** ** The blocklist *)

(** C8, counterexample: a page of a domain that is not on the blocklist is
    rejected because its path mentions a listed domain. *)
Lemma blocked_by_path_mention :
  registrable_domain "https://example.com/blog/youtube.com-alternatives"
  = "example.com"
  /\ domain_on_blocklist
       (registrable_domain "https://example.com/blog/youtube.com-alternatives")
     = false
  /\ is_blocked_url "https://example.com/blog/youtube.com-alternatives" = true.
Proof. repeat split. Qed.

(** C8 (amended): a URL is rejected exactly when its lower-cased text
    contains one of the nine blocklist strings somewhere, in the host or
    after it; so every URL whose registrable domain ends in a listed domain
    is rejected, and a URL in which no listed string occurs is not. The
    list is a constant of the filter, the same for every provider. *)
Theorem is_blocked_url_iff_occurs (u : string) :
  (is_blocked_url u = true <->
   exists blocked, In blocked blocked_domains
                   /\ occurs_in blocked (PyStr.lower u))
  /\ (domain_on_blocklist (registrable_domain u) = true ->
      is_blocked_url u = true).
Proof.
  assert (Hiff : is_blocked_url u = true <->
                 exists blocked, In blocked blocked_domains
                                 /\ occurs_in blocked (PyStr.lower u)).
  { unfold is_blocked_url. cbv zeta. rewrite existsb_exists.
    split; intros (b & Hin & Hb); exists b; (split; [assumption|]);
      now apply contains_iff. }
  split; [exact Hiff|].
  intros Hd. apply Hiff.
  unfold domain_on_blocklist in Hd. apply existsb_exists in Hd as (b & Hin & Hb).
  exists b. split; [assumption|].
  apply endswith_occurs in Hb. unfold registrable_domain in Hb.
  destruct (after_scheme u) as [rest|] eqn:Hs.
  - cbv zeta in Hb.
    assert (Hhost : occurs_in b (PyStr.lower (host_part rest))).
    { destruct (PyStr.startswith "www." (PyStr.lower (host_part rest))).
      - eapply occurs_in_trans; [exact Hb | apply drop_occurs].
      - exact Hb. }
    eapply occurs_in_trans; [exact Hhost|].
    apply occurs_in_lower.
    eapply occurs_in_trans; [apply host_part_occurs|].
    now apply after_scheme_occurs.
  - destruct Hb as (before & after & Hb).
    destruct before as [|c before]; [|discriminate].
    rewrite string_app_nil_l in Hb.
    destruct b as [|c b]; [|discriminate].
    exfalso. clear -Hin. unfold blocked_domains in Hin.
    repeat (destruct Hin as [Hin | Hin]; [discriminate|]). exact Hin.
Qed.

(** ** The scraper *)

Lemma scrape_url_playwright_url (u : string) (page : PageLoad) :
  url (scrape_url_playwright u page) = u.
Proof. now destruct page. Qed.

Lemma scrape_in_new_tab_index (tab : nat -> string -> TabOutcome)
    (u : string) (i : nat) :
  fst (scrape_in_new_tab tab u i) = i.
Proof. unfold scrape_in_new_tab. now destruct (tab i u). Qed.

Lemma scrape_in_new_tab_url (tab : nat -> string -> TabOutcome)
    (u : string) (i : nat) :
  url (snd (scrape_in_new_tab tab u i)) = u.
Proof.
  unfold scrape_in_new_tab. destruct (tab i u); [reflexivity|].
  apply scrape_url_playwright_url.
Qed.

(** What a tab's fate makes of the item. *)
Lemma scrape_in_new_tab_outcome (tab : nat -> string -> TabOutcome)
    (u : string) (i : nat) :
  match tab i u with
  | TabOpened (Loaded _ _) => success (snd (scrape_in_new_tab tab u i)) = true
  | _ => success (snd (scrape_in_new_tab tab u i)) = false
         /\ blank_failure (snd (scrape_in_new_tab tab u i))
  end.
Proof.
  unfold scrape_in_new_tab, blank_failure.
  destruct (tab i u) as [msg | [msg | t x]]; cbn; eauto 10.
Qed.

Lemma scrape_in_new_tab_blank (tab : nat -> string -> TabOutcome)
    (u : string) (i : nat) :
  success (snd (scrape_in_new_tab tab u i)) = true
  \/ blank_failure (snd (scrape_in_new_tab tab u i)).
Proof.
  pose proof (scrape_in_new_tab_outcome tab u i) as H.
  destruct (tab i u) as [msg | [msg | t x]]; tauto.
Qed.

(** Storing a batch writes exactly the slots of the batch. *)
Lemma store_batch_lookup (tab : nat -> string -> TabOutcome)
    (batch_urls : list string) :
  forall (batch_start : nat) (results : list (option ScrapedContent)) (j : nat),
    store_batch results
      (map (fun t => inr t)
         (imap (fun i u => scrape_in_new_tab tab u (batch_start + i)) batch_urls))
      !! j
    = match batch_urls !! (j - batch_start)%nat with
      | Some u =>
          if decide (batch_start <= j /\ j < length results)%nat
          then Some (Some (snd (scrape_in_new_tab tab u j)))
          else results !! j
      | None => results !! j
      end.
Proof.
  induction batch_urls as [|u us IH]; intros s results j.
  - reflexivity.
  - rewrite imap_cons. cbn [map store_batch foldl].
    pose proof (scrape_in_new_tab_index tab u (s + 0)) as Hi.
    destruct (scrape_in_new_tab tab u (s + 0)) as [index result] eqn:E.
    cbn [fst] in Hi. subst index.
    change (foldl _ ?r ?l) with (store_batch r l).
    rewrite (imap_ext _ (fun i v => scrape_in_new_tab tab v (S s + i)));
      [|intros i v _; cbn; f_equal; lia].
    rewrite IH, length_insert, list_lookup_insert.
    replace (s + 0)%nat with s in * by lia.
    destruct (decide (j = s)) as [-> | Hne].
    + replace (s - S s)%nat with 0%nat by lia.
      replace (s - s)%nat with 0%nat by lia. cbn [lookup list_lookup].
      assert (Hr : result = snd (scrape_in_new_tab tab u s)) by now rewrite E.
      destruct (us !! 0%nat); repeat case_decide; try lia;
        try reflexivity; try (now rewrite Hr).
      all: destruct (results !! s) eqn:Hl; try reflexivity;
        apply lookup_lt_Some in Hl; lia.
    + destruct (decide (j < s)%nat) as [Hlt | Hge].
      * replace (j - s)%nat with 0%nat by lia.
        replace (j - S s)%nat with 0%nat by lia. cbn [lookup list_lookup].
        destruct (us !! 0%nat); repeat case_decide; try lia; reflexivity.
      * replace (j - s)%nat with (S (j - S s))%nat by lia. cbn [lookup list_lookup].
        change (list_lookup (j - S s)%nat us) with (us !! (j - S s)%nat).
        destruct (us !! (j - S s)%nat); repeat case_decide; try lia; reflexivity.
Qed.

Lemma store_batch_length (items : list (Raised + nat * ScrapedContent)) :
  forall results, length (store_batch results items) = length results.
Proof.
  induction items as [|item items IH]; intros results; [reflexivity|].
  cbn [store_batch foldl]. change (foldl _ ?r ?l) with (store_batch r l).
  rewrite IH. destruct item as [e | [index result]]; [reflexivity|].
  apply length_insert.
Qed.

Lemma scrape_batch_filled (tab : nat -> string -> TabOutcome)
    (urls : list string) (m s : nat) (results : list (option ScrapedContent)) :
  (0 < m)%nat ->
  filled_below tab urls s results ->
  filled_below tab urls (s + m) (scrape_batch tab urls m results s).
Proof.
  intros Hm [Hlen Hslots]. unfold scrape_batch. cbv zeta. split.
  - now rewrite store_batch_length.
  - intros j Hj. rewrite store_batch_lookup. unfold slice.
    rewrite lookup_take, lookup_drop, Hlen.
    specialize (Hslots j Hj).
    destruct (decide (j < s)%nat) as [Hlt | Hge].
    + rewrite (decide_True (P := (j < s + m)%nat)) by lia.
      case_decide; [|exact Hslots].
      destruct (urls !! _); [|exact Hslots].
      now rewrite decide_False by lia.
    + destruct (decide (j < s + m)%nat) as [Hin | Hout].
      * rewrite decide_True by lia.
        replace (s + (j - s))%nat with j by lia.
        unfold expected.
        destruct (urls !! j) as [u|] eqn:Hu.
        -- now rewrite decide_True by lia.
        -- apply lookup_ge_None in Hu. lia.
      * now rewrite decide_False by lia.
Qed.

Lemma scrape_loop_filled (tab : nat -> string -> TabOutcome)
    (urls : list string) (m : nat) :
  (0 < m)%nat ->
  forall (fuel s : nat) (results : list (option ScrapedContent)),
    (length urls - s <= fuel)%nat ->
    filled_below tab urls s results ->
    filled_below tab urls (length urls)
      (foldl (scrape_batch tab urls m) results
         (range_from fuel s (length urls) m)).
Proof.
  intros Hm.
  assert (Hdone : forall s results, (length urls <= s)%nat ->
            filled_below tab urls s results ->
            filled_below tab urls (length urls) results).
  { intros s results Hs [Hlen Hslots]. split; [assumption|].
    intros j Hj. rewrite (Hslots j Hj).
    now rewrite !decide_True by lia. }
  induction fuel as [|fuel IH]; intros s results Hfuel Hfilled.
  - cbn [range_from foldl]. apply (Hdone s); [lia | assumption].
  - cbn [range_from]. destruct (Nat.ltb_spec s (length urls)) as [Hlt | Hge].
    + cbn [foldl]. apply IH; [lia|].
      now apply scrape_batch_filled.
    + cbn [foldl]. now apply (Hdone s).
Qed.

Lemma filled_all (tab : nat -> string -> TabOutcome) (urls : list string)
    (results : list (option ScrapedContent)) :
  filled_below tab urls (length urls) results ->
  results = Some <$> imap (fun i u => snd (scrape_in_new_tab tab u i)) urls.
Proof.
  intros [Hlen Hslots]. apply list_eq. intros j.
  rewrite list_lookup_fmap, list_lookup_imap.
  destruct (decide (j < length urls)%nat) as [Hj | Hj].
  - rewrite (Hslots j Hj), decide_True by assumption. unfold expected.
    destruct (urls !! j) as [u|] eqn:Hu; [reflexivity|].
    apply lookup_ge_None in Hu. lia.
  - rewrite (lookup_ge_None_2 results j) by lia.
    now rewrite (lookup_ge_None_2 urls j) by lia.
Qed.

(** With a positive budget the scraper returns one item per URL, the item
    of the [i]-th URL in the [i]-th place. *)
Lemma scrape_parallel_playwright_items (tab : nat -> string -> TabOutcome)
    (urls : list string) (max_parallel : Z) :
  0 < max_parallel ->
  scrape_parallel_playwright tab urls max_parallel
  = inr (Some <$> imap (fun i u => snd (scrape_in_new_tab tab u i)) urls).
Proof.
  intros Hpos. unfold scrape_parallel_playwright.
  destruct urls as [|u0 urls0] eqn:Hurls; [reflexivity|]. rewrite <- Hurls.
  destruct max_parallel as [|step|step]; try lia. f_equal.
  apply filled_all. apply scrape_loop_filled; [lia | lia |].
  split; [apply length_replicate|].
  intros j Hj. rewrite decide_False by lia. now apply lookup_replicate_2.
Qed.

(** C6, counterexample: with a budget of zero the loop over batches cannot
    be set up and the call raises instead of returning a list. *)
Lemma scrape_parallel_playwright_zero_budget :
  scrape_parallel_playwright (fun _ _ => TabOpened (Loaded "Title" "text"))
    ["https://example.com/a"] 0
  = inl (ValueError "range() arg 3 must not be zero").
Proof. reflexivity. Qed.

(** C6 (amended): for every list of URLs and every positive concurrency
    budget, the scraper returns a list of the same length and order as its
    input: the [i]-th item carries the [i]-th URL, and a URL whose tab could
    not be opened or whose page failed to load yields an item with
    [success = false] and an error message, the other items being
    unaffected. *)
Theorem scrape_parallel_playwright_in_order (tab : nat -> string -> TabOutcome)
    (urls : list string) (max_parallel : Z) :
  0 < max_parallel ->
  exists scraped : list ScrapedContent,
    scrape_parallel_playwright tab urls max_parallel = inr (Some <$> scraped)
    /\ length scraped = length urls
    /\ forall (i : nat) (u : string), urls !! i = Some u ->
         exists c, scraped !! i = Some c /\ url c = u
                   /\ match tab i u with
                      | TabOpened (Loaded _ _) => success c = true
                      | _ => success c = false /\ exists msg, error c = Some msg
                      end.
Proof.
  intros Hpos.
  exists (imap (fun i u => snd (scrape_in_new_tab tab u i)) urls).
  split; [now apply scrape_parallel_playwright_items|].
  split; [apply length_imap|].
  intros i u Hu. exists (snd (scrape_in_new_tab tab u i)).
  split; [now rewrite list_lookup_imap, Hu|].
  split; [apply scrape_in_new_tab_url|].
  pose proof (scrape_in_new_tab_outcome tab u i) as H.
  destruct (tab i u) as [msg | [msg | t x]]; [| |exact H].
  - destruct H as (Hs & _ & _ & _ & He). now split.
  - destruct H as (Hs & _ & _ & _ & He). now split.
Qed.

Lemma scrape_parallel_playwright_in_order_witness :
  exists scraped : list ScrapedContent,
    scrape_parallel_playwright
      (fun i _ => if Nat.eqb i 1 then NewPageRaises "context closed"
                  else TabOpened (Loaded "Title" "some text"))
      ["https://a.example/"; "https://b.example/"; "https://c.example/"] 2
    = inr (Some <$> scraped)
    /\ length scraped = 3%nat
    /\ forall (i : nat) (u : string),
         ["https://a.example/"; "https://b.example/"; "https://c.example/"] !! i
         = Some u ->
         exists c, scraped !! i = Some c /\ url c = u
                   /\ match (if Nat.eqb i 1 then NewPageRaises "context closed"
                             else TabOpened (Loaded "Title" "some text")) with
                      | TabOpened (Loaded _ _) => success c = true
                      | _ => success c = false /\ exists msg, error c = Some msg
                      end.
Proof.
  apply (scrape_parallel_playwright_in_order
           (fun i _ => if Nat.eqb i 1 then NewPageRaises "context closed"
                       else TabOpened (Loaded "Title" "some text"))
           ["https://a.example/"; "https://b.example/"; "https://c.example/"] 2).
  lia.
Defined.

(** C10: every [ScrapedContent] the scraper produces either has
    [success = true] or is blank (word count 0, empty content and title, an
    error message); this holds for a page that fails to load, for a tab
    that cannot be opened and for every item of a scraped batch. A blank
    item is below the 50-word minimum, so it never passes the quality
    gate. *)
Theorem failed_fetch_is_blank (tab : nat -> string -> TabOutcome)
    (urls : list string) (max_parallel : Z) :
  (forall (u : string) (page : PageLoad),
      success (scrape_url_playwright u page) = true
      \/ blank_failure (scrape_url_playwright u page))
  /\ (forall (u : string) (i : nat),
        success (snd (scrape_in_new_tab tab u i)) = true
        \/ blank_failure (snd (scrape_in_new_tab tab u i)))
  /\ (forall (results : list (option ScrapedContent)) (c : ScrapedContent),
        scrape_parallel_playwright tab urls max_parallel = inr results ->
        Some c ∈ results ->
        success c = true \/ blank_failure c)
  /\ (forall c : ScrapedContent,
        blank_failure c ->
        (50 <=? word_count c) = false /\ is_valid_result c = false).
Proof.
  split; [|split; [|split]].
  - intros u [msg | t x]; [right | left; reflexivity].
    unfold blank_failure. cbn. eauto 10.
  - intros u i. apply scrape_in_new_tab_blank.
  - intros results c Hrun Hc.
    destruct (Z.lt_trichotomy max_parallel 0) as [Hneg | [-> | Hpos]].
    + unfold scrape_parallel_playwright in Hrun.
      destruct urls as [|u0 urls0]; [inversion Hrun; subst; inversion Hc|].
      destruct max_parallel as [|step|step]; try lia.
      inversion Hrun; subst.
      change (None :: replicate (length urls0) None)
        with (replicate (S (length urls0)) (@None ScrapedContent)) in Hc.
      apply elem_of_replicate in Hc as [Hc _]. discriminate.
    + unfold scrape_parallel_playwright in Hrun.
      destruct urls as [|u0 urls0]; [inversion Hrun; subst; inversion Hc|].
      discriminate.
    + rewrite scrape_parallel_playwright_items in Hrun by assumption.
      inversion Hrun; subst.
      apply list_elem_of_fmap in Hc as (c' & Hc' & Hin).
      inversion Hc'; subst c'.
      apply list_elem_of_lookup in Hin as [i Hi].
      rewrite list_lookup_imap in Hi.
      destruct (urls !! i) as [u|]; [|discriminate].
      inversion Hi; subst. apply scrape_in_new_tab_blank.
  - intros c (Hw & _). unfold is_valid_result. rewrite Hw. cbn.
    split; [reflexivity|]. now rewrite andb_false_r.
Qed.

(** ** Request validation *)

Lemma query_is_empty_iff (q : option string) :
  query_is_empty q = true <-> (forall s, q = Some s -> PyStr.strip s = "").
Proof.
  destruct q as [s|]; cbn [query_is_empty].
  - rewrite orb_true_iff, String.eqb_eq, Nat.eqb_eq. split.
    + intros [-> | H] s' [= <-]; [reflexivity|].
      now destruct (PyStr.strip s).
    + intros H. right. now rewrite (H s eq_refl).
  - split; [intros _ s; discriminate | reflexivity].
Qed.

Lemma engine_listed_iff (e : string) :
  existsb (String.eqb e) ContentSearchRequest.engines = true
  <-> In e ContentSearchRequest.engines.
Proof.
  rewrite existsb_exists. split.
  - intros (x & Hin & Heq). now apply String.eqb_eq in Heq as ->.
  - intros Hin. exists e. split; [assumption | apply String.eqb_refl].
Qed.

Lemma validate_rejects_iff (r : ContentSearchRequest.t) :
  (exists msg, ContentSearchRequest.validate r = inl (ValueError msg))
  <-> malformed r.
Proof.
  unfold ContentSearchRequest.validate, malformed.
  destruct (query_is_empty (ContentSearchRequest.query r)) eqn:He.
  { pose proof (proj1 (query_is_empty_iff _) He) as He'. split; eauto. }
  assert (Hne : ~ (forall s, ContentSearchRequest.query r = Some s ->
                             PyStr.strip s = "")).
  { rewrite <- query_is_empty_iff. congruence. }
  destruct (query_too_long (ContentSearchRequest.query r)) eqn:Hl.
  { split; [intros _ | eauto]. right. left.
    unfold query_too_long in Hl.
    destruct (ContentSearchRequest.query r) as [s|]; [|discriminate].
    exists s. split; [reflexivity|]. now apply Nat.ltb_lt. }
  assert (Hnl : ~ exists s, ContentSearchRequest.query r = Some s
                            /\ (500 < String.length s)%nat).
  { intros (s & Hs & Hlen). unfold query_too_long in Hl. rewrite Hs in Hl.
    apply Nat.ltb_lt in Hlen. congruence. }
  destruct ((ContentSearchRequest.k r <? 1) || (20 <? ContentSearchRequest.k r))%bool
    eqn:Hk.
  { split; [intros _ | eauto]. apply orb_true_iff in Hk as [Hk | Hk].
    - right. right. left. now apply Z.ltb_lt.
    - right. right. right. left. now apply Z.ltb_lt. }
  apply orb_false_iff in Hk as [Hk1 Hk2].
  apply Z.ltb_ge in Hk1, Hk2.
  destruct (existsb _ ContentSearchRequest.engines) eqn:Hen; cbn [negb].
  - apply engine_listed_iff in Hen. split.
    + intros [msg Hmsg]. discriminate.
    + intros [H | [H | [H | [H | H]]]]; try contradiction; lia.
  - split; [intros _ | eauto]. right. right. right. right.
    rewrite <- engine_listed_iff. congruence.
Qed.

(** C9: a content request is refused by validation exactly when its query is
    empty after trimming or longer than 500 characters, or [k] is outside
    [1, 20], or the engine is not one of the listed ones. The handler then
    answers 400 at once, having made no call of [search_and_scrape]; a
    request that meets all the constraints passes validation and is handed
    to [search_and_scrape] once. *)
Theorem validation_rejects_exactly_malformed (w : World)
    (q : option string) (ok : option Z) (oe : option string) (absent : bool) :
  let r := {| ContentSearchRequest.query := q;
              ContentSearchRequest.k := default 5 ok;
              ContentSearchRequest.engine := default "brave" oe |} in
  let event := Post {| body_query := q; body_k := ok; body_engine := oe;
                       body_include_images :=
                         if absent then None else Some false |} in
  ((exists msg, ContentSearchRequest.validate r = inl (ValueError msg))
   <-> malformed r)
  /\ (malformed r ->
      exists msg,
        lambda_handler w event
        = ({| status_code := 400;
              body := ErrorResponse "InvalidParameter" msg |}, []))
  /\ (~ malformed r ->
      ContentSearchRequest.validate r = inr tt
      /\ exists response s,
           q = Some s
           /\ lambda_handler w event
              = (response,
                 [ {| call_query := s; call_k := default 5 ok;
                      call_engine := default "brave" oe;
                      call_include_images := false |} ])).
Proof.
  cbv zeta.
  set (r := {| ContentSearchRequest.query := q;
               ContentSearchRequest.k := default 5 ok;
               ContentSearchRequest.engine := default "brave" oe |}).
  assert (Hmode : default false (if absent then None else Some false) = false)
    by now destruct absent.
  split; [apply validate_rejects_iff|]. split.
  - intros Hbad. apply validate_rejects_iff in Hbad as [msg Hmsg].
    exists msg. unfold lambda_handler. cbn [body_query body_k body_engine
      body_include_images]. rewrite Hmode. fold r. now rewrite Hmsg.
  - intros Hgood.
    destruct (ContentSearchRequest.validate r) as [e | []] eqn:Hv.
    + exfalso. apply Hgood. apply validate_rejects_iff.
      unfold ContentSearchRequest.validate in Hv |- *.
      repeat match type of Hv with
             | (if ?c then _ else _) = _ => destruct c
             end; inversion Hv; eauto.
    + split; [reflexivity|].
      assert (Hq : exists s, q = Some s).
      { destruct q as [s|]; [now exists s|]. discriminate. }
      destruct Hq as [s ->].
      unfold lambda_handler. cbn [body_query body_k body_engine
        body_include_images]. rewrite Hmode. fold r. rewrite Hv.
      change (default "" (Some s)) with s.
      destruct (search_and_scrape w s (default 5 ok) (default "brave" oe) false);
        eauto.
Qed.

(** Validation's list of engines is wider than what [search_and_scrape]
    accepts: a request for a listed engine other than Brave passes
    validation and is refused by the tool, before any browser is started;
    the handler answers 500. *)
Lemma listed_engine_refused_by_tool (w : World) (q : string) (k : Z) :
  search_and_scrape w q k "yahoo" false
  = inl (ValueError
           "Unsupported search engine: yahoo. Only 'brave' is supported.")
  /\ fst (lambda_handler w
            (Post {| body_query := Some "rust ownership"; body_k := Some 5;
                     body_engine := Some "yahoo";
                     body_include_images := None |}))
     = {| status_code := 500;
          body := ErrorResponse "InternalError"
                    "Internal server error: Unsupported search engine: yahoo. Only 'brave' is supported." |}.
Proof. split; reflexivity. Qed.

(** ** The cascade *)

Lemma evaluate_spec (w : World) (check : bool) (k : Z)
    (items : list ScrapedContent) :
  forall (valid : list ScrapedContent) (polls0 : nat),
    evaluate_post k items valid
      (evaluate w check k (Some <$> items) valid polls0).
Proof.
  unfold evaluate_post, len.
  induction items as [|c rest IH]; intros valid polls0.
  - exists [], polls0. rewrite app_nil_r.
    split; [reflexivity|]. split; [constructor|]. split; [constructor|]. lia.
  - rewrite fmap_cons. cbn [evaluate].
    destruct (is_valid_result c) eqn:Hc; cbn [andb].
    + destruct (k <=? len (valid ++ [c])) eqn:Hk; unfold len in Hk.
      * exists [c], polls0. split; [reflexivity|].
        split; [apply sublist_skip, sublist_nil_l|].
        split; [now repeat constructor|].
        rewrite length_app. cbn [length]. lia.
      * apply Z.leb_gt in Hk.
        assert (Hgo : forall p : nat,
                  exists extra polls1,
                    evaluate w check k (Some <$> rest) (valid ++ [c]) p
                    = inr (valid ++ extra, polls1)
                    /\ sublist extra (c :: rest)
                    /\ Forall (fun c => is_valid_result c = true) extra
                    /\ (Z.of_nat (length valid) < k ->
                        Z.of_nat (length (valid ++ extra)) <= k)).
        { intros p.
          destruct (IH (valid ++ [c]) p) as (extra & p1 & -> & Hsub & Hok & Hb).
          exists (c :: extra), p1. rewrite <- app_assoc.
          split; [reflexivity|]. split; [now apply sublist_skip|].
          split; [now constructor|]. intros _.
          specialize (Hb Hk). now rewrite <- app_assoc in Hb. }
        destruct check; [|apply Hgo].
        destruct (should_return_partial_results w polls0); [|apply Hgo].
        exists [c], (S polls0). split; [reflexivity|].
        split; [apply sublist_skip, sublist_nil_l|].
        split; [now repeat constructor|]. lia.
    + assert (Hgo : forall p : nat,
                exists extra polls1,
                  evaluate w check k (Some <$> rest) valid p
                  = inr (valid ++ extra, polls1)
                  /\ sublist extra (c :: rest)
                  /\ Forall (fun c => is_valid_result c = true) extra
                  /\ (Z.of_nat (length valid) < k ->
                      Z.of_nat (length (valid ++ extra)) <= k)).
      { intros p.
        destruct (IH valid p) as (extra & p1 & -> & Hsub & Hok & Hb).
        exists extra, p1. split; [reflexivity|].
        split; [now apply sublist_cons|]. now split. }
      destruct check; [|apply Hgo].
      destruct (should_return_partial_results w polls0); [|apply Hgo].
      exists [], (S polls0). rewrite app_nil_r. split; [reflexivity|].
      split; [apply sublist_nil_l|]. split; [constructor|]. lia.
Qed.

Lemma scraped_items_urls (tab : nat -> string -> TabOutcome) (urls : list string) :
  url <$> imap (fun i u => snd (scrape_in_new_tab tab u i)) urls = urls.
Proof.
  apply list_eq. intros i. rewrite list_lookup_fmap, list_lookup_imap.
  destruct (urls !! i) as [u|]; [|reflexivity]. cbn.
  now rewrite scrape_in_new_tab_url.
Qed.

Lemma cascade_inv_set_polls (k : Z) (st : Cascade) (n : nat) :
  cascade_inv k st -> cascade_inv k (set_polls st n).
Proof. intros [H1 H2 H3 H4 H5]. now split. Qed.

Lemma cascade_inv_set_engines (k : Z) (st : Cascade) (engines : list string) :
  cascade_inv k st -> cascade_inv k (set_engines st engines).
Proof. intros [H1 H2 H3 H4 H5]. now split. Qed.

Lemma cascade_inv_set_seen (k : Z) (st : Cascade) (seen : gset string) :
  seen_normalized st ⊆ seen ->
  cascade_inv k st -> cascade_inv k (set_seen st seen).
Proof.
  intros Hsub [H1 H2 H3 H4 H5]. split; try assumption.
  intros u Hu. apply Hsub. now apply H5.
Qed.

Lemma scraped_urls_snoc (st : Cascade) (p : Provider) (urls : list string)
    (valid : list ScrapedContent) (n : nat) :
  scraped_urls {| valid_results := valid;
                  seen_normalized := seen_normalized st;
                  engines_used := engines_used st;
                  polls := n;
                  scrape_log := scrape_log st ++ [(p, urls)] |}
  = scraped_urls st ++ urls.
Proof.
  unfold scraped_urls. cbn [scrape_log].
  rewrite fmap_app, concat_app. cbn. now rewrite app_nil_r.
Qed.

(** Scraping a batch of fresh URLs keeps the invariant. *)
Lemma scrape_and_filter_inv (w : World) (p : Provider) (k m : Z)
    (urls : list string) (st : Cascade) :
  0 < m ->
  cascade_inv k st ->
  NoDup (normalize_url <$> urls) ->
  (forall u, u ∈ urls ->
     normalize_url u ∈ seen_normalized st
     /\ forall v, v ∈ scraped_urls st -> normalize_url u <> normalize_url v) ->
  (1 <= k -> len (valid_results st) < k) ->
  exists st',
    scrape_and_filter w p k m urls st = inr (st', len urls)
    /\ cascade_inv k st'
    /\ engines_used st' = engines_used st
    /\ scrape_log st' = scrape_log st ++ [(p, urls)].
Proof.
  intros Hm [Hb Hv Hlog Hnd Hseen] Hfresh Hnew Hroom.
  unfold scrape_and_filter.
  rewrite scrape_parallel_playwright_items by assumption. cbn [bind].
  set (items := imap (fun i u => snd (scrape_in_new_tab (open_tab w p) u i)) urls).
  destruct (evaluate_spec w (deadline_checked w) k items (valid_results st) (polls st))
    as (extra & polls1 & -> & Hsub & Hok & Hbound).
  cbn [bind]. eexists. split.
  { f_equal. f_equal. unfold len. f_equal.
    rewrite length_fmap. subst items. apply length_imap. }
  split; [|split; reflexivity].
  split.
  - cbn [valid_results]. intros Hk. apply Hbound. now apply Hroom.
  - cbn [valid_results]. apply Forall_app. now split.
  - rewrite scraped_urls_snoc. cbn [valid_results]. rewrite fmap_app.
    apply sublist_app; [assumption|].
    rewrite <- (scraped_items_urls (open_tab w p) urls). fold items.
    now apply fmap_sublist.
  - rewrite scraped_urls_snoc, fmap_app. apply NoDup_app.
    split; [assumption|]. split; [|assumption].
    intros x Hx Hx'.
    apply list_elem_of_fmap in Hx as (v & -> & Hv').
    apply list_elem_of_fmap in Hx' as (u & Hu & Hu').
    destruct (Hnew u Hu') as [_ Hne]. now apply (Hne v).
  - rewrite scraped_urls_snoc. cbn [seen_normalized].
    intros u Hu. apply elem_of_app in Hu as [Hu | Hu].
    + now apply Hseen.
    + now apply Hnew.
Qed.

Lemma provider_name_inj (p p' : Provider) :
  provider_name p = provider_name p' -> p = p'.
Proof. destruct p, p'; cbn; intros H; congruence. Qed.

Lemma listed_after_brave (st : Cascade) (engines : list string) :
  engines = [] \/ engines = ["brave"] ->
  (forall p urls, (p, urls) ∈ scrape_log st -> p = Brave) ->
  listed_iff_scraped (set_engines st engines).
Proof.
  intros Hengines Hlog p Hp. cbn [engines_used scrape_log set_engines]. split.
  - intros Hin. exfalso.
    destruct Hengines as [-> | ->]; [inversion Hin|].
    apply list_elem_of_singleton in Hin.
    apply Hp, provider_name_inj. exact Hin.
  - intros (urls & _ & Hin). exfalso. apply Hp. now apply (Hlog p urls).
Qed.

Lemma listed_after_scrape (st st' : Cascade) (p : Provider) (urls : list string) :
  p <> Brave -> urls <> [] ->
  engines_used st' = engines_used st ++ [provider_name p] ->
  scrape_log st' = scrape_log st ++ [(p, urls)] ->
  listed_iff_scraped st -> listed_iff_scraped st'.
Proof.
  intros Hp Hurls He Hl Hok p' Hp'. rewrite He, Hl. split.
  - intros Hin. apply elem_of_app in Hin as [Hin | Hin].
    + apply (Hok p' Hp') in Hin as (us & Hus & Hin).
      exists us. split; [assumption|]. apply elem_of_app. now left.
    + apply list_elem_of_singleton, provider_name_inj in Hin as ->.
      exists urls. split; [assumption|]. apply elem_of_app. right.
      now apply list_elem_of_singleton.
  - intros (us & Hus & Hin). apply elem_of_app in Hin as [Hin | Hin].
    + apply elem_of_app. left. apply (Hok p' Hp'). now exists us.
    + apply list_elem_of_singleton in Hin. injection Hin as -> ->.
      apply elem_of_app. right. now apply list_elem_of_singleton.
Qed.

Lemma listed_unchanged (st st' : Cascade) :
  engines_used st' = engines_used st ->
  scrape_log st' = scrape_log st ->
  listed_iff_scraped st -> listed_iff_scraped st'.
Proof. intros He Hl Hok p Hp. rewrite He, Hl. now apply Hok. Qed.

(** The Brave block returns, and sets the invariant up. *)
Lemma brave_stage_inv (w : World) (q : string) (k search_k m : Z) :
  0 < m ->
  exists st brave_failed,
    brave_stage w q k search_k m = inr (st, brave_failed)
    /\ cascade_inv k st
    /\ listed_iff_scraped st.
Proof.
  intros Hm. unfold brave_stage. cbv zeta.
  destruct (dedupe_spec (urls_or_empty (search_urls w Brave q search_k)) ∅ [])
    as (added & -> & Hsub & Hnd & Hfresh & Hcov).
  cbn [app].
  set (st0 := {| valid_results := [];
                 seen_normalized := ∅ ∪ list_to_set (normalize_url <$> added);
                 engines_used := []; polls := 0%nat; scrape_log := [] |}).
  assert (Hinv0 : cascade_inv k st0).
  { split; cbn; try constructor.
    - unfold len. cbn. lia.
    - intros u Hu. inversion Hu. }
  assert (Hnew : forall n u, u ∈ added ->
            normalize_url u ∈ seen_normalized (set_polls st0 n)
            /\ forall v, v ∈ scraped_urls (set_polls st0 n) ->
                         normalize_url u <> normalize_url v).
  { intros n u Hu. split.
    - cbn. apply elem_of_union. right. apply elem_of_list_to_set.
      apply list_elem_of_fmap. now exists u.
    - intros v Hv. inversion Hv. }
  assert (Hroom : forall n, 1 <= k -> len (valid_results (set_polls st0 n)) < k).
  { intros n Hk. unfold len. cbn. lia. }
  assert (Hrun : forall n,
            exists st,
              (do '(st, _) <- scrape_and_filter w Brave k m added (set_polls st0 n);
               inr st) = inr st
              /\ cascade_inv k st
              /\ forall p urls, (p, urls) ∈ scrape_log st -> p = Brave).
  { intros n.
    destruct (scrape_and_filter_inv w Brave k m added (set_polls st0 n) Hm
                (cascade_inv_set_polls k st0 n Hinv0) Hnd (Hnew n) (Hroom n))
      as (st' & -> & Hinv' & _ & Hlog).
    exists st'. split; [reflexivity|]. split; [assumption|].
    intros p urls Hin. rewrite Hlog in Hin. cbn in Hin.
    apply list_elem_of_singleton in Hin. congruence. }
  assert (Hengines : forall st : Cascade,
            (if 0 <? len (valid_results st) then ["brave"] else [])
            = ([] : list string)
            \/ (if 0 <? len (valid_results st) then ["brave"] else [])
               = ["brave"]).
  { intros st. destruct (0 <? len (valid_results st)); [now right | now left]. }
  assert (Hnolog : forall n p urls,
            (p, urls) ∈ scrape_log (set_polls st0 n) -> p = Brave).
  { intros n p urls Hin. inversion Hin. }
  destruct added as [|u0 rest] eqn:Hadded.
  - cbn [bind]. do 2 eexists. split; [reflexivity|].
    split; [now apply cascade_inv_set_engines|].
    apply listed_after_brave; [apply Hengines | apply (Hnolog 0%nat)].
  - rewrite <- Hadded in *.
    destruct (deadline_checked w).
    + destruct (should_return_partial_results w 0%nat).
      * cbn [bind]. do 2 eexists. split; [reflexivity|].
        split; [now apply cascade_inv_set_engines, cascade_inv_set_polls|].
        apply listed_after_brave; [apply Hengines | apply (Hnolog 1%nat)].
      * destruct (Hrun 1%nat) as (st & -> & Hinv & Hlog). cbn [bind].
        do 2 eexists. split; [reflexivity|].
        split; [now apply cascade_inv_set_engines|].
        apply listed_after_brave; [apply Hengines | exact Hlog].
    + destruct (Hrun 0%nat) as (st & Hst & Hinv & Hlog).
      change (set_polls st0 0) with st0 in Hst. rewrite Hst. cbn [bind].
      do 2 eexists. split; [reflexivity|].
      split; [now apply cascade_inv_set_engines|].
      apply listed_after_brave; [apply Hengines | exact Hlog].
Qed.

(** A fallback block returns, and keeps the invariant. *)
Lemma fallback_stage_inv (w : World) (p : Provider) (q : string)
    (k search_k m shortage : Z) (failed : bool) (st : Cascade) :
  0 < m ->
  cascade_inv k st ->
  exists st',
    fallback_stage w p q k search_k m shortage failed st = inr st'
    /\ cascade_inv k st'
    /\ (p <> Brave -> listed_iff_scraped st -> listed_iff_scraped st').
Proof.
  intros Hm Hinv. unfold fallback_stage. cbv zeta.
  destruct ((0 <? k - len (valid_results st))
            && (failed || (shortage <? k - len (valid_results st))))%bool eqn:Hgo;
    [|now exists st].
  apply andb_true_iff in Hgo as [Hneed _]. apply Z.ltb_lt in Hneed.
  set (wanted := if failed then search_k
                 else with_buffer (k - len (valid_results st))).
  destruct (dedupe_spec (urls_or_empty (search_urls w p q wanted))
              (seen_normalized st) [])
    as (added & -> & Hsub & Hnd & Hfresh & Hcov).
  cbn [app].
  set (seen' := seen_normalized st ∪ list_to_set (normalize_url <$> added)).
  assert (Hinv' : cascade_inv k (set_seen st seen')).
  { apply cascade_inv_set_seen; [|assumption]. apply union_subseteq_l. }
  assert (Hnew : forall n u, u ∈ added ->
            normalize_url u ∈ seen_normalized (set_polls (set_seen st seen') n)
            /\ forall v, v ∈ scraped_urls (set_polls (set_seen st seen') n) ->
                         normalize_url u <> normalize_url v).
  { intros n u Hu. split.
    - cbn. apply elem_of_union. right. apply elem_of_list_to_set.
      apply list_elem_of_fmap. now exists u.
    - intros v Hv Heq. destruct (Hfresh u Hu) as [Hnot _]. apply Hnot.
      rewrite Heq. now apply (inv_seen k st Hinv). }
  assert (Hroom : forall n,
            1 <= k -> len (valid_results (set_polls (set_seen st seen') n)) < k).
  { intros n _. cbn. lia. }
  assert (Hrun : forall n,
            added <> [] ->
            exists st',
              (do '(st1, scraped) <- scrape_and_filter w p k m added
                                       (set_polls (set_seen st seen') n);
               inr (if 0 <? scraped
                    then set_engines st1 (engines_used st1 ++ [provider_name p])
                    else st1)) = inr st'
              /\ cascade_inv k st'
              /\ (p <> Brave -> listed_iff_scraped st -> listed_iff_scraped st')).
  { intros n Hne.
    destruct (scrape_and_filter_inv w p k m added
                (set_polls (set_seen st seen') n) Hm
                (cascade_inv_set_polls k _ n Hinv') Hnd (Hnew n) (Hroom n))
      as (st1 & -> & Hinv1 & He1 & Hl1).
    cbn [bind].
    assert (Hpos : (0 <? len added) = true).
    { apply Z.ltb_lt. unfold len. destruct added; [contradiction | cbn; lia]. }
    rewrite Hpos. eexists. split; [reflexivity|].
    split; [now apply cascade_inv_set_engines|].
    intros Hp. apply (listed_after_scrape st _ p added Hp Hne); [|exact Hl1].
    cbn [engines_used set_engines]. now rewrite He1. }
  destruct added as [|u0 rest] eqn:Hadded.
  - exists (set_seen st seen'). split; [reflexivity|]. split; [assumption|].
    intros _. now apply listed_unchanged.
  - rewrite <- Hadded in *.
    assert (Hne : added <> []) by (rewrite Hadded; discriminate).
    destruct (deadline_checked w).
    + destruct (should_return_partial_results w (polls (set_seen st seen'))).
      * eexists. split; [reflexivity|].
        split; [now apply cascade_inv_set_polls|].
        intros _. now apply listed_unchanged.
      * now apply Hrun.
    + destruct (Hrun (polls st) Hne) as (st' & Hst & Hi).
      exists st'. split; [|assumption]. exact Hst.
Qed.

(** The cascade returns a state for every request, and the state satisfies
    the invariant. *)
Lemma cascade_inv_holds (w : World) (q : string) (k : Z) :
  exists st,
    cascade w q k = inr st /\ cascade_inv k st /\ listed_iff_scraped st.
Proof.
  unfold cascade. cbv zeta.
  set (m := if (has_resource_monitor w && should_reduce_parallelism w)%bool
            then 5 else 11).
  assert (Hm : 0 < m) by (subst m; destruct (_ && _)%bool; lia).
  destruct (brave_stage_inv w q k (with_buffer k) m Hm)
    as (st0 & brave_failed & -> & Hinv0 & Hl0).
  cbn [bind].
  destruct (fallback_stage_inv w Startpage q k (with_buffer k) m
              (if k <=? 10 then 2 else 4) brave_failed st0 Hm Hinv0)
    as (st1 & -> & Hinv1 & Hl1).
  cbn [bind].
  destruct (fallback_stage_inv w Yahoo q k (with_buffer k) m
              (if k <=? 10 then 2 else 4)
              (brave_failed && (len (valid_results st1) =? 0))%bool st1 Hm Hinv1)
    as (st2 & -> & Hinv2 & Hl2).
  cbn [bind].
  destruct (fallback_stage_inv w Yandex q k (with_buffer k) m
              (if k <=? 10 then 2 else 4)
              (brave_failed && (len (valid_results st2) =? 0))%bool st2 Hm Hinv2)
    as (st3 & -> & Hinv3 & Hl3).
  exists st3. split; [reflexivity|]. split; [assumption|].
  apply Hl3; [discriminate|]. apply Hl2; [discriminate|].
  apply Hl1; [discriminate|]. exact Hl0.
Qed.

(** Each fallback provider is among the engines used exactly when a
    non-empty batch of its URLs went to the scraper. *)
Lemma fallback_listed_iff_scraped (w : World) (q : string) (k : Z) :
  exists st, cascade w q k = inr st /\ listed_iff_scraped st.
Proof.
  destruct (cascade_inv_holds w q k) as (st & Hst & _ & Hl). now exists st.
Qed.

Lemma slice_to_sublist {A : Type} (l : list A) (k : Z) : sublist (slice_to l k) l.
Proof. unfold slice_to. destruct (0 <=? k); apply sublist_take. Qed.

Lemma slice_to_all {A : Type} (l : list A) (k : Z) :
  len l <= k -> slice_to l k = l.
Proof.
  unfold slice_to, len. intros Hk.
  rewrite (proj2 (Z.leb_le 0 k)) by lia. apply take_ge. lia.
Qed.

Lemma slice_to_len {A : Type} (l : list A) (k : Z) :
  0 <= k -> len (slice_to l k) <= k.
Proof.
  unfold slice_to, len. intros Hk.
  rewrite (proj2 (Z.leb_le 0 k)) by lia. rewrite length_take. lia.
Qed.

(** The loop over a batch never takes the accepted list beyond [k], whatever
    the batch holds. *)
Lemma evaluate_bound (w : World) (check : bool) (k : Z)
    (scraped : list (option ScrapedContent)) :
  forall (valid : list ScrapedContent) (polls0 : nat)
         (valid' : list ScrapedContent) (polls1 : nat),
    len valid < k ->
    evaluate w check k scraped valid polls0 = inr (valid', polls1) ->
    len valid' <= k.
Proof.
  unfold len.
  induction scraped as [|[c|] rest IH]; intros valid polls0 valid' polls1 Hlt.
  - cbn [evaluate]. intros [= <- _]. lia.
  - cbn [evaluate].
    destruct (is_valid_result c); cbn [andb].
    + destruct (k <=? len (valid ++ [c])) eqn:Hk; unfold len in Hk.
      * intros [= <- _]. rewrite length_app. cbn [length]. lia.
      * apply Z.leb_gt in Hk.
        destruct check; [destruct (should_return_partial_results w polls0)|].
        -- intros [= <- _]. lia.
        -- now apply IH.
        -- now apply IH.
    + destruct check; [destruct (should_return_partial_results w polls0)|].
      * intros [= <- _]. lia.
      * now apply IH.
      * now apply IH.
  - cbn [evaluate]. discriminate.
Qed.

Lemma content_search_returns (w : World) (q : string) (k : Z) :
  exists st,
    cascade w q k = inr st /\ cascade_inv k st
    /\ content_search w q k
       = inr {| query := q; engine := actual_engine (engines_used st);
                results := slice_to (valid_results st) k |}.
Proof.
  destruct (cascade_inv_holds w q k) as (st & Hst & Hinv & _).
  exists st. split; [assumption|]. split; [assumption|].
  unfold content_search. now rewrite Hst.
Qed.

Lemma search_and_scrape_content (w : World) (q : string) (k : Z)
    (r : SearchAndScrapeResult) :
  browser_start_error w = None ->
  content_search w q k = inr r ->
  search_and_scrape w q k "brave" false = inr r.
Proof.
  intros Hb Hr. unfold search_and_scrape. cbn [String.eqb negb].
  change (negb ("brave" =? "brave")%string) with false. cbv iota.
  now rewrite Hb, Hr.
Qed.

(** C1: for every valid content request the result holds at most [k] items:
    the loop over each scraped batch stops as soon as [k] items are
    accepted, so the accepted list never grows beyond [k], and the final
    slice [valid_results[:k]] has at most [k] elements. *)
Theorem search_and_scrape_at_most_k (w : World) (q : string) (k : Z) :
  ContentSearchRequest.validate
    {| ContentSearchRequest.query := Some q; ContentSearchRequest.k := k;
       ContentSearchRequest.engine := "brave" |} = inr tt ->
  browser_start_error w = None ->
  (exists r st,
      search_and_scrape w q k "brave" false = inr r
      /\ cascade w q k = inr st
      /\ len (valid_results st) <= k
      /\ results r = slice_to (valid_results st) k
      /\ len (results r) <= k)
  /\ (forall check scraped valid polls0 valid' polls1,
        len valid < k ->
        evaluate w check k scraped valid polls0 = inr (valid', polls1) ->
        len valid' <= k).
Proof.
  intros Hvalid Hbrowser.
  assert (Hk : 1 <= k).
  { destruct (Z.lt_ge_cases k 1) as [Hlt | Hge]; [|assumption].
    exfalso.
    assert (Hbad : malformed
                     {| ContentSearchRequest.query := Some q;
                        ContentSearchRequest.k := k;
                        ContentSearchRequest.engine := "brave" |}).
    { right. right. left. exact Hlt. }
    apply validate_rejects_iff in Hbad as [msg Hmsg]. congruence. }
  split; [|intros; eapply evaluate_bound; eassumption].
  destruct (content_search_returns w q k) as (st & Hst & Hinv & Hr).
  eexists. exists st.
  split; [apply search_and_scrape_content; [assumption | exact Hr]|].
  split; [assumption|].
  pose proof (inv_bound k st Hinv Hk) as Hb.
  split; [assumption|]. split; [reflexivity|].
  cbn [results]. apply slice_to_len. lia.
Qed.

Example sample_world_run :
  match search_and_scrape sample_world "rust ownership" 2 "brave" false with
  | inr r =>
      engine r = "brave"
      /\ url <$> results r = ["https://doc.rust-lang.org/book/ch04-00.html";
                              "https://example.org/ownership"]
  | inl _ => False
  end.
Proof. vm_compute. split; reflexivity. Qed.

Lemma search_and_scrape_at_most_k_witness :
  (exists r st,
      search_and_scrape sample_world "rust ownership" 2 "brave" false = inr r
      /\ cascade sample_world "rust ownership" 2 = inr st
      /\ len (valid_results st) <= 2
      /\ results r = slice_to (valid_results st) 2
      /\ len (results r) <= 2)
  /\ (forall check scraped valid polls0 valid' polls1,
        len valid < 2 ->
        evaluate sample_world check 2 scraped valid polls0 = inr (valid', polls1) ->
        len valid' <= 2).
Proof.
  apply (search_and_scrape_at_most_k sample_world "rust ownership" 2);
    reflexivity.
Defined.

(** C2, at the failing input: Brave returns one URL, the page times out, no
    other provider returns anything. Brave's URL was scraped, yet Brave is
    not among the engines used and the composite identifier is ["none"];
    when the same happens to Startpage instead, Startpage is listed. *)
Theorem brave_attempt_not_listed :
  match cascade (timeout_world Brave) "rust ownership" 5,
        search_and_scrape (timeout_world Brave) "rust ownership" 5 "brave" false
  with
  | inr st, inr r =>
      scrape_log st = [(Brave, ["https://example.org/article"])]
      /\ engines_used st = []
      /\ engine r = "none" /\ results r = []
  | _, _ => False
  end
  /\ match cascade (timeout_world Startpage) "rust ownership" 5,
           search_and_scrape (timeout_world Startpage) "rust ownership" 5
             "brave" false
     with
     | inr st, inr r =>
         scrape_log st = [(Startpage, ["https://example.org/article"])]
         /\ engines_used st = ["startpage"]
         /\ engine r = "startpage" /\ results r = []
     | _, _ => False
     end.
Proof. vm_compute. repeat split. Qed.

(** ** The quality gate *)

Lemma not_contains_iff (x s : string) :
  negb (PyStr.contains x s) = true <-> ~ occurs_in x s.
Proof.
  rewrite negb_true_iff, <- contains_iff.
  destruct (PyStr.contains x s); split; intros H; congruence.
Qed.

Lemma is_llm_readable_iff (text : string) :
  is_llm_readable text = true
  <-> (10 <= String.length text)%nat
      /\ 7 * Z.of_nat (String.length text)
         <= 10 * Z.of_nat (alphanumeric_count text).
Proof.
  unfold is_llm_readable.
  destruct (String.eqb_spec text "") as [-> | Hne]; cbn [orb].
  - split; [discriminate | cbn; lia].
  - destruct (Nat.ltb_spec (String.length text) 10) as [Hlt | Hge].
    + split; [discriminate | lia].
    + cbv zeta. rewrite Z.leb_le. split; [now split | tauto].
Qed.

Lemma is_valid_result_iff (c : ScrapedContent) :
  is_valid_result c = true <-> passed_quality_gate c.
Proof.
  unfold is_valid_result, passed_quality_gate.
  rewrite !andb_true_iff, !not_contains_iff, is_llm_readable_iff, Z.leb_le.
  tauto.
Qed.

(** C4: every item of the result passed the content quality gate: its
    fetch succeeded, it has at least 50 words, its title contains none of
    the four error markers, and its text has at least 10 characters of
    which at least 70% are alphanumeric or whitespace. In particular no
    item with fewer than 50 words is in the result, for any [k] and any
    provider. *)
Theorem accepted_items_passed_gate (w : World) (q : string) (k : Z) :
  exists r,
    content_search w q k = inr r
    /\ (browser_start_error w = None ->
        search_and_scrape w q k "brave" false = inr r)
    /\ Forall passed_quality_gate (results r)
    /\ (forall c, c ∈ results r -> ~ word_count c < 50).
Proof.
  destruct (content_search_returns w q k) as (st & Hst & Hinv & Hr).
  eexists. split; [exact Hr|].
  split; [intros Hb; now apply search_and_scrape_content|].
  assert (Hall : Forall passed_quality_gate (slice_to (valid_results st) k)).
  { eapply Forall_impl; [|intros c Hc; apply is_valid_result_iff; exact Hc].
    apply Forall_forall. intros c Hc.
    pose proof (inv_valid k st Hinv) as Hv. rewrite Forall_forall in Hv.
    apply Hv. eapply elem_of_sublist; [exact Hc | apply slice_to_sublist]. }
  split; [exact Hall|].
  cbn [results]. intros c Hc.
  rewrite Forall_forall in Hall. destruct (Hall c Hc) as (_ & Hw & _). lia.
Qed.

(** ** Duplicates *)

(** C5: no two items of the result share a normalized URL. The URLs handed
    to the scraper during one cascade, all providers together, have
    pairwise distinct normal forms, and the result's URLs are picked from
    them in order. Each filter pass returns the seen set enlarged by what
    it admitted, admits only URLs whose normal form was not in the set it
    was given, and keeps the provider's order. *)
Theorem accepted_urls_distinct (w : World) (q : string) (k : Z) :
  (exists r st,
      content_search w q k = inr r
      /\ cascade w q k = inr st
      /\ NoDup (normalize_url <$> (url <$> results r))
      /\ NoDup (normalize_url <$> scraped_urls st)
      /\ sublist (url <$> results r) (scraped_urls st))
  /\ (forall (urls : list string) (seen : gset string),
        exists kept,
          dedupe urls seen []
          = (seen ∪ list_to_set (normalize_url <$> kept), kept)
          /\ sublist kept urls
          /\ NoDup (normalize_url <$> kept)
          /\ (forall u, u ∈ kept -> normalize_url u ∉ seen)).
Proof.
  split.
  - destruct (content_search_returns w q k) as (st & Hst & Hinv & Hr).
    eexists. exists st. split; [exact Hr|]. split; [exact Hst|].
    cbn [results].
    assert (Hsub : sublist (url <$> slice_to (valid_results st) k)
                     (scraped_urls st)).
    { etransitivity; [|apply (inv_from_log k st Hinv)].
      apply fmap_sublist, slice_to_sublist. }
    split; [|split; [apply (inv_nodup k st Hinv) | exact Hsub]].
    apply (sublist_NoDup _ (normalize_url <$> scraped_urls st)).
    + apply (inv_nodup k st Hinv).
    + apply fmap_sublist. exact Hsub.
  - intros urls seen.
    destruct (dedupe_spec urls seen []) as (added & Hd & Hsub & Hnd & Hfresh & _).
    exists added. split; [exact Hd|]. split; [assumption|].
    split; [assumption|]. intros u Hu. now destruct (Hfresh u Hu).
Qed.

(** * Further properties *)

(** ** The shape of a cascade run *)

Lemma scrape_and_filter_shape (w : World) (p : Provider) (k m : Z)
    (urls : list string) (st : Cascade) :
  0 < m ->
  exists st',
    scrape_and_filter w p k m urls st = inr (st', len urls)
    /\ seen_normalized st' = seen_normalized st
    /\ engines_used st' = engines_used st
    /\ scrape_log st' = scrape_log st ++ [(p, urls)]
    /\ exists extra,
         valid_results st' = valid_results st ++ extra
         /\ sublist (url <$> extra) urls.
Proof.
  intros Hm. unfold scrape_and_filter.
  rewrite scrape_parallel_playwright_items by assumption. cbn [bind].
  set (items := imap (fun i u => snd (scrape_in_new_tab (open_tab w p) u i)) urls).
  destruct (evaluate_spec w (deadline_checked w) k items (valid_results st) (polls st))
    as (extra & polls1 & -> & Hsub & _ & _).
  cbn [bind]. eexists. split.
  { f_equal. f_equal. unfold len. f_equal.
    rewrite length_fmap. subst items. apply length_imap. }
  cbn [seen_normalized engines_used scrape_log valid_results].
  split; [reflexivity|]. split; [reflexivity|]. split; [reflexivity|].
  exists extra. split; [reflexivity|].
  rewrite <- (scraped_items_urls (open_tab w p) urls). fold items.
  now apply fmap_sublist.
Qed.

Lemma brave_stage_shape (w : World) (q : string) (k search_k m : Z) :
  0 < m ->
  exists st brave_failed,
    brave_stage w q k search_k m = inr (st, brave_failed)
    /\ brave_shape w q search_k st brave_failed.
Proof.
  intros Hm. unfold brave_stage, brave_shape. cbv zeta.
  destruct (dedupe (urls_or_empty (search_urls w Brave q search_k)) ∅ [])
    as [seen added] eqn:Hd.
  cbn [fst snd].
  set (st0 := {| valid_results := []; seen_normalized := seen;
                 engines_used := []; polls := 0%nat; scrape_log := [] |}).
  assert (Hrun : forall n,
            added <> [] ->
            (deadline_checked w = false
             \/ should_return_partial_results w 0%nat = false) ->
            exists st,
              (do '(st, _) <- scrape_and_filter w Brave k m added (set_polls st0 n);
               inr st) = inr st
              /\ seen_normalized st = seen
              /\ scrape_log st = [(Brave, added)]
              /\ sublist (url <$> valid_results st) added).
  { intros n Hne Hgo.
    destruct (scrape_and_filter_shape w Brave k m added (set_polls st0 n) Hm)
      as (st' & -> & Hseen & _ & Hlog & extra & Hvalid & Hsub).
    exists st'. cbn [bind]. split; [reflexivity|].
    split; [exact Hseen|]. split; [exact Hlog|].
    rewrite Hvalid. exact Hsub. }
  destruct added as [|u0 rest] eqn:Hadded.
  - cbn [bind]. do 2 eexists. split; [reflexivity|].
    cbn. repeat split. left. repeat split. now left.
  - rewrite <- Hadded in *.
    assert (Hne : added <> []) by (rewrite Hadded; discriminate).
    destruct (deadline_checked w) eqn:Hc.
    + destruct (should_return_partial_results w 0%nat) eqn:Hp.
      * cbn [bind]. do 2 eexists. split; [reflexivity|].
        cbn. repeat split. left. repeat split. right. now split.
      * destruct (Hrun 1%nat Hne (or_intror eq_refl)) as (st & -> & Hs & Hl & Hv).
        cbn [bind]. do 2 eexists. split; [reflexivity|].
        cbn [seen_normalized engines_used valid_results scrape_log set_engines].
        split; [exact Hs|]. split; [reflexivity|]. split; [reflexivity|].
        right. split; [exact Hne|]. split; [now right|]. now split.
    + destruct (Hrun 0%nat Hne (or_introl eq_refl)) as (st & Hst & Hs & Hl & Hv).
      change (set_polls st0 0) with st0 in Hst. rewrite Hst.
      cbn [bind]. do 2 eexists. split; [reflexivity|].
      cbn [seen_normalized engines_used valid_results scrape_log set_engines].
      split; [exact Hs|]. split; [reflexivity|]. split; [reflexivity|].
      right. split; [exact Hne|]. split; [now left|]. now split.
Qed.

Lemma fallback_stage_shape (w : World) (p : Provider) (q : string)
    (k search_k m shortage : Z) (failed : bool) (st : Cascade) :
  0 < m ->
  exists st',
    fallback_stage w p q k search_k m shortage failed st = inr st'
    /\ fallback_shape w p q k search_k shortage failed st st'.
Proof.
  intros Hm. unfold fallback_stage, fallback_shape. cbv zeta.
  destruct ((0 <? k - len (valid_results st))
            && (failed || (shortage <? k - len (valid_results st))))%bool eqn:Hgo.
  2: { exists st. split; [reflexivity|]. now left. }
  set (wanted := if failed then search_k
                 else with_buffer (k - len (valid_results st))).
  destruct (dedupe (urls_or_empty (search_urls w p q wanted))
              (seen_normalized st) []) as [seen added] eqn:Hd.
  cbn [fst snd].
  assert (Hrun : forall n,
            added <> [] ->
            (deadline_checked w = false
             \/ should_return_partial_results w (polls st) = false) ->
            exists st',
              (do '(st1, scraped) <- scrape_and_filter w p k m added
                                       (set_polls (set_seen st seen) n);
               inr (if 0 <? scraped
                    then set_engines st1 (engines_used st1 ++ [provider_name p])
                    else st1)) = inr st'
              /\ seen_normalized st' = seen
              /\ engines_used st' = engines_used st ++ [provider_name p]
              /\ scrape_log st' = scrape_log st ++ [(p, added)]
              /\ exists extra,
                   valid_results st' = valid_results st ++ extra
                   /\ sublist (url <$> extra) added).
  { intros n Hne _.
    destruct (scrape_and_filter_shape w p k m added
                (set_polls (set_seen st seen) n) Hm)
      as (st1 & -> & Hseen & Heng & Hlog & extra & Hvalid & Hsub).
    cbn [bind].
    assert (Hpos : (0 <? len added) = true).
    { apply Z.ltb_lt. unfold len. destruct added; [contradiction | cbn; lia]. }
    rewrite Hpos. eexists. split; [reflexivity|].
    cbn [seen_normalized engines_used scrape_log valid_results set_engines].
    split; [exact Hseen|]. split; [now rewrite Heng|]. split; [exact Hlog|].
    exists extra. now split. }
  destruct added as [|u0 rest] eqn:Hadded.
  - exists (set_seen st seen). split; [reflexivity|]. right.
    split; [reflexivity|]. split; [reflexivity|]. left.
    repeat split. now left.
  - rewrite <- Hadded in *.
    assert (Hne : added <> []) by (rewrite Hadded; discriminate).
    destruct (deadline_checked w) eqn:Hc.
    + cbn [polls set_seen].
      destruct (should_return_partial_results w (polls st)) eqn:Hp.
      * eexists. split; [reflexivity|]. right.
        split; [reflexivity|]. split; [reflexivity|]. left.
        repeat split. right. now split.
      * destruct (Hrun (S (polls st)) Hne (or_intror eq_refl))
          as (st' & Hst & Hs & He & Hl & Hx).
        exists st'. split; [exact Hst|]. right.
        split; [reflexivity|]. split; [exact Hs|]. right.
        split; [exact Hne|]. split; [now right|]. now split.
    + destruct (Hrun (polls st) Hne (or_introl eq_refl))
        as (st' & Hst & Hs & He & Hl & Hx).
      exists st'. split; [exact Hst|]. right.
      split; [reflexivity|]. split; [exact Hs|]. right.
      split; [exact Hne|]. split; [now left|]. now split.
Qed.

Lemma cascade_has_shape (w : World) (q : string) (k : Z) :
  exists st, cascade w q k = inr st /\ cascade_shape w q k st.
Proof.
  unfold cascade, cascade_shape. cbv zeta.
  set (m := if (has_resource_monitor w && should_reduce_parallelism w)%bool
            then 5 else 11).
  assert (Hm : 0 < m) by (subst m; destruct (_ && _)%bool; lia).
  destruct (brave_stage_shape w q k (with_buffer k) m Hm)
    as (st0 & bf & -> & H0).
  cbn [bind].
  destruct (fallback_stage_shape w Startpage q k (with_buffer k) m
              (if k <=? 10 then 2 else 4) bf st0 Hm) as (st1 & -> & H1).
  cbn [bind].
  destruct (fallback_stage_shape w Yahoo q k (with_buffer k) m
              (if k <=? 10 then 2 else 4)
              (bf && (len (valid_results st1) =? 0))%bool st1 Hm)
    as (st2 & -> & H2).
  cbn [bind].
  destruct (fallback_stage_shape w Yandex q k (with_buffer k) m
              (if k <=? 10 then 2 else 4)
              (bf && (len (valid_results st2) =? 0))%bool st2 Hm)
    as (st3 & -> & H3).
  exists st3. split; [reflexivity|]. now exists st0, bf, st1, st2.
Qed.

(** ** Near the deadline *)

Lemma fallback_shape_near_deadline (w : World) (p : Provider) (q : string)
    (k search_k shortage : Z) (failed : bool) (st st' : Cascade) :
  deadline_checked w = true ->
  (forall n, should_return_partial_results w n = true) ->
  fallback_shape w p q k search_k shortage failed st st' ->
  valid_results st' = valid_results st
  /\ engines_used st' = engines_used st
  /\ scrape_log st' = scrape_log st.
Proof.
  intros Hc Hp [[_ ->] | (_ & _ & [(Hv & He & Hl & _) | (_ & Hgo & _)])].
  - now repeat split.
  - now repeat split.
  - exfalso. destruct Hgo as [Hgo | Hgo]; [congruence|].
    rewrite Hp in Hgo. discriminate.
Qed.

(** X1. With a resource monitor and a Lambda context, a deadline probe that
    answers "near" every time it is asked keeps every batch from being
    scraped: the providers are still searched, but no page is fetched, the
    result is empty and the engine is ["none"]. *)
Theorem near_deadline_scrapes_nothing (w : World) (q : string) (k : Z) :
  deadline_checked w = true ->
  (forall n, should_return_partial_results w n = true) ->
  exists r st,
    content_search w q k = inr r
    /\ cascade w q k = inr st
    /\ scrape_log st = []
    /\ results r = []
    /\ engine r = "none".
Proof.
  intros Hc Hp.
  destruct (cascade_has_shape w q k) as (st & Hst & st0 & bf & st1 & st2 & Hshape).
  cbv zeta in Hshape. destruct Hshape as (H0 & H1 & H2 & H3).
  destruct H0 as (_ & _ & He0 & [(Hv0 & Hl0 & _) | (_ & Hgo & _)]).
  2: { exfalso. destruct Hgo as [Hgo | Hgo]; [congruence|].
       rewrite Hp in Hgo. discriminate. }
  rewrite Hv0 in He0. change (engines_used st0 = []) in He0.
  destruct (fallback_shape_near_deadline _ _ _ _ _ _ _ _ _ Hc Hp H1)
    as (Hv1 & He1 & Hl1).
  destruct (fallback_shape_near_deadline _ _ _ _ _ _ _ _ _ Hc Hp H2)
    as (Hv2 & He2 & Hl2).
  destruct (fallback_shape_near_deadline _ _ _ _ _ _ _ _ _ Hc Hp H3)
    as (Hv3 & He3 & Hl3).
  assert (Hv : valid_results st = []) by congruence.
  assert (He : engines_used st = []) by congruence.
  assert (Hl : scrape_log st = []) by congruence.
  eexists. exists st. unfold content_search. rewrite Hst. cbn [bind].
  split; [reflexivity|]. split; [reflexivity|]. split; [exact Hl|].
  cbn [results engine]. rewrite Hv, He. split; [|reflexivity].
  unfold slice_to. now destruct (0 <=? k); rewrite take_nil.
Qed.

Lemma near_deadline_scrapes_nothing_witness :
  exists r st,
    content_search
      {| has_resource_monitor := true; has_lambda_context := true;
         should_reduce_parallelism := false;
         should_return_partial_results := fun _ => true;
         browser_start_error := None;
         search_urls := search_urls sample_world;
         search_images := fun _ _ => [];
         open_tab := open_tab sample_world |} "rust ownership" 5 = inr r
    /\ cascade
         {| has_resource_monitor := true; has_lambda_context := true;
            should_reduce_parallelism := false;
            should_return_partial_results := fun _ => true;
            browser_start_error := None;
            search_urls := search_urls sample_world;
            search_images := fun _ _ => [];
            open_tab := open_tab sample_world |} "rust ownership" 5 = inr st
    /\ scrape_log st = []
    /\ results r = []
    /\ engine r = "none".
Proof.
  apply near_deadline_scrapes_nothing; [reflexivity | intros n; reflexivity].
Defined.

(** ** The engines used *)

Lemma fallback_shape_engines (w : World) (p : Provider) (q : string)
    (k search_k shortage : Z) (failed : bool) (st st' : Cascade) :
  fallback_shape w p q k search_k shortage failed st st' ->
  exists listed : bool,
    engines_used st' = engines_used st ++ (if listed then [provider_name p] else [])
    /\ (listed = false -> valid_results st' = valid_results st).
Proof.
  intros [[_ ->] | (_ & _ & [(Hv & He & _) | (_ & _ & He & _)])].
  - exists false. now rewrite app_nil_r.
  - exists false. now rewrite app_nil_r.
  - exists true. split; [exact He | discriminate].
Qed.

(** The engines used after a run: one optional entry per provider, in the
    order of the cascade; without any entry nothing was accepted. *)
Lemma cascade_engines (w : World) (q : string) (k : Z) :
  exists st (b0 b1 b2 b3 : bool),
    cascade w q k = inr st
    /\ engines_used st
       = (if b0 then ["brave"] else []) ++ (if b1 then ["startpage"] else [])
         ++ (if b2 then ["yahoo"] else []) ++ (if b3 then ["yandex"] else [])
    /\ (engines_used st = [] -> valid_results st = []).
Proof.
  destruct (cascade_has_shape w q k) as (st & Hst & st0 & bf & st1 & st2 & Hshape).
  cbv zeta in Hshape. destruct Hshape as (H0 & H1 & H2 & H3).
  destruct H0 as (_ & _ & He0 & _).
  destruct (fallback_shape_engines _ _ _ _ _ _ _ _ _ H1) as (b1 & He1 & Hv1).
  destruct (fallback_shape_engines _ _ _ _ _ _ _ _ _ H2) as (b2 & He2 & Hv2).
  destruct (fallback_shape_engines _ _ _ _ _ _ _ _ _ H3) as (b3 & He3 & Hv3).
  exists st, (0 <? len (valid_results st0)), b1, b2, b3.
  split; [exact Hst|]. split.
  - rewrite He3, He2, He1, He0. cbn [provider_name].
    now rewrite <- !app_assoc.
  - rewrite He3, He2, He1, He0. intros Hnil.
    apply app_nil in Hnil as [Hnil Hn3].
    apply app_nil in Hnil as [Hnil Hn2].
    apply app_nil in Hnil as [Hn0 Hn1].
    destruct b3; [discriminate|]. destruct b2; [discriminate|].
    destruct b1; [discriminate|].
    rewrite Hv3, Hv2, Hv1 by reflexivity.
    destruct (0 <? len (valid_results st0)) eqn:Hpos; [discriminate|].
    apply Z.ltb_ge in Hpos. unfold len in Hpos.
    destruct (valid_results st0); [reflexivity | cbn in Hpos; lia].
Qed.

(** X2. The engine of a content result is ["none"] only when the result
    has no items, and exactly when no provider is among the engines used. *)
Theorem engine_none_means_no_results (w : World) (q : string) (k : Z) :
  exists r st,
    content_search w q k = inr r
    /\ cascade w q k = inr st
    /\ (engine r = "none" <-> engines_used st = [])
    /\ (engine r = "none" -> results r = []).
Proof.
  destruct (cascade_engines w q k) as (st & b0 & b1 & b2 & b3 & Hst & He & Hv).
  eexists. exists st. unfold content_search. rewrite Hst. cbn [bind].
  split; [reflexivity|]. split; [reflexivity|]. cbn [engine results].
  assert (Hiff : actual_engine (engines_used st) = "none" <-> engines_used st = []).
  { rewrite He.
    destruct b0, b1, b2, b3; cbv; split; intros H;
      first [reflexivity | discriminate H]. }
  split; [exact Hiff|]. intros Hnone.
  rewrite (Hv (proj1 Hiff Hnone)).
  unfold slice_to. now destruct (0 <=? k); rewrite take_nil.
Qed.

(** X3. The engines used are listed in the order of the cascade, each at
    most once: the list is a sublist of brave, startpage, yahoo, yandex. *)
Theorem engines_in_priority_order (w : World) (q : string) (k : Z) :
  exists r st,
    content_search w q k = inr r
    /\ cascade w q k = inr st
    /\ engine r = actual_engine (engines_used st)
    /\ sublist (engines_used st) (provider_name <$> priority_order)
    /\ NoDup (engines_used st).
Proof.
  destruct (cascade_engines w q k) as (st & b0 & b1 & b2 & b3 & Hst & He & _).
  eexists. exists st. unfold content_search. rewrite Hst. cbn [bind].
  split; [reflexivity|]. split; [reflexivity|]. split; [reflexivity|].
  assert (Hsub : sublist (engines_used st) (provider_name <$> priority_order)).
  { rewrite He. cbn.
    destruct b0, b1, b2, b3; cbn; repeat (constructor || apply sublist_cons). }
  split; [exact Hsub|].
  eapply (sublist_NoDup _ (provider_name <$> priority_order)); [|exact Hsub].
  cbn. repeat (apply NoDup_cons; split; [|]); try apply NoDup_nil_2;
    rewrite ?list_elem_of_In; cbn; intuition discriminate.
Qed.

(** ** Which items are accepted *)

Lemma evaluate_unchecked (w : World) (k : Z) (items : list ScrapedContent) :
  forall (valid : list ScrapedContent) (polls0 : nat),
    len valid < k ->
    evaluate w false k (Some <$> items) valid polls0
    = inr (valid ++ take (Z.to_nat (k - len valid))
                      (List.filter is_valid_result items), polls0).
Proof.
  unfold len. induction items as [|c rest IH]; intros valid polls0 Hlt.
  - cbn. now rewrite take_nil, app_nil_r.
  - rewrite fmap_cons. cbn [evaluate List.filter].
    destruct (is_valid_result c); cbn [andb].
    + destruct (k <=? len (valid ++ [c])) eqn:Hk; unfold len in Hk;
        rewrite length_app in Hk; cbn [length] in Hk.
      * apply Z.leb_le in Hk.
        replace (Z.to_nat (k - Z.of_nat (length valid))) with 1%nat by lia.
        cbn [take]. now rewrite take_0.
      * apply Z.leb_gt in Hk.
        rewrite IH by (rewrite length_app; cbn [length]; lia).
        rewrite length_app. cbn [length].
        replace (Z.to_nat (k - Z.of_nat (length valid)))
          with (S (Z.to_nat (k - Z.of_nat (length valid + 1)))) by lia.
        cbn [take]. now rewrite <- app_assoc.
    + now apply IH.
Qed.

(** X4. The loop over a scraped batch accepts the pages that pass the
    quality filter, in the order scraped, until [k] are held: without
    deadline probes exactly the first missing ones, with probes a prefix
    of them. *)
Theorem evaluate_accepts_first_valid (w : World) (k : Z)
    (items : list ScrapedContent) :
  (forall valid polls0,
      len valid < k ->
      evaluate w false k (Some <$> items) valid polls0
      = inr (valid ++ take (Z.to_nat (k - len valid))
                        (List.filter is_valid_result items), polls0))
  /\ (forall check valid polls0 valid' polls1,
        len valid < k ->
        evaluate w check k (Some <$> items) valid polls0 = inr (valid', polls1) ->
        exists extra,
          valid' = valid ++ extra
          /\ extra `prefix_of` take (Z.to_nat (k - len valid))
                                 (List.filter is_valid_result items)).
Proof.
  split; [apply evaluate_unchecked|].
  unfold len. induction items as [|c rest IH];
    intros check valid polls0 valid' polls1 Hlt.
  - cbn. intros [= <- _]. exists []. rewrite app_nil_r.
    split; [reflexivity | apply prefix_nil].
  - rewrite fmap_cons. cbn [evaluate List.filter].
    destruct (is_valid_result c); cbn [andb].
    + assert (Hone : [c] `prefix_of`
                       take (Z.to_nat (k - Z.of_nat (length valid)))
                         (c :: List.filter is_valid_result rest)).
      { replace (Z.to_nat (k - Z.of_nat (length valid)))
          with (S (Z.to_nat (k - Z.of_nat (length valid) - 1))) by lia.
        cbn [take]. apply prefix_cons, prefix_nil. }
      destruct (k <=? len (valid ++ [c])) eqn:Hk; unfold len in Hk;
        rewrite length_app in Hk; cbn [length] in Hk.
      * intros [= <- _]. now exists [c].
      * apply Z.leb_gt in Hk.
        assert (Hgo : forall p,
                  evaluate w check k (Some <$> rest) (valid ++ [c]) p
                  = inr (valid', polls1) ->
                  exists extra,
                    valid' = valid ++ extra
                    /\ extra `prefix_of`
                         take (Z.to_nat (k - Z.of_nat (length valid)))
                           (c :: List.filter is_valid_result rest)).
        { intros p Hp. apply IH in Hp as (extra & -> & Hpre);
            [|rewrite length_app; cbn [length]; lia].
          exists (c :: extra). rewrite <- app_assoc. split; [reflexivity|].
          rewrite length_app in Hpre. cbn [length] in Hpre.
          replace (Z.to_nat (k - Z.of_nat (length valid)))
            with (S (Z.to_nat (k - Z.of_nat (length valid + 1)))) by lia.
          cbn [take]. now apply prefix_cons. }
        destruct check; [|apply Hgo].
        destruct (should_return_partial_results w polls0); [|apply Hgo].
        intros [= <- _]. now exists [c].
    + destruct check; [|now apply IH].
      destruct (should_return_partial_results w polls0); [|now apply IH].
      intros [= <- _]. exists []. rewrite app_nil_r. split; [reflexivity|].
      apply prefix_nil.
Qed.

(** ** When Brave is enough *)

Lemma fallback_stage_skipped (w : World) (p : Provider) (q : string)
    (k search_k m shortage : Z) (st : Cascade) :
  k - len (valid_results st) <= shortage ->
  fallback_stage w p q k search_k m shortage false st = inr st.
Proof.
  intros Hle. unfold fallback_stage. cbv zeta. cbn [orb].
  rewrite (proj2 (Z.ltb_ge shortage (k - len (valid_results st)))) by lia.
  now rewrite andb_false_r.
Qed.

(** X5. Without deadline probes, when Brave returns at least one admissible
    URL and the pages that pass the quality filter leave at most the
    acceptable shortage open (2 for [k <= 10], else 4), no other provider is
    consulted: the result is the first [k] passing Brave pages in the order
    scraped, with engine ["brave"] (["none"] when none passed). *)
Theorem brave_alone_suffices (w : World) (q : string) (k : Z) :
  let added :=
    snd (dedupe (urls_or_empty (search_urls w Brave q (with_buffer k))) ∅ []) in
  let pages :=
    imap (fun i u => snd (scrape_in_new_tab (open_tab w Brave) u i)) added in
  let good := List.filter is_valid_result pages in
  deadline_checked w = false ->
  1 <= k ->
  added <> [] ->
  k - len good <= (if k <=? 10 then 2 else 4) ->
  content_search w q k
  = inr {| query := q;
           engine := if 0 <? len good then "brave" else "none";
           results := take (Z.to_nat k) good |}.
Proof.
  cbv zeta. intros Hc Hk Hne Hshort.
  unfold content_search, cascade. cbv zeta.
  set (m := if (has_resource_monitor w && should_reduce_parallelism w)%bool
            then 5 else 11).
  assert (Hm : 0 < m) by (subst m; destruct (_ && _)%bool; lia).
  unfold brave_stage. cbv zeta.
  destruct (dedupe (urls_or_empty (search_urls w Brave q (with_buffer k))) ∅ [])
    as [seen added] eqn:Hd.
  cbn [snd] in *.
  destruct added as [|u0 rest] eqn:Hadded; [contradiction|].
  rewrite <- Hadded in *.
  set (good := List.filter is_valid_result
                 (imap (fun i u => snd (scrape_in_new_tab (open_tab w Brave) u i))
                    added)) in *.
  rewrite Hc.
  unfold scrape_and_filter.
  rewrite scrape_parallel_playwright_items by assumption. cbn [bind].
  rewrite Hc.
  cbn [valid_results polls seen_normalized engines_used scrape_log].
  rewrite evaluate_unchecked by (unfold len; cbn; lia).
  fold good. cbn [bind app].
  replace (Z.to_nat (k - len (@nil ScrapedContent))) with (Z.to_nat k)
    by (unfold len; cbn; lia).
  assert (Hlen : len (take (Z.to_nat k) good) = Z.min k (len good)).
  { unfold len. rewrite length_take. lia. }
  assert (Hbf : (len added =? 0) = false).
  { apply Z.eqb_neq. unfold len. rewrite Hadded. cbn. lia. }
  rewrite Hbf.
  rewrite fallback_stage_skipped
    by (cbn [valid_results set_engines]; rewrite Hlen;
        destruct (k <=? 10); lia).
  cbn [bind andb].
  rewrite fallback_stage_skipped
    by (cbn [valid_results set_engines]; rewrite Hlen;
        destruct (k <=? 10); lia).
  cbn [bind].
  rewrite fallback_stage_skipped
    by (cbn [valid_results set_engines]; rewrite Hlen;
        destruct (k <=? 10); lia).
  cbn [bind valid_results engines_used set_engines]. f_equal.
  rewrite Hlen.
  assert (Hpos : (0 <? Z.min k (len good)) = (0 <? len good)).
  { destruct (Z.ltb_spec 0 (len good)); [apply Z.ltb_lt | apply Z.ltb_ge]; lia. }
  rewrite Hpos. f_equal.
  - now destruct (0 <? len good).
  - apply slice_to_all. rewrite Hlen. lia.
Qed.

Lemma brave_alone_suffices_witness :
  content_search unhurried_world "rust ownership" 5
  = inr {| query := "rust ownership";
           engine :=
             if 0 <? len (List.filter is_valid_result
                            (imap (fun i u =>
                                     snd (scrape_in_new_tab
                                            (open_tab unhurried_world Brave) u i))
                               (snd (dedupe
                                       (urls_or_empty
                                          (search_urls unhurried_world Brave
                                             "rust ownership" (with_buffer 5)))
                                       ∅ []))))
             then "brave" else "none";
           results :=
             take (Z.to_nat 5)
               (List.filter is_valid_result
                  (imap (fun i u =>
                           snd (scrape_in_new_tab
                                  (open_tab unhurried_world Brave) u i))
                     (snd (dedupe
                             (urls_or_empty
                                (search_urls unhurried_world Brave
                                   "rust ownership" (with_buffer 5)))
                             ∅ [])))) |}.
Proof.
  apply (brave_alone_suffices unhurried_world "rust ownership" 5).
  - reflexivity.
  - lia.
  - vm_compute. discriminate.
  - vm_compute. discriminate.
Defined.

Example unhurried_world_run :
  match content_search unhurried_world "rust ownership" 5 with
  | inr r => engine r = "brave" /\ length (results r) = 3%nat
  | inl _ => False
  end.
Proof. vm_compute. split; reflexivity. Qed.

(** ** Waves *)

Lemma waves_concat (urls : list string) (m : nat) :
  (0 < m)%nat ->
  forall fuel s,
    (length urls - s <= fuel)%nat -> (s <= length urls)%nat ->
    concat (batch_urls_at urls m <$> range_from fuel s (length urls) m)
    = drop s urls.
Proof.
  intros Hm. induction fuel as [|fuel IH]; intros s Hfuel Hs.
  - cbn. rewrite drop_ge by lia. reflexivity.
  - cbn [range_from]. destruct (Nat.ltb_spec s (length urls)) as [Hlt | Hge].
    + rewrite fmap_cons. cbn [concat]. unfold batch_urls_at at 1, slice.
      destruct (Nat.le_gt_cases (s + m) (length urls)) as [Hin | Hout].
      * rewrite IH by lia. rewrite Nat.min_l by lia.
        replace (s + m - s)%nat with m by lia.
        rewrite <- (drop_drop urls m s). apply take_drop.
      * rewrite Nat.min_r by lia. rewrite take_ge by (rewrite length_drop; lia).
        destruct fuel; cbn [range_from fmap list_fmap concat].
        -- now rewrite app_nil_r.
        -- rewrite (proj2 (Nat.ltb_ge (s + m) (length urls))) by lia.
           cbn. now rewrite app_nil_r.
    + cbn. rewrite drop_ge by lia. reflexivity.
Qed.

Lemma waves_sizes (urls : list string) (m : nat) :
  (0 < m)%nat ->
  forall fuel s,
    Forall (fun b => (0 < length b <= m)%nat)
      (batch_urls_at urls m <$> range_from fuel s (length urls) m).
Proof.
  intros Hm. induction fuel as [|fuel IH]; intros s; [constructor|].
  cbn [range_from]. destruct (Nat.ltb_spec s (length urls)) as [Hlt | Hge];
    [|constructor].
  rewrite fmap_cons. constructor; [|apply IH].
  unfold batch_urls_at, slice. rewrite length_take, length_drop. lia.
Qed.

Lemma waves_count (n m : nat) :
  (0 < m)%nat ->
  forall fuel s,
    (n - s <= fuel)%nat ->
    length (range_from fuel s n m) = ((n - s + m - 1) / m)%nat.
Proof.
  intros Hm. induction fuel as [|fuel IH]; intros s Hfuel.
  - cbn. replace (n - s + m - 1)%nat with (m - 1)%nat by lia.
    symmetry. apply Nat.div_small. lia.
  - cbn [range_from]. destruct (Nat.ltb_spec s n) as [Hlt | Hge].
    + cbn [length]. rewrite IH by lia.
      destruct (Nat.le_gt_cases (s + m) n) as [Hin | Hout].
      * replace (n - s + m - 1)%nat with ((n - (s + m) + m - 1) + 1 * m)%nat
          by lia.
        rewrite Nat.div_add by lia. lia.
      * replace (n - (s + m) + m - 1)%nat with (m - 1)%nat by lia.
        replace (n - s + m - 1)%nat with ((n - s - 1) + 1 * m)%nat by lia.
        rewrite Nat.div_add by lia.
        rewrite !Nat.div_small by lia. reflexivity.
    + cbn [length]. replace (n - s + m - 1)%nat with (m - 1)%nat by lia.
      symmetry. apply Nat.div_small. lia.
Qed.

(** X6. For a positive budget the batches of a scraper call are
    consecutive slices of the URL list: each holds between one and
    [max_parallel] URLs, together they are the list in its order, and
    there are [ceil(len(urls) / max_parallel)] of them. *)
Theorem waves_cover_in_order (tab : nat -> string -> TabOutcome)
    (urls : list string) (max_parallel : nat) :
  (0 < max_parallel)%nat ->
  (forall results batch_start,
      scrape_batch tab urls max_parallel results batch_start
      = store_batch results
          (map (fun t => inr t)
             (imap (fun i u => scrape_in_new_tab tab u (batch_start + i))
                (batch_urls_at urls max_parallel batch_start))))
  /\ concat (waves urls max_parallel) = urls
  /\ Forall (fun b => (0 < length b <= max_parallel)%nat) (waves urls max_parallel)
  /\ length (waves urls max_parallel)
     = ((length urls + max_parallel - 1) / max_parallel)%nat.
Proof.
  intros Hm. split; [reflexivity|]. unfold waves. split; [|split].
  - rewrite (waves_concat urls max_parallel Hm) by lia. apply drop_0.
  - now apply waves_sizes.
  - rewrite length_fmap, (waves_count (length urls) max_parallel Hm) by lia.
    now rewrite Nat.sub_0_r.
Qed.

Lemma waves_cover_in_order_witness :
  (forall results batch_start,
      scrape_batch (open_tab sample_world Brave) ["a"; "b"; "c"; "d"; "e"] 2
        results batch_start
      = store_batch results
          (map (fun t => inr t)
             (imap (fun i u =>
                      scrape_in_new_tab (open_tab sample_world Brave) u
                        (batch_start + i))
                (batch_urls_at ["a"; "b"; "c"; "d"; "e"] 2 batch_start))))
  /\ concat (waves ["a"; "b"; "c"; "d"; "e"] 2) = ["a"; "b"; "c"; "d"; "e"]
  /\ Forall (fun b => (0 < length b <= 2)%nat) (waves ["a"; "b"; "c"; "d"; "e"] 2)
  /\ length (waves ["a"; "b"; "c"; "d"; "e"] 2)
     = ((length ["a"; "b"; "c"; "d"; "e"] + 2 - 1) / 2)%nat.
Proof.
  apply (waves_cover_in_order (open_tab sample_world Brave)
           ["a"; "b"; "c"; "d"; "e"] 2).
  lia.
Defined.

Example waves_ex :
  waves ["a"; "b"; "c"; "d"; "e"] 2 = [["a"; "b"]; ["c"; "d"]; ["e"]].
Proof. reflexivity. Qed.

(** ** The text of a scraped page *)

Lemma isspace_space : PyStr.isspace " " = true.
Proof. reflexivity. Qed.

(** Counting the words of a collapsed text, for the three states a scan can
    be in: before the first word, inside a word, after a word. *)
Lemma count_words_collapse (s : string) :
  PyStr.count_words false (PyStr.collapse false false s) = PyStr.count_words false s
  /\ PyStr.count_words true (PyStr.collapse true false s) = PyStr.count_words true s
  /\ PyStr.count_words true (PyStr.collapse true true s) = PyStr.count_words false s.
Proof.
  induction s as [|c s (IH1 & IH2 & IH3)]; [now repeat split|].
  cbn [PyStr.collapse PyStr.count_words].
  destruct (PyStr.isspace c) eqn:Hc.
  - now repeat split.
  - cbn [PyStr.count_words]. rewrite !Hc. rewrite isspace_space.
    rewrite IH2. now repeat split.
Qed.

Lemma collapse_idempotent (s : string) :
  PyStr.collapse false false (PyStr.collapse false false s)
  = PyStr.collapse false false s
  /\ PyStr.collapse true false (PyStr.collapse true false s)
     = PyStr.collapse true false s
  /\ PyStr.collapse true false (PyStr.collapse true true s)
     = PyStr.collapse true true s.
Proof.
  induction s as [|c s (IH1 & IH2 & IH3)]; [now repeat split|].
  cbn [PyStr.collapse].
  destruct (PyStr.isspace c) eqn:Hc.
  - now repeat split.
  - cbn [PyStr.collapse]. rewrite !Hc. rewrite isspace_space.
    cbn [PyStr.collapse]. rewrite ?Hc, IH2. now repeat split.
Qed.

Lemma collapse_length (s : string) :
  (2 * PyStr.count_words false s
   <= S (String.length (PyStr.collapse false false s)))%nat
  /\ (2 * PyStr.count_words true s
      <= String.length (PyStr.collapse true false s))%nat
  /\ (2 * PyStr.count_words false s
      <= String.length (PyStr.collapse true true s))%nat.
Proof.
  induction s as [|c s (IH1 & IH2 & IH3)]; [cbn; lia|].
  cbn [PyStr.collapse PyStr.count_words].
  destruct (PyStr.isspace c); cbn [String.length]; lia.
Qed.

Lemma scrape_url_playwright_text (u : string) (page : PageLoad) :
  text_consistent (scrape_url_playwright u page).
Proof.
  unfold text_consistent.
  destruct page as [msg | t x]; cbn [scrape_url_playwright word_count content].
  - cbn. repeat split; lia.
  - unfold PyStr.word_count, PyStr.join_split.
    destruct (count_words_collapse x) as (Hw & _).
    destruct (collapse_idempotent x) as (Hi & _).
    destruct (collapse_length x) as (Hl & _).
    rewrite Hw. split; [reflexivity|]. split; [exact Hi|]. lia.
Qed.

(** Every item of a scraped batch was made by [scrape_in_new_tab]. *)
Lemma scraped_item_origin (tab : nat -> string -> TabOutcome)
    (urls : list string) (max_parallel : Z)
    (results : list (option ScrapedContent)) (c : ScrapedContent) :
  scrape_parallel_playwright tab urls max_parallel = inr results ->
  Some c ∈ results ->
  exists u i, urls !! i = Some u /\ c = snd (scrape_in_new_tab tab u i).
Proof.
  intros Hrun Hc.
  destruct (Z.lt_trichotomy max_parallel 0) as [Hneg | [-> | Hpos]].
  - unfold scrape_parallel_playwright in Hrun.
    destruct urls as [|u0 urls0]; [inversion Hrun; subst; inversion Hc|].
    destruct max_parallel as [|step|step]; try lia.
    inversion Hrun; subst.
    change (None :: replicate (length urls0) None)
      with (replicate (S (length urls0)) (@None ScrapedContent)) in Hc.
    apply elem_of_replicate in Hc as [Hc _]. discriminate.
  - unfold scrape_parallel_playwright in Hrun.
    destruct urls as [|u0 urls0]; [inversion Hrun; subst; inversion Hc|].
    discriminate.
  - rewrite scrape_parallel_playwright_items in Hrun by assumption.
    inversion Hrun; subst.
    apply list_elem_of_fmap in Hc as (c' & Hc' & Hin).
    inversion Hc'; subst c'.
    apply list_elem_of_lookup in Hin as [i Hi].
    rewrite list_lookup_imap in Hi.
    destruct (urls !! i) as [u|] eqn:Hu; [|discriminate].
    inversion Hi; subst. now exists u, i.
Qed.

(** X7. The text fields of every item the scraper produces agree with each
    other: [word_count] is the number of whitespace-separated words of
    [content], which for a loaded page is also that of the page's raw
    text; [content] is already collapsed (collapsing it again changes
    nothing); and [content] has at least [2 * word_count - 1] characters. *)
Theorem scraped_text_is_consistent (tab : nat -> string -> TabOutcome)
    (urls : list string) (max_parallel : Z) :
  (forall u page_title page_text,
      word_count (scrape_url_playwright u (Loaded page_title page_text))
      = Z.of_nat (PyStr.word_count page_text))
  /\ (forall u page, text_consistent (scrape_url_playwright u page))
  /\ (forall results c,
        scrape_parallel_playwright tab urls max_parallel = inr results ->
        Some c ∈ results ->
        text_consistent c).
Proof.
  split; [|split].
  - intros u t x. cbn [scrape_url_playwright word_count].
    unfold PyStr.word_count, PyStr.join_split.
    now rewrite (proj1 (count_words_collapse x)).
  - apply scrape_url_playwright_text.
  - intros results c Hrun Hc.
    destruct (scraped_item_origin _ _ _ _ _ Hrun Hc) as (u & i & _ & ->).
    unfold scrape_in_new_tab. destruct (tab i u) as [msg | page]; cbn [snd].
    + unfold text_consistent. cbn. repeat split; lia.
    + apply scrape_url_playwright_text.
Qed.

(** ** How [search_and_scrape] ends *)

Lemma search_and_scrape_other_engine (w : World) (q : string) (k : Z)
    (engine_arg : string) (include_images : bool) :
  engine_arg <> "brave" ->
  search_and_scrape w q k engine_arg include_images
  = inl (ValueError ("Unsupported search engine: " ++ engine_arg
                     ++ ". Only 'brave' is supported.")%string).
Proof.
  intros Hne. unfold search_and_scrape.
  now destruct (String.eqb_spec engine_arg "brave").
Qed.




(** ** The handler's answers *)



Lemma validate_image_rejects_iff (r : ImageSearchRequest.t) :
  (exists msg, ImageSearchRequest.validate r = inl (ValueError msg))
  <-> malformed_image r.
Proof.
  unfold ImageSearchRequest.validate, malformed_image.
  destruct (query_is_empty (ImageSearchRequest.query r)) eqn:He.
  { pose proof (proj1 (query_is_empty_iff _) He) as He'. split; eauto. }
  assert (Hne : ~ (forall s, ImageSearchRequest.query r = Some s ->
                             PyStr.strip s = "")).
  { rewrite <- query_is_empty_iff. congruence. }
  destruct (query_too_long (ImageSearchRequest.query r)) eqn:Hl.
  { split; [intros _ | eauto]. right. left.
    unfold query_too_long in Hl.
    destruct (ImageSearchRequest.query r) as [s|]; [|discriminate].
    exists s. split; [reflexivity|]. now apply Nat.ltb_lt. }
  assert (Hnl : ~ exists s, ImageSearchRequest.query r = Some s
                            /\ (500 < String.length s)%nat).
  { intros (s & Hs & Hlen). unfold query_too_long in Hl. rewrite Hs in Hl.
    apply Nat.ltb_lt in Hlen. congruence. }
  destruct ((ImageSearchRequest.k r <? 1) || (20 <? ImageSearchRequest.k r))%bool
    eqn:Hk.
  { split; [intros _ | eauto]. apply orb_true_iff in Hk as [Hk | Hk].
    - right. right. left. now apply Z.ltb_lt.
    - right. right. right. now apply Z.ltb_lt. }
  apply orb_false_iff in Hk as [Hk1 Hk2].
  apply Z.ltb_ge in Hk1, Hk2. split.
  - intros [msg Hmsg]. discriminate.
  - intros [H | [H | [H | H]]]; try contradiction; lia.
Qed.

(** X10. An image request is refused by validation exactly when its query
    is empty after trimming or longer than 500 characters or [k] is outside
    [1, 20]; the handler then answers 400 without a call. The engine is not
    looked at: a well-formed image request is handed to
    [search_and_scrape] with whatever engine it names, and is answered 500
    when that is not ["brave"], although images never come from the
    engine. *)
Theorem image_validation_ignores_engine (w : World)
    (q : option string) (ok : option Z) (oe : option string) :
  let r := {| ImageSearchRequest.query := q;
              ImageSearchRequest.k := default 5 ok;
              ImageSearchRequest.include_images := true |} in
  let event := Post {| body_query := q; body_k := ok; body_engine := oe;
                       body_include_images := Some true |} in
  ((exists msg, ImageSearchRequest.validate r = inl (ValueError msg))
   <-> malformed_image r)
  /\ (malformed_image r ->
      exists msg,
        lambda_handler w event
        = ({| status_code := 400;
              body := ErrorResponse "InvalidParameter" msg |}, []))
  /\ (~ malformed_image r ->
      exists response s,
        q = Some s
        /\ lambda_handler w event
           = (response,
              [ {| call_query := s; call_k := default 5 ok;
                   call_engine := default "brave" oe;
                   call_include_images := true |} ])
        /\ (default "brave" oe <> "brave" -> status_code response = 500)).
Proof.
  cbv zeta.
  set (r := {| ImageSearchRequest.query := q;
               ImageSearchRequest.k := default 5 ok;
               ImageSearchRequest.include_images := true |}).
  split; [apply validate_image_rejects_iff|]. split.
  - intros Hbad. apply validate_image_rejects_iff in Hbad as [msg Hmsg].
    exists msg. unfold lambda_handler.
    cbn [body_query body_k body_engine body_include_images default from_option id].
    fold r. now rewrite Hmsg.
  - intros Hgood.
    destruct (ImageSearchRequest.validate r) as [e | []] eqn:Hv.
    + exfalso. apply Hgood. apply validate_image_rejects_iff.
      unfold ImageSearchRequest.validate in Hv |- *.
      repeat match type of Hv with
             | (if ?c then _ else _) = _ => destruct c
             end; inversion Hv; eauto.
    + assert (Hq : exists s, q = Some s).
      { destruct q as [s|]; [now exists s|]. discriminate. }
      destruct Hq as [s ->].
      unfold lambda_handler.
      cbn [body_query body_k body_engine body_include_images].
      change (default false (Some true)) with true. cbv iota. fold r.
      rewrite Hv. change (default "" (Some s)) with s.
      destruct (search_and_scrape w s (default 5 ok) (default "brave" oe) true)
        as [e | res] eqn:Hrun.
      * eexists _, s. split; [reflexivity|]. split; [reflexivity|].
        reflexivity.
      * eexists _, s. split; [reflexivity|]. split; [reflexivity|].
        intros Hne. rewrite search_and_scrape_other_engine in Hrun by assumption.
        discriminate.
Qed.


(** ** How much is scraped *)

Lemma slice_to_prefix {A : Type} (l : list A) (k : Z) :
  slice_to l k `prefix_of` l.
Proof. unfold slice_to. destruct (0 <=? k); apply prefix_take. Qed.

Lemma search_fallback_prefix (page : SearchPage) (k : Z) :
  search_fallback page k
    `prefix_of` match page with Extracted urls => urls | _ => [] end
  /\ (0 <= k -> len (search_fallback page k) <= k).
Proof.
  destruct page as [msg | [|u urls]]; cbn [search_fallback].
  - split; [apply prefix_nil | unfold len; cbn; lia].
  - split; [apply prefix_nil | unfold len; cbn; lia].
  - split; [apply slice_to_prefix | apply slice_to_len].
Qed.

Lemma provider_answer_prefix (brave_page : string -> Z -> SearchPage)
    (visit : Provider -> string -> Z -> ProviderVisit)
    (p : Provider) (q : string) (k : Z) :
  urls_or_empty (provider_answer brave_page visit p q k)
    `prefix_of` extracted_urls brave_page visit p q k.
Proof.
  unfold provider_answer, extracted_urls, search_brave_playwright.
  destruct p.
  - destruct (brave_page q k) as [msg | [|u urls]]; cbn [urls_or_empty];
      try apply prefix_nil. apply slice_to_prefix.
  - destruct (visit Startpage q k) as [msg | page [msg|]];
      cbn [urls_or_empty]; try apply prefix_nil. apply search_fallback_prefix.
  - destruct (visit Yahoo q k) as [msg | page [msg|]];
      cbn [urls_or_empty]; try apply prefix_nil. apply search_fallback_prefix.
  - destruct (visit Yandex q k) as [msg | page [msg|]];
      cbn [urls_or_empty]; try apply prefix_nil. apply search_fallback_prefix.
Qed.

Lemma provider_answer_length (brave_page : string -> Z -> SearchPage)
    (visit : Provider -> string -> Z -> ProviderVisit)
    (p : Provider) (q : string) (k : Z) :
  0 <= k -> len (urls_or_empty (provider_answer brave_page visit p q k)) <= k.
Proof.
  intros Hk. unfold provider_answer, search_brave_playwright.
  destruct p.
  - destruct (brave_page q k) as [msg | [|u urls]]; cbn [urls_or_empty];
      try (unfold len; cbn; lia). now apply slice_to_len.
  - destruct (visit Startpage q k) as [msg | page [msg|]];
      cbn [urls_or_empty]; try (unfold len; cbn; lia).
    now apply search_fallback_prefix.
  - destruct (visit Yahoo q k) as [msg | page [msg|]];
      cbn [urls_or_empty]; try (unfold len; cbn; lia).
    now apply search_fallback_prefix.
  - destruct (visit Yandex q k) as [msg | page [msg|]];
      cbn [urls_or_empty]; try (unfold len; cbn; lia).
    now apply search_fallback_prefix.
Qed.

(** X12. What the cascade takes from a provider is a prefix of what the
    provider's page script returned, of at most the requested number of
    URLs; a page that raises, an empty extraction (for which Brave raises
    [SearchError]), and a fallback page that cannot be opened or closed all
    count as the empty answer. *)
Theorem provider_answer_bounded (brave_page : string -> Z -> SearchPage)
    (visit : Provider -> string -> Z -> ProviderVisit)
    (p : Provider) (q : string) (k : Z) :
  urls_or_empty (provider_answer brave_page visit p q k)
    `prefix_of` extracted_urls brave_page visit p q k
  /\ (0 <= k -> len (urls_or_empty (provider_answer brave_page visit p q k)) <= k)
  /\ (forall msg, brave_page q k = SearchRaises msg ->
                  provider_answer brave_page visit Brave q k = None)
  /\ (brave_page q k = Extracted [] ->
      provider_answer brave_page visit Brave q k = None)
  /\ (p <> Brave ->
      forall page msg, visit p q k = Visited page (Some msg) ->
                       provider_answer brave_page visit p q k = None).
Proof.
  split; [apply provider_answer_prefix|].
  split; [apply provider_answer_length|].
  split; [|split].
  - intros msg H. unfold provider_answer. now rewrite H.
  - intros H. unfold provider_answer. now rewrite H.
  - intros Hp page msg H. unfold provider_answer.
    destruct p; [contradiction| | |]; now rewrite H.
Qed.

Lemma with_buffer_mono (a b : Z) : a <= b -> with_buffer a <= with_buffer b.
Proof.
  unfold with_buffer. intros H.
  destruct (Z.leb_spec a 5), (Z.leb_spec a 10), (Z.leb_spec b 5),
    (Z.leb_spec b 10); lia.
Qed.

Lemma with_buffer_bounds (n : Z) : n + 3 <= with_buffer n <= n + 5.
Proof.
  unfold with_buffer. destruct (Z.leb_spec n 5), (Z.leb_spec n 10); lia.
Qed.

Lemma dedupe_length (urls : list string) (seen : gset string) :
  (length (snd (dedupe urls seen [])) <= length urls)%nat.
Proof.
  destruct (dedupe_spec urls seen []) as (added & -> & Hsub & _).
  cbn [snd app]. now apply sublist_length.
Qed.

Lemma fallback_shape_batches (w : World) (p : Provider) (q : string)
    (k search_k shortage : Z) (failed : bool) (st st' : Cascade) (bound : Z) :
  (forall p q n, 0 <= n -> len (urls_or_empty (search_urls w p q n)) <= n) ->
  0 <= search_k <= bound ->
  with_buffer k <= bound ->
  fallback_shape w p q k search_k shortage failed st st' ->
  exists batch : list (Provider * list string),
    scrape_log st' = scrape_log st ++ batch
    /\ (length batch <= 1)%nat
    /\ Forall (fun e => len (snd e) <= bound) batch.
Proof.
  intros Hcontract Hsk Hbound Hshape. cbv zeta in Hshape.
  destruct Hshape as [[_ ->] | (Hruns & _ & [(_ & _ & Hl & _) | Hscr])].
  - exists []. rewrite app_nil_r. repeat split; [cbn; lia | constructor].
  - exists []. rewrite app_nil_r. repeat split; [assumption | cbn; lia | constructor].
  - destruct Hscr as (_ & _ & _ & Hl & _).
    eexists [_]. split; [exact Hl|]. split; [cbn; lia|].
    constructor; [|constructor]. cbn [snd].
    apply andb_true_iff in Hruns as [Hneed _]. apply Z.ltb_lt in Hneed.
    set (wanted := if failed then search_k
                   else with_buffer (k - len (valid_results st))) in *.
    assert (Hw : 0 <= wanted <= bound).
    { subst wanted. destruct failed; [assumption|].
      pose proof (with_buffer_bounds (k - len (valid_results st))).
      pose proof (with_buffer_mono (k - len (valid_results st)) k).
      unfold len in *. lia. }
    pose proof (dedupe_length (urls_or_empty (search_urls w p q wanted))
                  (seen_normalized st)) as Hd.
    pose proof (Hcontract p q wanted (proj1 Hw)) as Hc.
    unfold len in *. lia.
Qed.

(** X13. When no provider answers with more URLs than it is asked for (as
    the provider searches of this repository do), a cascade for [k >= 1]
    hands at most four batches to the scraper, one per provider, each of at
    most [k + 5] URLs: at most [4 * (k + 5)] pages are fetched for one
    request. *)
Theorem cascade_scrapes_boundedly (w : World) (q : string) (k : Z) :
  (forall p q n, 0 <= n -> len (urls_or_empty (search_urls w p q n)) <= n) ->
  1 <= k ->
  exists st,
    cascade w q k = inr st
    /\ (length (scrape_log st) <= 4)%nat
    /\ Forall (fun e => len (snd e) <= with_buffer k) (scrape_log st)
    /\ len (scraped_urls st) <= 4 * (k + 5).
Proof.
  intros Hcontract Hk.
  destruct (cascade_has_shape w q k) as (st & Hst & st0 & bf & st1 & st2 & Hshape).
  cbv zeta in Hshape. destruct Hshape as (H0 & H1 & H2 & H3).
  pose proof (with_buffer_bounds k) as Hwb.
  assert (Hsk : 0 <= with_buffer k <= with_buffer k) by lia.
  assert (Hb0 : exists batch,
            scrape_log st0 = batch /\ (length batch <= 1)%nat
            /\ Forall (fun e => len (snd e) <= with_buffer k) batch).
  { destruct H0 as (_ & _ & _ & [(_ & Hl & _) | (_ & _ & Hl & _)]).
    - exists []. rewrite Hl. repeat split; [cbn; lia | constructor].
    - eexists. split; [exact Hl|]. split; [cbn; lia|].
      constructor; [|constructor]. cbn [snd].
      pose proof (dedupe_length
                    (urls_or_empty (search_urls w Brave q (with_buffer k))) ∅) as Hd.
      pose proof (Hcontract Brave q (with_buffer k) (proj1 Hsk)) as Hc.
      unfold len in *. lia. }
  destruct Hb0 as (b0 & Hl0 & Hn0 & Hf0).
  destruct (fallback_shape_batches _ _ _ _ _ _ _ _ _ _ Hcontract Hsk (Z.le_refl _) H1)
    as (b1 & Hl1 & Hn1 & Hf1).
  destruct (fallback_shape_batches _ _ _ _ _ _ _ _ _ _ Hcontract Hsk (Z.le_refl _) H2)
    as (b2 & Hl2 & Hn2 & Hf2).
  destruct (fallback_shape_batches _ _ _ _ _ _ _ _ _ _ Hcontract Hsk (Z.le_refl _) H3)
    as (b3 & Hl3 & Hn3 & Hf3).
  assert (Hlog : scrape_log st = b0 ++ b1 ++ b2 ++ b3).
  { rewrite Hl3, Hl2, Hl1, Hl0. now rewrite <- !app_assoc. }
  assert (Hall : Forall (fun e => len (snd e) <= with_buffer k) (scrape_log st)).
  { rewrite Hlog. repeat (apply Forall_app; split); assumption. }
  assert (Hcount : (length (scrape_log st) <= 4)%nat).
  { rewrite Hlog, !length_app. lia. }
  exists st. split; [exact Hst|]. split; [exact Hcount|]. split; [exact Hall|].
  unfold scraped_urls.
  assert (Hsum : forall log : list (Provider * list string),
            Forall (fun e => len (snd e) <= with_buffer k) log ->
            len (concat (snd <$> log)) <= Z.of_nat (length log) * (k + 5)).
  { induction log as [|e log IH]; intros Hf; [unfold len; cbn; lia|].
    apply Forall_cons in Hf as [He Hf]. specialize (IH Hf).
    rewrite fmap_cons. cbn [concat]. unfold len in *.
    rewrite length_app. cbn [length]. lia. }
  specialize (Hsum _ Hall). unfold len in *. nia.
Qed.

Lemma cascade_scrapes_boundedly_witness :
  exists st,
    cascade obliging_world "rust ownership" 5 = inr st
    /\ (length (scrape_log st) <= 4)%nat
    /\ Forall (fun e => len (snd e) <= with_buffer 5) (scrape_log st)
    /\ len (scraped_urls st) <= 4 * (5 + 5).
Proof.
  apply (cascade_scrapes_boundedly obliging_world "rust ownership" 5).
  - intros p q n Hn. cbn [search_urls obliging_world].
    now apply provider_answer_length.
  - lia.
Defined.

Example obliging_world_run :
  match cascade obliging_world "rust ownership" 5 with
  | inr st => (length <$> (snd <$> scrape_log st)) = [7%nat]
  | inl _ => False
  end.
Proof. vm_compute. reflexivity. Qed.

(** ** Configuration *)

Lemma unset_false_iff (value : option string) :
  Config.unset value = false <-> exists b, value = Some b /\ b <> "".
Proof.
  destruct value as [[|c b]|]; simpl; split;
    try discriminate; try reflexivity.
  - intros (b & Hb & Hne). congruence.
  - intros _. eexists. split; [reflexivity | discriminate].
  - intros (b & Hb & _). discriminate.
Qed.

Lemma validate_ok_iff (environ : gmap string string) (cls : Config.t) :
  Config.validate environ cls = inr tt
  <-> Config.unset (environ !! "S3_BUCKET_NAME") = false /\ in_ranges cls.
Proof.
  unfold Config.validate, Config._REQUIRED_VARS, in_ranges. simpl.
  destruct (Config.unset (environ !! "S3_BUCKET_NAME")).
  - split; [discriminate | intros []; discriminate].
  - destruct (Z.ltb_spec (Config.MAX_PARALLEL_TABS cls) 1);
      [split; [discriminate | lia] |].
    destruct (Z.ltb_spec (Config.SCRAPE_TIMEOUT_MS cls) 1000);
      [split; [discriminate | lia] |].
    destruct (Z.ltb_spec (Config.MAX_RESULTS_LIMIT cls) 1);
      [split; [discriminate | lia] |].
    destruct (Z.ltb_spec (Config.MEMORY_MB cls) 128);
      [split; [discriminate | lia] |].
    split; [intros _; repeat split; lia | reflexivity].
Qed.

Lemma validate_raises_configuration_error (environ : gmap string string)
    (cls : Config.t) (e : Config.Raised) :
  Config.validate environ cls = inl e ->
  exists msg,
    e = Config.ConfigurationError msg
    /\ (Config.unset (environ !! "S3_BUCKET_NAME") = true ->
        msg = "Missing required environment variable(s): S3_BUCKET_NAME. Please set these variables before starting the Lambda function.").
Proof.
  unfold Config.validate, Config._REQUIRED_VARS. simpl.
  destruct (Config.unset (environ !! "S3_BUCKET_NAME")).
  - simpl. intros [= <-]. eexists. split; [reflexivity |]. intros _.
    reflexivity.
  - repeat match goal with
           | |- context [if ?c then _ else _] => destruct c
           end;
      intros He; try discriminate; injection He as <-;
      (eexists; split; [reflexivity | discriminate]).
Qed.

Lemma load_ok (int : string -> option Z) (environ : gmap string string)
    (cls : Config.t) (tabs timeout limit memory seconds : Z) :
  int <$> numeric_texts environ
  = [Some tabs; Some timeout; Some limit; Some memory; Some seconds] ->
  Config.load int environ cls
  = (inr tt, loaded_config environ tabs timeout limit memory seconds).
Proof.
  unfold numeric_texts, numeric_vars. cbn [fmap list_fmap fst snd].
  intros [= H1 H2 H3 H4 H5].
  unfold Config.load, Config.assign_int. cbn [Config.set_S3_BUCKET_NAME
    Config.set_S3_REGION]. rewrite H1, H2, H3, H4, H5. reflexivity.
Qed.

Lemma load_raises (int : string -> option Z) (environ : gmap string string)
    (cls : Config.t) (e : Config.Raised) :
  fst (Config.load int environ cls) = inl e ->
  exists done literal rest,
    numeric_texts environ = done ++ literal :: rest
    /\ Forall (fun s => int s <> None) done
    /\ int literal = None
    /\ e = Config.ValueError literal.
Proof.
  unfold Config.load, Config.assign_int, numeric_texts, numeric_vars.
  cbn [fmap list_fmap fst snd].
  set (t1 := Config.environ_get environ "MAX_PARALLEL_TABS" "20").
  set (t2 := Config.environ_get environ "SCRAPE_TIMEOUT_MS" "8000").
  set (t3 := Config.environ_get environ "MAX_RESULTS_LIMIT" "20").
  set (t4 := Config.environ_get environ "MEMORY_MB" "3072").
  set (t5 := Config.environ_get environ "TIMEOUT_SECONDS" "60").
  destruct (int t1) eqn:H1;
    [| intros [= <-]; exists [], t1, [t2; t3; t4; t5]; auto].
  destruct (int t2) eqn:H2;
    [| intros [= <-]; exists [t1], t2, [t3; t4; t5];
       repeat split; auto; repeat constructor; congruence].
  destruct (int t3) eqn:H3;
    [| intros [= <-]; exists [t1; t2], t3, [t4; t5];
       repeat split; auto; repeat constructor; congruence].
  destruct (int t4) eqn:H4;
    [| intros [= <-]; exists [t1; t2; t3], t4, [t5];
       repeat split; auto; repeat constructor; congruence].
  destruct (int t5) eqn:H5;
    [| intros [= <-]; exists [t1; t2; t3; t4], t5, [];
       repeat split; auto; repeat constructor; congruence].
  discriminate.
Qed.

Lemma load_ok_inv (int : string -> option Z) (environ : gmap string string)
    (cls : Config.t) :
  fst (Config.load int environ cls) = inr tt ->
  exists tabs timeout limit memory seconds,
    int <$> numeric_texts environ
    = [Some tabs; Some timeout; Some limit; Some memory; Some seconds].
Proof.
  unfold Config.load, Config.assign_int, numeric_texts, numeric_vars.
  cbn [fmap list_fmap fst snd].
  destruct (int (Config.environ_get environ "MAX_PARALLEL_TABS" "20"))
    as [tabs|]; [| discriminate].
  destruct (int (Config.environ_get environ "SCRAPE_TIMEOUT_MS" "8000"))
    as [timeout|]; [| discriminate].
  destruct (int (Config.environ_get environ "MAX_RESULTS_LIMIT" "20"))
    as [limit|]; [| discriminate].
  destruct (int (Config.environ_get environ "MEMORY_MB" "3072"))
    as [memory|]; [| discriminate].
  destruct (int (Config.environ_get environ "TIMEOUT_SECONDS" "60"))
    as [seconds|]; [| discriminate].
  intros _. exists tabs, timeout, limit, memory, seconds. reflexivity.
Qed.

Lemma load_sets_bucket (int : string -> option Z)
    (environ : gmap string string) (cls : Config.t) :
  Config.S3_BUCKET_NAME (snd (Config.load int environ cls))
  = environ !! "S3_BUCKET_NAME"
  /\ Config.S3_REGION (snd (Config.load int environ cls))
     = Config.environ_get environ "S3_REGION" "us-east-1".
Proof.
  unfold Config.load, Config.assign_int.
  repeat match goal with
         | |- context [match int ?s with _ => _ end] => destruct (int s)
         end; split; reflexivity.
Qed.

(** X14. [Config.initialize] succeeds exactly when the environment names
    a non-empty bucket, [int] accepts the text of each of the five numeric
    variables (the variable's value, or the default of [load] when it is
    unset), and the values read are in range: at least 1 tab, 1000 ms,
    1 result and 128 MB. The class then holds exactly what was read,
    nothing of its former attributes; [TIMEOUT_SECONDS] is read but not
    checked. *)
Theorem initialize_succeeds_iff (int : string -> option Z)
    (environ : gmap string string) (cls : Config.t) :
  fst (Config.initialize int environ cls) = inr tt
  <-> exists bucket tabs timeout limit memory seconds,
        environ !! "S3_BUCKET_NAME" = Some bucket /\ bucket <> ""
        /\ int <$> numeric_texts environ
           = [Some tabs; Some timeout; Some limit; Some memory; Some seconds]
        /\ 1 <= tabs /\ 1000 <= timeout /\ 1 <= limit /\ 128 <= memory
        /\ snd (Config.initialize int environ cls)
           = loaded_config environ tabs timeout limit memory seconds.
Proof.
  unfold Config.initialize. split.
  - destruct (Config.load int environ cls) as [[e|[]] cls'] eqn:Hload;
      [discriminate |].
    cbn [fst snd]. intros Hv.
    destruct (load_ok_inv int environ cls) as (tabs & timeout & limit
      & memory & seconds & Hint); [rewrite Hload; reflexivity |].
    rewrite (load_ok _ _ cls _ _ _ _ _ Hint) in Hload.
    injection Hload as <-.
    apply validate_ok_iff in Hv. destruct Hv as [Hb Hr].
    apply unset_false_iff in Hb. destruct Hb as (bucket & Hb & Hne).
    destruct Hr as (? & ? & ? & ?); cbn in *.
    exists bucket, tabs, timeout, limit, memory, seconds. tauto.
  - intros (bucket & tabs & timeout & limit & memory & seconds & Hb & Hne
            & Hint & ? & ? & ? & ? & _).
    rewrite (load_ok _ _ cls _ _ _ _ _ Hint). cbn [fst].
    apply validate_ok_iff. split.
    + apply unset_false_iff. eauto.
    + repeat split; assumption.
Qed.

(** X15. A failing [Config.initialize] raises [ValueError] exactly when
    [int] refuses one of the numeric texts, with the first refused text in
    the order of [load], and this also when the bucket is missing; it
    raises [ConfigurationError] only when all five are accepted, and then
    names the missing bucket in preference to any value out of range. In
    every case the class is left with the bucket and region of the
    environment: a failed initialisation has already replaced them. *)
Theorem initialize_failures (int : string -> option Z)
    (environ : gmap string string) (cls : Config.t) :
  match fst (Config.initialize int environ cls) with
  | inl (Config.ValueError literal) =>
      exists done rest,
        numeric_texts environ = done ++ literal :: rest
        /\ Forall (fun s => int s <> None) done
        /\ int literal = None
  | inl (Config.ConfigurationError msg) =>
      Forall (fun s => int s <> None) (numeric_texts environ)
      /\ (Config.unset (environ !! "S3_BUCKET_NAME") = true ->
          msg = "Missing required environment variable(s): S3_BUCKET_NAME. Please set these variables before starting the Lambda function.")
      /\ (Config.unset (environ !! "S3_BUCKET_NAME") = false ->
          ~ in_ranges (snd (Config.initialize int environ cls)))
  | inr tt => True
  end
  /\ Config.S3_BUCKET_NAME (snd (Config.initialize int environ cls))
     = environ !! "S3_BUCKET_NAME"
  /\ Config.S3_REGION (snd (Config.initialize int environ cls))
     = Config.environ_get environ "S3_REGION" "us-east-1".
Proof.
  pose proof (load_sets_bucket int environ cls) as Hset.
  pose proof (load_raises int environ cls) as Hraise.
  pose proof (load_ok_inv int environ cls) as Hinv.
  unfold Config.initialize.
  destruct (Config.load int environ cls) as [[e|[]] cls'] eqn:Hload;
    cbn [fst snd] in *.
  - split; [| exact Hset].
    destruct (Hraise e eq_refl) as (done & literal & rest & Ht & Hd & Hl & ->).
    exists done, rest. auto.
  - split; [| exact Hset].
    destruct (Hinv eq_refl) as (tabs & timeout & limit & memory & seconds
                                & Hint).
    destruct (Config.validate environ cls') as [e|[]] eqn:Hv; [| exact I].
    destruct (validate_raises_configuration_error _ _ _ Hv)
      as (msg & -> & Hmsg).
    split; [| split].
    + revert Hint. unfold numeric_texts, numeric_vars.
      cbn [fmap list_fmap fst snd]. intros [= H1 H2 H3 H4 H5].
      repeat constructor; congruence.
    + exact Hmsg.
    + intros Hb Hr.
      assert (Config.validate environ cls' = inr tt) as Hok
        by (apply validate_ok_iff; split; assumption).
      congruence.
Qed.

(** X16. With at least one tab configured, [get_adaptive_max_tabs]
    recommends between 1 and 20 tabs. With 10 or more configured the
    recommendation never exceeds the configured maximum and never grows
    with the memory in use; with fewer than 5 configured, memory pressure
    (less than 1000 MB available) raises it above the configured
    maximum. *)
Theorem adaptive_max_tabs_bounds (cls : Config.t) (current_memory_mb : Z) :
  (1 <= Config.MAX_PARALLEL_TABS cls ->
   1 <= Config.get_adaptive_max_tabs cls current_memory_mb <= 20)
  /\ (10 <= Config.MAX_PARALLEL_TABS cls ->
      Config.get_adaptive_max_tabs cls current_memory_mb
      <= Config.MAX_PARALLEL_TABS cls
      /\ forall more, current_memory_mb <= more ->
           Config.get_adaptive_max_tabs cls more
           <= Config.get_adaptive_max_tabs cls current_memory_mb)
  /\ (Config.MAX_PARALLEL_TABS cls < 5 ->
      Config.MEMORY_MB cls - current_memory_mb < 1000 ->
      Config.MAX_PARALLEL_TABS cls
      < Config.get_adaptive_max_tabs cls current_memory_mb).
Proof.
  unfold Config.get_adaptive_max_tabs.
  repeat split; intros;
    repeat match goal with
           | |- context [?a <? ?b] => destruct (Z.ltb_spec a b)
           end; lia.
Qed.

Example sample_environ_run :
  Config.initialize decimal sample_environ Config.declared
  = (inr tt, loaded_config sample_environ 20 8000 20 1024 60)
  /\ Config.get_adaptive_max_tabs
       (loaded_config sample_environ 20 8000 20 1024 60) 600 = 5
  /\ fst (Config.initialize decimal
            (<[ "MEMORY_MB" := "1GB" ]> sample_environ) Config.declared)
     = inl (Config.ValueError "1GB").
Proof. vm_compute. repeat split; reflexivity. Qed.

(** ** Image upload *)

Lemma str_split_app_sep (sep : ascii) (a b : string) :
  exists piece pieces,
    str_split sep (a ++ String sep b)%string
    = (piece :: pieces) ++ str_split sep b.
Proof.
  induction a as [|c a IH].
  - rewrite string_app_nil_l. cbn [str_split]. rewrite Ascii.eqb_refl.
    exists "", []. reflexivity.
  - rewrite string_app_cons. cbn [str_split].
    destruct IH as (piece & pieces & ->).
    destruct (Ascii.eqb c sep).
    + exists "", (piece :: pieces). reflexivity.
    + exists (String c piece), pieces. reflexivity.
Qed.

Lemma str_split_nonempty (sep : ascii) (s : string) : str_split sep s <> [].
Proof.
  destruct s as [|c s]; cbn [str_split]; [discriminate |].
  destruct (Ascii.eqb c sep); [discriminate |].
  destruct (str_split sep s); discriminate.
Qed.

Lemma str_split_without (sep : ascii) (s : string) :
  forallb (fun c => negb (Ascii.eqb c sep)) (list_ascii_of_string s) = true ->
  str_split sep s = [s].
Proof.
  induction s as [|c s IH]; cbn [str_split list_ascii_of_string forallb];
    [reflexivity |].
  intros [Hc Hs]%andb_true_iff. apply negb_true_iff in Hc. rewrite Hc.
  rewrite (IH Hs). reflexivity.
Qed.

Lemma last_app_nonempty {A : Type} (l1 l2 : list A) (d : A) :
  l2 <> [] -> List.last (l1 ++ l2) d = List.last l2 d.
Proof.
  intros Hne. induction l1 as [|x l1 IH]; [reflexivity |].
  cbn [app List.last]. fold (l1 ++ l2).
  destruct (l1 ++ l2) eqn:E; [| exact IH].
  apply app_nil in E. destruct E; contradiction.
Qed.

Lemma last_segment_app (sep : ascii) (a ext : string) :
  forallb (fun c => negb (Ascii.eqb c sep)) (list_ascii_of_string ext) = true ->
  List.last (str_split sep (a ++ String sep ext)%string) "" = ext.
Proof.
  intros Hext. destruct (str_split_app_sep sep a ext) as (p & ps & ->).
  rewrite last_app_nonempty by apply str_split_nonempty.
  rewrite (str_split_without _ _ Hext). reflexivity.
Qed.

Lemma str_filter_all (keep : ascii -> bool) (s : string) :
  forallb keep (list_ascii_of_string (str_filter keep s)) = true.
Proof.
  induction s as [|c s IH]; cbn [str_filter]; [reflexivity |].
  destruct (keep c) eqn:Hc; [| exact IH].
  cbn [list_ascii_of_string forallb]. rewrite Hc. exact IH.
Qed.

Lemma substring_all (keep : ascii -> bool) (n : nat) (s : string) :
  forallb keep (list_ascii_of_string s) = true ->
  forallb keep (list_ascii_of_string (substring 0 n s)) = true.
Proof.
  revert s. induction n as [|n IH]; intros [|c s];
    cbn [substring list_ascii_of_string forallb]; try reflexivity.
  intros [Hc Hs]%andb_true_iff. rewrite Hc. apply IH, Hs.
Qed.

Lemma substring_length_le (n : nat) (s : string) :
  (String.length (substring 0 n s) <= n)%nat.
Proof.
  revert s. induction n as [|n IH]; intros [|c s];
    cbn [substring String.length]; try lia.
  specialize (IH s). lia.
Qed.

Lemma extension_of_spec (path : string) :
  S3.extension_of path <> ""
  /\ (String.length (S3.extension_of path) <= 10)%nat
  /\ forallb PyStr.isalnum (list_ascii_of_string (S3.extension_of path)) = true.
Proof.
  unfold S3.extension_of.
  set (raw := if PyStr.contains "." path then _ else _).
  pose proof (substring_length_le 10 (str_filter PyStr.isalnum raw)) as Hlen.
  pose proof (substring_all PyStr.isalnum 10 _ (str_filter_all PyStr.isalnum raw))
    as Hall.
  destruct (substring 0 10 (str_filter PyStr.isalnum raw)) as [|c e].
  - repeat split; [discriminate | cbn; lia].
  - repeat split; [discriminate | exact Hlen | exact Hall].
Qed.

Lemma forallb_impl {A : Type} (f g : A -> bool) (l : list A) :
  (forall x, f x = true -> g x = true) ->
  forallb f l = true -> forallb g l = true.
Proof.
  intros Hfg. induction l as [|x l IH]; cbn [forallb]; [reflexivity |].
  intros [Hx Hl]%andb_true_iff. rewrite (Hfg x Hx). exact (IH Hl).
Qed.

Lemma isalnum_not_dot (c : ascii) :
  PyStr.isalnum c = true -> negb (Ascii.eqb c ".") = true.
Proof.
  destruct (Ascii.eqb_spec c "."); [subst; vm_compute; discriminate | reflexivity].
Qed.

Lemma guess_content_type_of_key (front ext : string) :
  forallb PyStr.isalnum (list_ascii_of_string ext) = true ->
  S3._guess_content_type (front ++ "." ++ ext)%string
  = dict_get S3.content_types (PyStr.lower ext) "application/octet-stream".
Proof.
  intros Hext. unfold S3._guess_content_type.
  change ("." ++ ext)%string with (String "." ext).
  rewrite last_segment_app; [reflexivity |].
  revert Hext. apply forallb_impl, isalnum_not_dot.
Qed.

(** X17. A generated S3 key is the prefix, the time stamp, the first 12
    digits of the URL's hash, a dot and an extension drawn from the URL's
    path: never empty, at most 10 characters, all alphanumeric. The content
    type that [_guess_content_type] reads off the key is therefore the one
    of that extension in lower case, whatever dots the prefix, the stamp or
    the hash contain, and [image/jpeg] for a path without a dot. The only
    failure is [urlparse] raising [ValueError]. *)
Theorem generated_key_content_type (w : S3.Net) (image_url key_prefix : string) :
  match S3._generate_s3_key w image_url key_prefix with
  | inl e =>
      exists text, S3.urlparse_path w image_url = inl text
                   /\ e = S3.ValueError text
  | inr s3_key =>
      exists path front,
        S3.urlparse_path w image_url = inr path
        /\ s3_key = (front ++ "." ++ S3.extension_of path)%string
        /\ front = (key_prefix ++ "/" ++ S3.now w ++ "_"
                    ++ substring 0 12 (S3.md5_hexdigest w image_url))%string
        /\ S3.extension_of path <> ""
        /\ (String.length (S3.extension_of path) <= 10)%nat
        /\ forallb PyStr.isalnum
             (list_ascii_of_string (S3.extension_of path)) = true
        /\ S3._guess_content_type s3_key
           = dict_get S3.content_types (PyStr.lower (S3.extension_of path))
               "application/octet-stream"
        /\ (PyStr.contains "." path = false ->
            S3._guess_content_type s3_key = "image/jpeg")
  end.
Proof.
  unfold S3._generate_s3_key.
  destruct (S3.urlparse_path w image_url) as [text|path]; [eauto |].
  destruct (extension_of_spec path) as (Hne & Hlen & Hall).
  exists path, (key_prefix ++ "/" ++ S3.now w ++ "_"
                ++ substring 0 12 (S3.md5_hexdigest w image_url))%string.
  assert (forall front,
            S3._guess_content_type (front ++ "." ++ S3.extension_of path)%string
            = dict_get S3.content_types (PyStr.lower (S3.extension_of path))
                "application/octet-stream") as Hguess
    by (intros; apply guess_content_type_of_key, Hall).
  split; [reflexivity |].
  assert ((key_prefix ++ "/" ++ S3.now w ++ "_"
           ++ substring 0 12 (S3.md5_hexdigest w image_url) ++ "."
           ++ S3.extension_of path)%string
          = ((key_prefix ++ "/" ++ S3.now w ++ "_"
              ++ substring 0 12 (S3.md5_hexdigest w image_url)) ++ "."
             ++ S3.extension_of path)%string) as ->
    by now rewrite !string_app_assoc.
  split; [reflexivity |].
  split; [reflexivity |].
  split; [exact Hne |]. split; [exact Hlen |]. split; [exact Hall |].
  split; [apply Hguess |].
  intros Hdot. rewrite Hguess. unfold S3.extension_of. rewrite Hdot.
  reflexivity.
Qed.

Lemma slept_app (t1 t2 : list S3.Effect) : slept (t1 ++ t2) = slept t1 + slept t2.
Proof.
  induction t1 as [|e t1 IH]; [reflexivity |].
  cbn [app]. unfold slept in *. cbn [foldr]. rewrite IH.
  destruct e; lia.
Qed.

Lemma rounds_cons (request : S3.Effect) (a n : Z) :
  0 < n ->
  seqZ a n ≫= (fun i => [request; S3.Sleep (2 ^ i)])
  = request :: S3.Sleep (2 ^ a)
    :: (seqZ (a + 1) (n - 1) ≫= (fun i => [request; S3.Sleep (2 ^ i)])).
Proof.
  intros Hn. rewrite seqZ_cons by assumption.
  replace (Z.succ a) with (a + 1) by lia.
  replace (Z.pred n) with (n - 1) by lia. reflexivity.
Qed.

Lemma slept_rounds (request : S3.Effect) (n : nat) (a : Z) :
  (forall s, request <> S3.Sleep s) ->
  0 <= a ->
  slept (seqZ a (Z.of_nat n) ≫= (fun i => [request; S3.Sleep (2 ^ i)]))
  = 2 ^ (a + Z.of_nat n) - 2 ^ a.
Proof.
  intros Hreq. revert a. induction n as [|n IH]; intros a Ha.
  - replace (seqZ a (Z.of_nat 0)) with (@nil Z)
      by (symmetry; apply seqZ_nil; lia).
    rewrite Z.add_0_r. change (0 = 2 ^ a - 2 ^ a). lia.
  - rewrite rounds_cons by lia.
    replace (Z.of_nat (S n) - 1) with (Z.of_nat n) by lia.
    change (slept (request :: S3.Sleep (2 ^ a) :: ?t))
      with (slept ([request; S3.Sleep (2 ^ a)] ++ t)).
    rewrite slept_app, IH by lia.
    replace (a + Z.of_nat (S n)) with (a + 1 + Z.of_nat n) by lia.
    assert (slept [request; S3.Sleep (2 ^ a)] = 2 ^ a) as ->.
    { unfold slept. cbn [foldr]. destruct request; try lia.
      exfalso. eapply Hreq. reflexivity. }
    rewrite (Z.pow_add_r 2 a 1) by lia. lia.
Qed.

Lemma slept_retry_trace (request : S3.Effect) (n : Z) :
  (forall s, request <> S3.Sleep s) ->
  0 <= n ->
  slept (retry_trace request n) = 2 ^ n - 1.
Proof.
  intros Hreq Hn. unfold retry_trace, failed_rounds. rewrite slept_app.
  rewrite <- (Z2Nat.id n) at 1 by assumption.
  rewrite slept_rounds by (assumption || lia).
  rewrite Z2Nat.id by assumption.
  assert (slept [request] = 0) as ->.
  { unfold slept. cbn [foldr]. destruct request; try lia.
    exfalso. eapply Hreq. reflexivity. }
  rewrite Z.add_0_l, Z.pow_0_r. lia.
Qed.

Lemma rounds_nil (request : S3.Effect) (a n : Z) :
  n <= 0 -> seqZ a n ≫= (fun i => [request; S3.Sleep (2 ^ i)]) = [].
Proof. intros Hn. rewrite seqZ_nil by assumption. reflexivity. Qed.

Lemma backoff_rounds (request : S3.Effect) (a m j : Z) (tail : list S3.Effect) :
  a < j -> j <= m - 1 ->
  [request] ++ S3.backoff a m
    ++ (seqZ (a + 1) (j - (a + 1)) ≫= (fun i => [request; S3.Sleep (2 ^ i)]))
    ++ tail
  = (seqZ a (j - a) ≫= (fun i => [request; S3.Sleep (2 ^ i)])) ++ tail.
Proof.
  intros Haj Hjm. unfold S3.backoff.
  destruct (Z.ltb_spec a (m - 1)); [| lia].
  rewrite (rounds_cons request a (j - a)) by lia.
  replace (j - a - 1) with (j - (a + 1)) by lia. reflexivity.
Qed.

Lemma backoff_last (a m : Z) : m <= a + 1 -> S3.backoff a m = [].
Proof.
  intros H. unfold S3.backoff. destruct (Z.ltb_spec a (m - 1)); [lia | reflexivity].
Qed.

Lemma download_attempts_spec (w : S3.Net) (image_url : string) (m t : Z)
    (n : nat) :
  forall (a : Z) (last_error : string) (trace : list S3.Effect),
    Z.to_nat (m - a) = n ->
    let rounds := fun j =>
      seqZ a (j - a) ≫= (fun i => [S3.Get image_url t; S3.Sleep (2 ^ i)]) in
    match S3.download_attempts w image_url m t (seqZ a (m - a)) last_error
            trace with
    | (inr data, trace') =>
        exists j, a <= j < m
                  /\ S3.session_get w image_url t j = S3.Response 200 data
                  /\ (forall i, a <= i < j ->
                        download_failed (S3.session_get w image_url t i))
                  /\ trace' = trace ++ rounds j ++ [S3.Get image_url t]
    | (inl e, trace') =>
        (forall i, a <= i < m ->
           download_failed (S3.session_get w image_url t i))
        /\ (exists msg, e = S3.S3UploadError msg)
        /\ trace' = trace ++ (if a <? m
                              then rounds (m - 1) ++ [S3.Get image_url t]
                              else [])
    end.
Proof.
  induction n as [|n IH]; intros a last_error trace Hn rounds; subst rounds.
  - rewrite seqZ_nil by lia. cbn [S3.download_attempts].
    destruct (Z.ltb_spec a m); [lia |].
    split; [intros; lia |]. split; [eauto |]. now rewrite app_nil_r.
  - rewrite seqZ_cons by lia.
    replace (Z.succ a) with (a + 1) by lia.
    replace (Z.pred (m - a)) with (m - (a + 1)) by lia.
    cbn [S3.download_attempts].
    assert (forall text,
      download_failed (S3.session_get w image_url t a) ->
      match
        S3.download_attempts w image_url m t (seqZ (a + 1) (m - (a + 1))) text
          ((trace ++ [S3.Get image_url t]) ++ S3.backoff a m)
      with
      | (inr data, trace') =>
          exists j, a <= j < m
                  /\ S3.session_get w image_url t j = S3.Response 200 data
                  /\ (forall i, a <= i < j ->
                        download_failed (S3.session_get w image_url t i))
                  /\ trace' = trace
                       ++ (seqZ a (j - a) ≫=
                             (fun i => [S3.Get image_url t; S3.Sleep (2 ^ i)]))
                       ++ [S3.Get image_url t]
      | (inl e, trace') =>
          (forall i, a <= i < m ->
             download_failed (S3.session_get w image_url t i))
          /\ (exists msg, e = S3.S3UploadError msg)
          /\ trace' = trace
               ++ (if a <? m
                   then (seqZ a (m - 1 - a) ≫=
                           (fun i => [S3.Get image_url t; S3.Sleep (2 ^ i)]))
                        ++ [S3.Get image_url t]
                   else [])
      end) as Hfail.
    { intros text Hfa.
      specialize (IH (a + 1) text
                    ((trace ++ [S3.Get image_url t]) ++ S3.backoff a m)).
      cbv zeta in IH.
      destruct (S3.download_attempts _ _ _ _ _ _ _) as [[e|data] trace'].
      - destruct IH as (Hall & Hmsg & ->); [lia |].
        split; [| split; [exact Hmsg |]].
        + intros i Hi. destruct (Z.eq_dec i a) as [->|]; [exact Hfa |].
          apply Hall. lia.
        + destruct (Z.ltb_spec a m); [| lia].
          rewrite <- !app_assoc. f_equal.
          destruct (Z.ltb_spec (a + 1) m).
          * apply (backoff_rounds (S3.Get image_url t) a m (m - 1)); lia.
          * rewrite backoff_last, rounds_nil by lia. reflexivity.
      - destruct IH as (j & Hj & Hget & Hall & ->); [lia |].
        exists j. split; [lia |]. split; [exact Hget |]. split.
        + intros i Hi. destruct (Z.eq_dec i a) as [->|]; [exact Hfa |].
          apply Hall. lia.
        + rewrite <- !app_assoc. f_equal.
          apply (backoff_rounds (S3.Get image_url t) a m j); lia. }
    destruct (S3.session_get w image_url t a) as [status data|text] eqn:Hget.
    + destruct (Z.eqb_spec status 200) as [->|Hne].
      * exists a. split; [lia |]. split; [exact Hget |].
        split; [intros; lia |].
        rewrite rounds_nil by lia. reflexivity.
      * apply Hfail. exact Hne.
    + apply Hfail. exact I.
Qed.

Lemma upload_attempts_spec (w : S3.Net) (image_data : list Byte.byte)
    (bucket s3_key : string) (m : Z) (n : nat) :
  forall (a : Z) (last_error : string) (trace : list S3.Effect),
    Z.to_nat (m - a) = n ->
    let content_type := S3._guess_content_type s3_key in
    let request := S3.Put bucket s3_key image_data content_type in
    let rounds := fun j =>
      seqZ a (j - a) ≫= (fun i => [request; S3.Sleep (2 ^ i)]) in
    match S3.upload_attempts w image_data bucket s3_key m (seqZ a (m - a))
            last_error trace with
    | (inr _, trace') =>
        exists j, a <= j < m
                  /\ S3.put_object w j bucket s3_key image_data content_type
                     = None
                  /\ (forall i, a <= i < j ->
                        S3.put_object w i bucket s3_key image_data content_type
                        <> None)
                  /\ trace' = trace ++ rounds j ++ [request]
    | (inl e, trace') =>
        (forall i, a <= i < m ->
           S3.put_object w i bucket s3_key image_data content_type <> None)
        /\ (exists msg, e = S3.S3UploadError msg)
        /\ trace' = trace ++ (if a <? m then rounds (m - 1) ++ [request]
                              else [])
    end.
Proof.
  induction n as [|n IH]; intros a last_error trace Hn content_type request
    rounds; subst rounds.
  - rewrite seqZ_nil by lia. cbn [S3.upload_attempts].
    destruct (Z.ltb_spec a m); [lia |].
    split; [intros; lia |]. split; [eauto |]. now rewrite app_nil_r.
  - rewrite seqZ_cons by lia.
    replace (Z.succ a) with (a + 1) by lia.
    replace (Z.pred (m - a)) with (m - (a + 1)) by lia.
    cbn [S3.upload_attempts]. fold content_type. fold request.
    destruct (S3.put_object w a bucket s3_key image_data content_type)
      as [text|] eqn:Hput.
    + specialize (IH (a + 1) text ((trace ++ [request]) ++ S3.backoff a m)).
      cbv zeta in IH. fold content_type in IH. fold request in IH.
      destruct (S3.upload_attempts _ _ _ _ _ _ _ _) as [[e|[]] trace'].
      * destruct IH as (Hall & Hmsg & ->); [lia |].
        split; [| split; [exact Hmsg |]].
        -- intros i Hi. destruct (Z.eq_dec i a) as [->|]; [congruence |].
           apply Hall. lia.
        -- destruct (Z.ltb_spec a m); [| lia].
           rewrite <- !app_assoc. f_equal.
           destruct (Z.ltb_spec (a + 1) m).
           ++ apply (backoff_rounds request a m (m - 1)); lia.
           ++ rewrite backoff_last, rounds_nil by lia. reflexivity.
      * destruct IH as (j & Hj & Hok & Hall & ->); [lia |].
        exists j. split; [lia |]. split; [exact Hok |]. split.
        -- intros i Hi. destruct (Z.eq_dec i a) as [->|]; [congruence |].
           apply Hall. lia.
        -- rewrite <- !app_assoc. f_equal.
           apply (backoff_rounds request a m j); lia.
    + exists a. split; [lia |]. split; [exact Hput |].
      split; [intros; lia |].
      rewrite rounds_nil by lia. reflexivity.
Qed.

Lemma download_outcome (w : S3.Net) (image_url : string) (m t : Z)
    (trace : list S3.Effect) :
  match S3._download_image_with_retry w image_url m t trace with
  | (inr data, trace') =>
      exists j, 0 <= j < m
                /\ S3.session_get w image_url t j = S3.Response 200 data
                /\ (forall i, 0 <= i < j ->
                      download_failed (S3.session_get w image_url t i))
                /\ trace' = trace ++ retry_trace (S3.Get image_url t) j
  | (inl e, trace') =>
      (forall i, 0 <= i < m ->
         download_failed (S3.session_get w image_url t i))
      /\ (exists msg, e = S3.S3UploadError msg)
      /\ trace' = trace ++ (if 0 <? m
                            then retry_trace (S3.Get image_url t) (m - 1)
                            else [])
  end.
Proof.
  unfold S3._download_image_with_retry, retry_trace, failed_rounds.
  pose proof (download_attempts_spec w image_url m t (Z.to_nat (m - 0)) 0
                "None" trace eq_refl) as H.
  cbv zeta in H. rewrite Z.sub_0_r in *.
  destruct (S3.download_attempts _ _ _ _ _ _ _) as [[e|data] trace'].
  - rewrite Z.sub_0_r in H. exact H.
  - destruct H as (j & H). exists j. rewrite Z.sub_0_r in H. exact H.
Qed.

Lemma upload_outcome (w : S3.Net) (image_data : list Byte.byte)
    (bucket s3_key : string) (m : Z) (trace : list S3.Effect) :
  let request :=
    S3.Put bucket s3_key image_data (S3._guess_content_type s3_key) in
  match S3._upload_to_s3_with_retry w image_data bucket s3_key m trace with
  | (inr _, trace') =>
      S3.boto3_client w = None
      /\ exists j, 0 <= j < m
                /\ S3.put_object w j bucket s3_key image_data
                     (S3._guess_content_type s3_key) = None
                /\ (forall i, 0 <= i < j ->
                      S3.put_object w i bucket s3_key image_data
                        (S3._guess_content_type s3_key) <> None)
                /\ trace' = trace ++ retry_trace request j
  | (inl (S3.S3UploadError _), trace') =>
      S3.boto3_client w = None
      /\ (forall i, 0 <= i < m ->
            S3.put_object w i bucket s3_key image_data
              (S3._guess_content_type s3_key) <> None)
      /\ trace' = trace ++ (if 0 <? m then retry_trace request (m - 1)
                            else [])
  | (inl (S3.ClientUnavailable text), trace') =>
      S3.boto3_client w = Some text /\ trace' = trace
  | (inl (S3.ValueError _), _) => False
  end.
Proof.
  intros request.
  unfold S3._upload_to_s3_with_retry, retry_trace, failed_rounds.
  destruct (S3.boto3_client w) as [text|]; [split; reflexivity |].
  pose proof (upload_attempts_spec w image_data bucket s3_key m
                (Z.to_nat (m - 0)) 0 "None" trace eq_refl) as H.
  cbv zeta in H. fold request in H. rewrite Z.sub_0_r in *.
  destruct (S3.upload_attempts _ _ _ _ _ _ _ _) as [[e|[]] trace'].
  - destruct H as (Hall & (msg & ->) & Htr). rewrite Z.sub_0_r in Htr.
    split; [reflexivity |]. split; assumption.
  - split; [reflexivity |].
    destruct H as (j & H). exists j. rewrite Z.sub_0_r in H. exact H.
Qed.

Lemma slept_failure_trace (request : S3.Effect) (m : Z) :
  (forall s, request <> S3.Sleep s) ->
  slept (if 0 <? m then retry_trace request (m - 1) else [])
  = (if 0 <? m then 2 ^ (m - 1) - 1 else 0).
Proof.
  intros Hreq. destruct (Z.ltb_spec 0 m); [| reflexivity].
  apply slept_retry_trace; [assumption | lia].
Qed.

Lemma elem_of_retry_trace (request e : S3.Effect) (n : Z) :
  e ∈ retry_trace request n -> e = request \/ exists s, e = S3.Sleep s.
Proof.
  unfold retry_trace, failed_rounds.
  rewrite elem_of_app, list_elem_of_bind.
  intros [(i & Hi & _)|Hreq].
  - apply elem_of_cons in Hi as [->|Hi]; [now left |].
    apply elem_of_cons in Hi as [->|Hi]; [eauto |].
    inversion Hi.
  - apply elem_of_cons in Hreq as [->|Hreq]; [now left | inversion Hreq].
Qed.

Lemma get_not_sleep (u : string) (t s : Z) : S3.Get u t <> S3.Sleep s.
Proof. discriminate. Qed.

Lemma put_not_sleep (b k : string) (body : list Byte.byte) (ct : string)
    (s : Z) : S3.Put b k body ct <> S3.Sleep s.
Proof. discriminate. Qed.

Lemma slept_retry_trace_le (request : S3.Effect) (n m : Z) :
  (forall s, request <> S3.Sleep s) ->
  0 <= n < m ->
  slept (retry_trace request n) <= 2 ^ Z.max 0 (m - 1) - 1.
Proof.
  intros Hreq Hn. rewrite slept_retry_trace by (assumption || lia).
  rewrite Z.max_r by lia.
  pose proof (Z.pow_le_mono_r 2 n (m - 1)). lia.
Qed.

Lemma slept_failure_trace_le (request : S3.Effect) (m : Z) :
  (forall s, request <> S3.Sleep s) ->
  slept (if 0 <? m then retry_trace request (m - 1) else [])
  <= 2 ^ Z.max 0 (m - 1) - 1.
Proof.
  intros Hreq. destruct (Z.ltb_spec 0 m).
  - apply slept_retry_trace_le; [assumption | lia].
  - rewrite Z.max_l by lia. change (0 <= 2 ^ 0 - 1). lia.
Qed.

Lemma elem_of_failure_trace (request e : S3.Effect) (m : Z) :
  e ∈ (if 0 <? m then retry_trace request (m - 1) else []) ->
  e = request \/ exists s, e = S3.Sleep s.
Proof.
  destruct (0 <? m); [apply elem_of_retry_trace |].
  intros H. inversion H.
Qed.

(** X18. [_download_image_with_retry] returns the body of the first
    attempt answered with status 200 among the first [max_retries], after
    one GET per attempt and a sleep of [2 ** attempt] seconds after each
    failed one: [2 ** n - 1] seconds before success at attempt [n]. A
    status other than 200 counts as a failed attempt like an exception.
    When every attempt fails it raises [S3UploadError] after [max_retries]
    requests, with no sleep after the last; for [max_retries <= 0] it
    raises without any request. *)
Theorem download_retry_schedule (w : S3.Net) (image_url : string)
    (max_retries timeout_seconds : Z) :
  let request := S3.Get image_url timeout_seconds in
  match S3._download_image_with_retry w image_url max_retries
          timeout_seconds [] with
  | (inr data, trace) =>
      exists n,
        0 <= n < max_retries
        /\ S3.session_get w image_url timeout_seconds n = S3.Response 200 data
        /\ (forall i, 0 <= i < n ->
              download_failed (S3.session_get w image_url timeout_seconds i))
        /\ trace = retry_trace request n
        /\ slept trace = 2 ^ n - 1
  | (inl e, trace) =>
      (forall i, 0 <= i < max_retries ->
         download_failed (S3.session_get w image_url timeout_seconds i))
      /\ (exists msg, e = S3.S3UploadError msg)
      /\ trace = (if 0 <? max_retries
                  then retry_trace request (max_retries - 1) else [])
      /\ slept trace = (if 0 <? max_retries
                        then 2 ^ (max_retries - 1) - 1 else 0)
  end.
Proof.
  intros request.
  pose proof (download_outcome w image_url max_retries timeout_seconds [])
    as H.
  destruct (S3._download_image_with_retry _ _ _ _ _) as [[e|data] trace].
  - destruct H as (Hall & Hmsg & ->). cbn [app].
    repeat split; try assumption.
    apply slept_failure_trace, get_not_sleep.
  - destruct H as (n & Hn & Hget & Hall & ->). cbn [app].
    exists n. repeat split; try assumption; try lia.
    apply slept_retry_trace; [apply get_not_sleep | lia].
Qed.


(** X20. [upload_image_to_s3] refuses an empty URL or bucket with
    [ValueError] before anything is requested. Whatever the outcome, every
    PUT of a run goes to the given bucket under the generated key, with the
    content type guessed from that key, and carries the body of a GET of
    this run that was answered 200: nothing is uploaded unless the download
    succeeded. A returned URL is [s3://bucket/key], after the requests of
    the download followed by those of the upload; and the run sleeps at
    most [2 * (2 ** (max_retries - 1) - 1)] seconds in all. *)
Theorem upload_image_to_s3_outcomes (w : S3.Net)
    (image_url bucket key_prefix : string) (max_retries timeout_seconds : Z) :
  let run := S3.upload_image_to_s3 w image_url bucket key_prefix max_retries
               timeout_seconds in
  (image_url = "" \/ bucket = "" ->
   exists msg, run = (inl (S3.ValueError msg), []))
  /\ (forall b k body ct,
        S3.Put b k body ct ∈ snd run ->
        b = bucket
        /\ S3._generate_s3_key w image_url key_prefix = inr k
        /\ ct = S3._guess_content_type k
        /\ exists n,
             0 <= n < max_retries
             /\ S3.session_get w image_url timeout_seconds n
                = S3.Response 200 body)
  /\ (forall s3_url,
        fst run = inr s3_url ->
        exists s3_key body n m,
          S3._generate_s3_key w image_url key_prefix = inr s3_key
          /\ s3_url = ("s3://" ++ bucket ++ "/" ++ s3_key)%string
          /\ S3.session_get w image_url timeout_seconds n
             = S3.Response 200 body
          /\ S3.put_object w m bucket s3_key body
               (S3._guess_content_type s3_key) = None
          /\ snd run
             = retry_trace (S3.Get image_url timeout_seconds) n
               ++ retry_trace
                    (S3.Put bucket s3_key body (S3._guess_content_type s3_key))
                    m)
  /\ slept (snd run) <= 2 * (2 ^ Z.max 0 (max_retries - 1) - 1).
Proof.
  intros run. subst run. unfold S3.upload_image_to_s3.
  assert (0 <= 2 * (2 ^ Z.max 0 (max_retries - 1) - 1)) as Hnonneg.
  { pose proof (Z.pow_pos_nonneg 2 (Z.max 0 (max_retries - 1))). lia. }
  destruct image_url as [|c image_url].
  { cbn [fst snd]. split; [eauto |]. split; [intros ? ? ? ? H; inversion H |].
    split; [discriminate | exact Hnonneg]. }
  destruct bucket as [|c' bucket].
  { cbn [fst snd]. split; [eauto |]. split; [intros ? ? ? ? H; inversion H |].
    split; [discriminate | exact Hnonneg]. }
  set (url := String c image_url). set (bkt := String c' bucket).
  split; [intros [H|H]; discriminate |].
  destruct (S3._generate_s3_key w url key_prefix) as [e|s3_key] eqn:Hkey.
  { cbn [fst snd]. split; [intros ? ? ? ? H; inversion H |].
    split; [discriminate | exact Hnonneg]. }
  pose proof (download_outcome w url max_retries timeout_seconds []) as Hd.
  destruct (S3._download_image_with_retry _ _ _ _ _) as [[e|data] dtrace].
  { destruct Hd as (_ & _ & ->). cbn [fst snd app].
    split; [| split; [discriminate |]].
    - intros b k body ct Hin.
      apply elem_of_failure_trace in Hin as [Hin|(s & Hin)]; discriminate.
    - pose proof (slept_failure_trace_le (S3.Get url timeout_seconds)
                    max_retries (get_not_sleep _ _)). lia. }
  destruct Hd as (n & Hn & Hget & _ & ->). cbn [app].
  pose proof (slept_retry_trace_le (S3.Get url timeout_seconds) n max_retries
                (get_not_sleep _ _) Hn) as Hsd.
  pose proof (upload_outcome w data bkt s3_key max_retries
                (retry_trace (S3.Get url timeout_seconds) n)) as Hu.
  cbv zeta in Hu.
  set (request := S3.Put bkt s3_key data (S3._guess_content_type s3_key)) in *.
  assert (forall b k body ct,
            S3.Put b k body ct = request ->
            b = bkt /\ inr s3_key = @inr S3.Raised string k
            /\ ct = S3._guess_content_type k
            /\ exists n0, 0 <= n0 < max_retries
                 /\ S3.session_get w url timeout_seconds n0
                    = S3.Response 200 body) as Hreq.
  { intros b k body ct [= -> -> -> ->]. repeat split. eauto. }
  destruct (S3._upload_to_s3_with_retry _ _ _ _ _ _) as [[e|[]] utrace].
  - cbn [fst snd]. split; [| split; [discriminate |]].
    + intros b k body ct Hin. destruct e as [msg|msg|text]; [contradiction | |].
      * destruct Hu as (_ & _ & ->).
        apply elem_of_app in Hin as [Hin|Hin].
        -- apply elem_of_retry_trace in Hin as [Hin|(s & Hin)]; discriminate.
        -- apply elem_of_failure_trace in Hin as [Hin|(s & Hin)];
             [| discriminate]. apply Hreq, Hin.
      * destruct Hu as (_ & ->).
        apply elem_of_retry_trace in Hin as [Hin|(s & Hin)]; discriminate.
    + destruct e as [msg|msg|text]; [contradiction | |].
      * destruct Hu as (_ & _ & ->). rewrite slept_app.
        pose proof (slept_failure_trace_le request max_retries) as Hsu.
        specialize (Hsu (put_not_sleep _ _ _ _)). lia.
      * destruct Hu as (_ & ->). lia.
  - destruct Hu as (_ & m & Hm & Hput & _ & ->). cbn [fst snd].
    split; [| split].
    + intros b k body ct Hin.
      apply elem_of_app in Hin as [Hin|Hin];
        apply elem_of_retry_trace in Hin as [Hin|(s & Hin)];
        try discriminate.
      apply Hreq, Hin.
    + intros s3_url [= <-]. exists s3_key, data, n, m.
      repeat split; assumption.
    + rewrite slept_app.
      pose proof (slept_retry_trace_le request m max_retries
                    (put_not_sleep _ _ _ _) Hm). lia.
Qed.

Example sample_net_run :
  S3.upload_image_to_s3 sample_net "https://example.org/photos/Cat.PNG"
    "scraped-images" "images" 3 10
  = (inr "s3://scraped-images/images/20240101_120000_0123456789ab.PNG",
     [ S3.Get "https://example.org/photos/Cat.PNG" 10; S3.Sleep 1;
       S3.Get "https://example.org/photos/Cat.PNG" 10;
       S3.Put "scraped-images" "images/20240101_120000_0123456789ab.PNG"
         [Byte.x89; Byte.x50] "image/png" ])
  /\ fst (S3.upload_image_to_s3 sample_net "https://example.org/photos/Cat.PNG"
            "scraped-images" "images" 1 10)
     = inl (S3.S3UploadError
              "Failed to download image after 1 attempts: Failed to download image: HTTP 503").
Proof. vm_compute. split; reflexivity. Qed.
